(** * event-date-time-nlp: the parsing rules and the parse orchestrator

    A shallow embedding of [api/parsing/rules.py] and [api/parsing/parser.py]
    and the properties of the extraction pipeline.

    Text is a list of characters.  A character is a code point below 256
    (the type [ascii] read as Latin-1) or an upper-case letter above them
    that has no lower-case form; the character classes below are the ones
    Python's [str] methods and the [re] module use on these characters. *)

From Stdlib Require Import Ascii String.
From Stdlib Require Import List NArith ZArith Bool Lia Arith.
Import ListNotations.
Local Open Scope list_scope.

Set Implicit Arguments.

(** ** Characters *)

(** A character: a code point below 256, or an upper-case letter (of the
    category Lu) with a higher code point [cp] that has no lower-case form,
    one of 471 such letters, as U+03D2, U+211D and U+1D400; [str.lower]
    leaves such a letter as it is.  It is a letter to [str.isalpha] and to
    the class [\w], and neither a digit nor white space. *)
Inductive char : Type :=
| Latin (a : ascii)
| Capital (cp : N).

Definition text := list char.

(** A literal, written as a Rocq string. *)
Definition py (s : string) : text := map Latin (list_ascii_of_string s).

Definition char_eqb (x y : char) : bool :=
  match x, y with
  | Latin a, Latin b => Ascii.eqb a b
  | Capital m, Capital n => N.eqb m n
  | _, _ => false
  end.

Definition char_dec (x y : char) : {x = y} + {x <> y}.
Proof. decide equality; [apply ascii_dec|apply N.eq_dec]. Defined.

Definition code (a : ascii) : N := N_of_ascii a.

Definition between (lo hi : N) (a : ascii) : bool :=
  N.leb lo (code a) && N.leb (code a) hi.

Definition is_code (n : N) (a : ascii) : bool := N.eqb (code a) n.

(** A class of characters: [f] on the code points below 256, [w] on the
    capitals above them. *)
Definition class (f : ascii -> bool) (w : bool) (c : char) : bool :=
  match c with
  | Latin a => f a
  | Capital _ => w
  end.

(** [str.isspace] on one character, also the class [\s] of [re]. *)
Definition isspace (c : char) : bool :=
  class (fun a => between 9 13 a || between 28 32 a || is_code 133 a || is_code 160 a)
        false c.

(** The class [\d] of [re]: the decimal digits. *)
Definition isdecimal (c : char) : bool := class (between 48 57) false c.

(** [str.isdigit] on one character: the decimal digits and the superscripts
    one, two and three. *)
Definition isdigit_char (c : char) : bool :=
  class (fun a => between 48 57 a || is_code 178 a || is_code 179 a || is_code 185 a)
        false c.

Definition isupper (c : char) : bool :=
  class (fun a => between 65 90 a || (between 192 222 a && negb (is_code 215 a)))
        true c.

Definition isalpha_char (c : char) : bool :=
  class (fun a => between 65 90 a || between 97 122 a
                  || is_code 170 a || is_code 181 a || is_code 186 a
                  || (between 192 255 a && negb (is_code 215 a) && negb (is_code 247 a)))
        true c.

(** The class [\w] of [re]: alphanumeric characters and the underscore. *)
Definition isword (c : char) : bool :=
  isalpha_char c || isdigit_char c
  || class (fun a => between 188 190 a || is_code 95 a) false c.

(** [str.lower] on one character. *)
Definition lower_char (c : char) : char :=
  match c with
  | Latin a => if isupper c then Latin (ascii_of_N (code a + 32)) else c
  | Capital _ => c
  end.

(** ** Strings *)

Definition lower (s : text) : text := map lower_char s.

Fixpoint lstrip (s : text) : text :=
  match s with
  | c :: s' => if isspace c then lstrip s' else s
  | [] => []
  end.

Definition rstrip (s : text) : text := rev (lstrip (rev s)).

Definition strip (s : text) : text := rstrip (lstrip s).

(** [s.replace(old, new)] for a one-character [old]. *)
Definition replace (old : char) (new : text) (s : text) : text :=
  flat_map (fun c => if char_eqb c old then new else [c]) s.

Definition text_eqb (a b : text) : bool :=
  if list_eq_dec char_dec a b then true else false.

Fixpoint startswith (s prefix : text) : bool :=
  match prefix, s with
  | [], _ => true
  | p :: prefix', c :: s' => char_eqb c p && startswith s' prefix'
  | _ :: _, [] => false
  end.

(** [sub in s]. *)
Fixpoint contains (sub s : text) : bool :=
  startswith s sub ||
  match s with
  | _ :: s' => contains sub s'
  | [] => false
  end.

(** [s.split()]: the maximal runs of characters that are not white space.
    [cur] is the run being read, reversed. *)
Fixpoint split_go (cur : text) (s : text) : list text :=
  match s with
  | [] => match cur with [] => [] | _ => [rev cur] end
  | c :: s' =>
      if isspace c
      then match cur with [] => split_go [] s' | _ => rev cur :: split_go [] s' end
      else split_go (c :: cur) s'
  end.

Definition split (s : text) : list text := split_go [] s.

(** [sep.join(parts)]. *)
Fixpoint join (sep : text) (parts : list text) : text :=
  match parts with
  | [] => []
  | [p] => p
  | p :: rest => p ++ sep ++ join sep rest
  end.

(** [s.isdigit()]. *)
Definition isdigit (s : text) : bool :=
  match s with [] => false | _ => forallb isdigit_char s end.

(** Membership in a table of words. *)
Definition mem (w : text) (table : list text) : bool := existsb (text_eqb w) table.

(** Membership in a set of indices. *)
Definition memi (i : nat) (set : list nat) : bool := existsb (Nat.eqb i) set.

(** ** Exceptions *)

Inductive exn : Type := ValueError | OverflowError | TypeError | AttributeError.

Inductive result (A : Type) : Type :=
| Ok (a : A)
| Raise (e : exn).
Arguments Ok {A} a.
Arguments Raise {A} e.

Definition bind {A B : Type} (x : result A) (f : A -> result B) : result B :=
  match x with
  | Ok a => f a
  | Raise e => Raise e
  end.

Notation "x <- c ;; k" := (bind c (fun x => k))
  (at level 61, c at next level, right associativity).

(** The most digits [int] converts, the default of
    [sys.int_max_str_digits]. *)
Definition MAX_STR_DIGITS : nat := 4300.

Definition digit_val (c : char) : Z :=
  match c with
  | Latin a => Z.of_N (code a - 48)
  | Capital _ => 0%Z
  end.

(** [int(s)] on the text of a group: digits only, and no more of them than
    [MAX_STR_DIGITS], else [ValueError]. *)
Definition int (s : text) : result Z :=
  match s with
  | [] => Raise ValueError
  | _ => if forallb isdecimal s
         then if Nat.leb (length s) MAX_STR_DIGITS
              then Ok (fold_left (fun acc c => 10 * acc + digit_val c)%Z s 0%Z)
              else Raise ValueError
         else Raise ValueError
  end.

(** ** Regular expressions

    The fragment of [re] the pattern tables are written in, matched by
    backtracking: every way to match is listed, in the order [re] tries them,
    and the first one wins. *)

Inductive cls : Type :=
| Digit   (* \d *)
| Space.  (* \s *)

Definition in_cls (k : cls) (c : char) : bool :=
  match k with
  | Digit => isdecimal c
  | Space => isspace c
  end.

Inductive regex : Type :=
| Eps                                            (* the empty pattern *)
| Chr (c : char)                                (* a literal character *)
| Seq (a b : regex)                              (* ab *)
| Alt (a b : regex)                              (* a|b *)
| Opt (a : regex)                                (* a? *)
| Rep (k : cls) (lo : nat) (hi : option nat)     (* k{lo,hi}, k* and k+ *)
| Grp (n : nat) (a : regex)                      (* the capturing group n *)
| WordB.                                         (* \b *)

(** A position in the subject: the text before it, reversed, the text after
    it, and the groups captured so far (the latest first). *)
Record pos : Type := mkpos {
  before : text;
  after : text;
  caps : list (nat * text)
}.

Definition isword_at (s : text) : bool :=
  match s with c :: _ => isword c | [] => false end.

(** [\b]: exactly one side of the position is a word character. *)
Definition boundary (p : pos) : bool :=
  xorb (isword_at (before p)) (isword_at (after p)).

Definition more (hi : option nat) : bool :=
  match hi with Some 0 => false | _ => true end.

(** [p{lo,hi}], greedy: the longest run first. *)
Fixpoint rep (p : char -> bool) (lo : nat) (hi : option nat)
    (l r : text) (g : list (nat * text)) : list pos :=
  let stop := if Nat.eqb lo 0 then [mkpos l r g] else [] in
  match r with
  | x :: r' =>
      if p x && more hi
      then rep p (pred lo) (option_map pred hi) (x :: l) r' g ++ stop
      else stop
  | [] => stop
  end.

(** The text read between two positions of one subject. *)
Definition consumed (p q : pos) : text :=
  rev (firstn (length (before q) - length (before p)) (before q)).

(** [ic] is the flag [re.IGNORECASE]. *)
Definition chr_eqb (ic : bool) (x c : char) : bool :=
  if ic then char_eqb (lower_char x) (lower_char c) else char_eqb x c.

Fixpoint matches (ic : bool) (r : regex) (p : pos) : list pos :=
  match r with
  | Eps => [p]
  | Chr c =>
      match after p with
      | x :: r' => if chr_eqb ic x c then [mkpos (x :: before p) r' (caps p)] else []
      | [] => []
      end
  | Seq a b => flat_map (matches ic b) (matches ic a p)
  | Alt a b => matches ic a p ++ matches ic b p
  | Opt a => matches ic a p ++ [p]
  | Rep k lo hi => rep (in_cls k) lo hi (before p) (after p) (caps p)
  | Grp n a =>
      map (fun q => mkpos (before q) (after q) ((n, consumed p q) :: caps q))
          (matches ic a p)
  | WordB => if boundary p then [p] else []
  end.

(** The match object: [group(0)] and the numbered groups. *)
Record Match : Type := mkMatch {
  group0 : text;
  groups : list (nat * text)
}.

Fixpoint lookup (n : nat) (g : list (nat * text)) : option text :=
  match g with
  | [] => None
  | (k, v) :: g' => if Nat.eqb k n then Some v else lookup n g'
  end.

Definition group (m : Match) (n : nat) : option text := lookup n (groups m).

Definition match_at (ic : bool) (r : regex) (l s : text) : option pos :=
  match matches ic r (mkpos l s []) with
  | q :: _ => Some q
  | [] => None
  end.

(** [re.search]: the leftmost position at which the pattern matches. *)
Fixpoint search_from (ic : bool) (r : regex) (l s : text) : option Match :=
  match match_at ic r l s with
  | Some q => Some (mkMatch (consumed (mkpos l s []) q) (caps q))
  | None =>
      match s with
      | [] => None
      | x :: s' => search_from ic r (x :: l) s'
      end
  end.

Definition search (ic : bool) (r : regex) (s : text) : option Match :=
  search_from ic r [] s.

(** [re.sub(pattern, repl, s)]: every match, left to right, is replaced;
    [skip] counts the characters of the last match still to pass.  After
    an empty match one character is copied. *)
Fixpoint sub_go (r : regex) (repl : text) (l s : text) (skip : nat) : text :=
  match skip with
  | S k =>
      match s with
      | [] => []
      | x :: s' => sub_go r repl (x :: l) s' k
      end
  | O =>
      match match_at false r l s with
      | Some q =>
          match length (consumed (mkpos l s []) q), s with
          | S k, x :: s' => repl ++ sub_go r repl (x :: l) s' k
          | _, x :: s' => repl ++ x :: sub_go r repl (x :: l) s' 0
          | _, [] => repl
          end
      | None =>
          match s with
          | [] => []
          | x :: s' => x :: sub_go r repl (x :: l) s' 0
          end
      end
  end.

Definition sub (r : regex) (repl : text) (s : text) : text := sub_go r repl [] s 0.

(** *** Pattern syntax *)

Fixpoint lit_go (s : text) : regex :=
  match s with
  | [] => Eps
  | [c] => Chr c
  | c :: s' => Seq (Chr c) (lit_go s')
  end.

Definition lit (s : string) : regex := lit_go (py s).

Fixpoint seq (rs : list regex) : regex :=
  match rs with
  | [] => Eps
  | [r] => r
  | r :: rs' => Seq r (seq rs')
  end.

Definition spaces0 : regex := Rep Space 0 None.        (* \s*  *)
Definition spaces1 : regex := Rep Space 1 None.        (* \s+  *)
Definition d12 : regex := Rep Digit 1 (Some 2).        (* \d{1,2} *)
Definition d2 : regex := Rep Digit 2 (Some 2).         (* \d{2} *)
Definition dplus : regex := Rep Digit 1 None.          (* \d+ *)
Definition ampm : regex := Alt (lit "am") (lit "pm").      (* am|pm *)

(** ** The pattern tables of rules.py *)

Inductive time_kind : Type :=
| T12h | Tat_12h | T24h | Tnoon | Tmidnight | Tat_night.

Definition at_sign : regex := Chr (Latin "@").
Definition colon : regex := Chr (Latin ":").

Definition re_noon : regex := seq [WordB; lit "noon"; WordB].
Definition re_midnight : regex := seq [WordB; lit "midnight"; WordB].
Definition re_at_night : regex := seq [WordB; lit "at"; spaces1; lit "night"; WordB].

Definition TIME_PATTERNS : list (regex * time_kind) :=
  [ (seq [WordB; Grp 1 d12; spaces0; ampm; WordB], T12h);
    (seq [WordB; lit "at"; spaces1; Grp 1 d12; spaces0; Opt ampm; WordB], Tat_12h);
    (seq [at_sign; Grp 1 d12; Opt (Seq spaces0 ampm); WordB], Tat_12h);
    (seq [at_sign; spaces1; Grp 1 d12; spaces0; Opt ampm; WordB], Tat_12h);
    (seq [WordB; Grp 1 d12; colon; Grp 2 d2; spaces0; Opt ampm; WordB], T24h);
    (seq [at_sign; Grp 1 d12; colon; Grp 2 d2; Opt (Seq spaces0 ampm); WordB], T24h);
    (seq [at_sign; spaces1; Grp 1 d12; colon; Grp 2 d2; spaces0; Opt ampm; WordB], T24h);
    (re_noon, Tnoon);
    (re_midnight, Tmidnight);
    (re_at_night, Tat_night) ].

Inductive unit_kind : Type := Uhours | Uminutes | Udays.

Definition RELATIVE_TIME_PATTERNS : list (regex * unit_kind) :=
  [ (seq [WordB; lit "in"; spaces1; Grp 1 dplus; spaces1; lit "hour"; Opt (Chr (Latin "s")); WordB],
     Uhours);
    (seq [WordB; lit "in"; spaces1; Grp 1 dplus; spaces1; lit "minute"; Opt (Chr (Latin "s")); WordB],
     Uminutes);
    (seq [WordB; lit "in"; spaces1; Grp 1 dplus; spaces1; lit "day"; Opt (Chr (Latin "s")); WordB],
     Udays) ].

Inductive range_kind : Type :=
| Rnow_12h | Rnow_12h_to | R12h | R12h_to | R24h.

Definition dash : regex := Chr (Latin "-").

Definition TIME_RANGE_PATTERNS : list (regex * range_kind) :=
  [ (seq [lit "now"; spaces0; dash; spaces0; Grp 1 d12; spaces0; Grp 2 ampm], Rnow_12h);
    (seq [lit "now"; spaces1; lit "to"; spaces1; Grp 1 d12; spaces0; Grp 2 ampm], Rnow_12h_to);
    (seq [Grp 1 d12; spaces0; dash; spaces0; Grp 2 d12; spaces0; Grp 3 ampm], R12h);
    (seq [Grp 1 d12; spaces1; lit "to"; spaces1; Grp 2 d12; spaces0; Grp 3 ampm], R12h_to);
    (seq [Grp 1 d12; colon; Grp 2 d2; spaces0; dash; spaces0;
          Grp 3 d12; colon; Grp 4 d2; spaces0; Opt (Grp 5 ampm)], R24h) ].

(** ** Dates and times

    The part of Python's [datetime] the rules use: [replace] with its range
    check, and the sum with a [timedelta] with its overflow check.  A date
    is naive, as [datetime.now()] gives it: it has no time zone, and
    [isoformat] prints no offset. *)

Local Open Scope Z_scope.

Record datetime : Type := mkdt {
  year : Z; month : Z; day : Z;
  hour : Z; minute : Z; second : Z; microsecond : Z
}.

(** [d.replace(hour=h, minute=m, second=0, microsecond=0)]. *)
Definition replace_time (d : datetime) (h m : Z) : result datetime :=
  if (0 <=? h) && (h <=? 23) && (0 <=? m) && (m <=? 59)
  then Ok (mkdt (year d) (month d) (day d) h m 0 0)
  else Raise ValueError.

Definition is_leap (y : Z) : bool :=
  (y mod 4 =? 0) && (negb (y mod 100 =? 0) || (y mod 400 =? 0)).

Definition days_in_month (y m : Z) : Z :=
  if m =? 2 then (if is_leap y then 29 else 28)
  else if (m =? 4) || (m =? 6) || (m =? 9) || (m =? 11) then 30 else 31.

Definition days_before_year (y : Z) : Z :=
  let y := y - 1 in y * 365 + y / 4 - y / 100 + y / 400.

Definition days_before_month (y m : Z) : Z :=
  fold_left (fun acc k => acc + days_in_month y (Z.of_nat k))
            (List.seq 1 (Z.to_nat (m - 1))) 0.

Definition toordinal (d : datetime) : Z :=
  days_before_year (year d) + days_before_month (year d) (month d) + day d.

(** [date.fromordinal]: the year, month and day of a day number. *)
Definition fromordinal (n : Z) : Z * Z * Z :=
  let n := n - 1 in
  let n400 := n / 146097 in let n := n mod 146097 in
  let n100 := n / 36524 in let n := n mod 36524 in
  let n4 := n / 1461 in let n := n mod 1461 in
  let n1 := n / 365 in let n := n mod 365 in
  let y := n400 * 400 + 1 + n100 * 100 + n4 * 4 + n1 in
  if (n1 =? 4) || (n100 =? 4) then (y - 1, 12, 31)
  else
    let leapyear := (n1 =? 3) && (negb (n4 =? 24) || (n100 =? 3)) in
    let m := Z.shiftr (n + 50) 5 in
    let preceding := days_before_month (if leapyear then 4 else 1) m in
    if preceding >? n
    then (y, m - 1, n - (preceding - days_in_month (if leapyear then 4 else 1) (m - 1)) + 1)
    else (y, m, n - preceding + 1).

Definition MAXORDINAL : Z := 3652059.
Definition MAXDELTADAYS : Z := 999999999.

(** A [timedelta] of whole seconds, as days and seconds of the day. *)
Definition timedelta (seconds : Z) : result (Z * Z) :=
  let days := seconds / 86400 in
  if Z.abs days >? MAXDELTADAYS then Raise OverflowError
  else Ok (days, seconds mod 86400).

(** [d + delta]. *)
Definition dt_add (d : datetime) (delta : Z * Z) : result datetime :=
  let secs := hour d * 3600 + minute d * 60 + second d + snd delta in
  let days := toordinal d + fst delta + secs / 86400 in
  let secs := secs mod 86400 in
  if (0 <? days) && (days <=? MAXORDINAL)
  then
    let '(y, m, dd) := fromordinal days in
    Ok (mkdt y m dd (secs / 3600) ((secs mod 3600) / 60) (secs mod 60) (microsecond d))
  else Raise OverflowError.

(** ** rules.py *)

Definition TimeOfDay : Type := Z * Z.
Definition TimeRange : Type := TimeOfDay * TimeOfDay.

Definition default_now (now : datetime) (base_date : option datetime) : datetime :=
  match base_date with
  | None => now
  | Some d => d
  end.

(** [int(match.group(n))]. *)
Definition int_group (m : Match) (n : nat) : result Z :=
  match group m n with
  | Some s => int s
  | None => Raise TypeError
  end.

(** The hour by the meridiem found in the matched text. *)
Definition meridiem_in (matched : text) (h : Z) : Z :=
  if contains (py "pm") matched && negb (h =? 12) then h + 12
  else if contains (py "am") matched && (h =? 12) then 0
  else h.

(** The chain of tests on [pattern_type] in the loop of
    [extract_explicit_time]: what the branch of the type returns, nothing
    for a type that has no branch (the loop goes on). *)
Definition time_of_match (pattern_type : time_kind) (m : Match)
    : option (result TimeOfDay) :=
  match pattern_type with
  | T12h =>
      Some (h <- int_group m 1 ;;
            Ok (meridiem_in (lower (group0 m)) h, 0))
  | Tat_12h =>
      Some (h <- int_group m 1 ;;
            Ok (meridiem_in (lower (group0 m)) h, 0))
  | Tat_night => Some (Ok (20, 0))
  | T24h =>
      Some (h <- int_group m 1 ;;
            mi <- int_group m 2 ;;
            Ok (meridiem_in (lower (group0 m)) h, mi))
  | Tnoon | Tmidnight => None
  end.

Fixpoint explicit_loop (patterns : list (regex * time_kind)) (text_lower : text)
    : result (option TimeOfDay) :=
  match patterns with
  | [] => Ok None
  | (pattern, pattern_type) :: rest =>
      match search true pattern text_lower with
      | Some m =>
          match time_of_match pattern_type m with
          | Some r => t <- r ;; Ok (Some t)
          | None => explicit_loop rest text_lower
          end
      | None => explicit_loop rest text_lower
      end
  end.

Definition found (m : option Match) : bool :=
  match m with Some _ => true | None => false end.

Definition extract_explicit_time (now : datetime) (txt : text)
    (base_date : option datetime) : result (option TimeOfDay) :=
  let base_date := default_now now base_date in
  let text_lower := lower txt in
  if found (search false re_noon text_lower) then Ok (Some (12, 0))
  else if found (search false re_midnight text_lower) then Ok (Some (0, 0))
  else if found (search false re_at_night text_lower) then Ok (Some (20, 0))
  else explicit_loop TIME_PATTERNS text_lower.

Definition unit_seconds (unit : unit_kind) : Z :=
  match unit with
  | Uhours => 3600
  | Uminutes => 60
  | Udays => 86400
  end.

Fixpoint relative_loop (patterns : list (regex * unit_kind)) (text_lower : text)
    (base_date : datetime) : result (option datetime) :=
  match patterns with
  | [] => Ok None
  | (pattern, unit) :: rest =>
      match search false pattern text_lower with
      | Some m =>
          value <- int_group m 1 ;;
          delta <- timedelta (value * unit_seconds unit) ;;
          r <- dt_add base_date delta ;;
          Ok (Some r)
      | None => relative_loop rest text_lower base_date
      end
  end.

Definition extract_relative_time (now : datetime) (txt : text)
    (base_date : option datetime) : result (option datetime) :=
  let base_date := default_now now base_date in
  relative_loop RELATIVE_TIME_PATTERNS (lower txt) base_date.

Definition word (w : string) : regex := seq [WordB; lit w; WordB].

Definition abbreviations : list (regex * text) :=
  [ (word "tmr", py "tomorrow");
    (word "yest", py "yesterday");
    (word "tdy", py "today");
    (word "tn", py "tonight") ].

Definition normalize_text (txt : text) : text :=
  let normalized := strip (lower txt) in
  let normalized := replace (Latin "@") (py "at") normalized in
  fold_left (fun normalized '(abbrev, full) => sub abbrev full normalized)
            abbreviations normalized.

(** The hour of one end of a range by the period of the range. *)
Definition to_period (period : option text) (h : Z) : Z :=
  match period with
  | Some p =>
      if text_eqb p (py "pm") then (if negb (h =? 12) then h + 12 else h)
      else if text_eqb p (py "am") then (if h =? 12 then 0 else h)
      else h
  | None => h
  end.

(** [match.group(n).lower()]. *)
Definition lower_group (m : Match) (n : nat) : result text :=
  match group m n with
  | Some s => Ok (lower s)
  | None => Raise AttributeError
  end.

(** The chain of tests on [pattern_type] in the loop of
    [extract_time_range]; every type has a branch. *)
Definition range_of_match (pattern_type : range_kind) (m : Match)
    (base_date : datetime) : result TimeRange :=
  match pattern_type with
  | Rnow_12h | Rnow_12h_to =>
      end_hour <- int_group m 1 ;;
      period <- lower_group m 2 ;;
      let end_hour := to_period (Some period) end_hour in
      let start_time := (hour base_date, minute base_date) in
      Ok (start_time, (end_hour, 0))
  | R12h | R12h_to =>
      start_hour <- int_group m 1 ;;
      end_hour <- int_group m 2 ;;
      period <- lower_group m 3 ;;
      let start_hour := to_period (Some period) start_hour in
      let end_hour := to_period (Some period) end_hour in
      Ok ((start_hour, 0), (end_hour, 0))
  | R24h =>
      start_hour <- int_group m 1 ;;
      start_minute <- int_group m 2 ;;
      end_hour <- int_group m 3 ;;
      end_minute <- int_group m 4 ;;
      let period :=
        match group m 5 with
        | Some (c :: s) => Some (lower (c :: s))
        | _ => None
        end in
      let start_hour := to_period period start_hour in
      let end_hour := to_period period end_hour in
      Ok ((start_hour, start_minute), (end_hour, end_minute))
  end.

Fixpoint range_loop (patterns : list (regex * range_kind)) (text_lower : text)
    (base_date : datetime) : result (option TimeRange) :=
  match patterns with
  | [] => Ok None
  | (pattern, pattern_type) :: rest =>
      match search true pattern text_lower with
      | Some m => r <- range_of_match pattern_type m base_date ;; Ok (Some r)
      | None => range_loop rest text_lower base_date
      end
  end.

Definition extract_time_range (now : datetime) (txt : text)
    (base_date : option datetime) : result (option TimeRange) :=
  let base_date := default_now now base_date in
  range_loop TIME_RANGE_PATTERNS (lower txt) base_date.

Definition merge_datetime_time (date_obj : datetime) (time_tuple : option TimeOfDay)
    : result datetime :=
  match time_tuple with
  | None => Ok date_obj
  | Some (h, mi) => replace_time date_obj h mi
  end.

(** ** parser.py *)

Local Open Scope nat_scope.

(** *** The word tables of the class [Parser] *)

Definition TEMPORAL_PATTERNS : list text := map py
  ["DATE"; "TIME"]%string.

Definition COMMAND_VERBS : list text := map py
  ["set"; "create"; "schedule"; "add"; "make"; "plan"; "book";
   "put"; "establish"; "arrange"; "organize"; "setup"]%string.

Definition TEMPORAL_WORDS : list text := map py
  ["tomorrow"; "tmr"; "today"; "tdy"; "yesterday"; "yest"; "now"; "tonight";
   "monday"; "mon"; "tuesday"; "tue"; "wednesday"; "wed"; "thursday"; "thu";
   "friday"; "fri"; "saturday"; "sat"; "sunday"; "sun";
   "january"; "jan"; "february"; "feb"; "march"; "mar"; "april"; "apr"; "may";
   "june"; "jun"; "july"; "jul"; "august"; "aug"; "september"; "sep";
   "october"; "oct"; "november"; "nov"; "december"; "dec";
   "am"; "pm"; "noon"; "midnight"; "at"; "@"; "in"; "on"; "next"; "this"; "last";
   "remind"; "me"; "to"; "night"]%string.

Definition TIME_UNITS : list text := map py
  ["hour"; "hours"; "minute"; "minutes"; "day"; "days";
   "week"; "weeks"; "month"; "months"; "year"; "years"]%string.

(** The first entry is the two literals ['zero' 'one'] of the source, which
    Python joins into one word. *)
Definition NUMBER_WORDS : list text := map py
  ["zeroone"; "two"; "three"; "four"; "five"; "six"; "seven"; "eight"; "nine";
   "ten"; "eleven"; "twelve"; "twenty"; "thirty"; "forty"; "fifty"]%string.

Definition GENERIC_NOUNS : list text := map py
  ["event"; "meeting"; "appointment"; "reminder"; "call"; "task"]%string.

Definition ARTICLES : list text := map py
  ["an"; "a"; "the"]%string.
Definition RANGE_LINKS : list text := map py
  ["-"; "to"]%string.
Definition MERIDIEMS : list text := map py
  ["am"; "pm"]%string.

(** *** Annotated tokens

    A document is the sequence of its tokens; a token refers to its head by
    the head's index, and its children are the tokens that name it as head. *)

Record Token : Type := mkToken {
  tok_text : text;
  pos_ : text;
  dep_ : text;
  ent_type_ : text;
  like_num : bool;
  is_alpha : bool;
  head : nat
}.

Definition Doc : Type := list Token.

(** [doc[i].text.lower()], the empty text outside the document. *)
Definition lower_at (doc : Doc) (i : nat) : text :=
  match nth_error doc i with
  | Some t => lower (tok_text t)
  | None => []
  end.

Definition like_num_at (doc : Doc) (i : nat) : bool :=
  match nth_error doc i with
  | Some t => like_num t
  | None => false
  end.

(** Tokens with their indices, as [enumerate(doc)]. *)
Definition enumerate {A : Type} (l : list A) : list (nat * A) :=
  combine (List.seq 0 (length l)) l.

(** [token.children]: the other tokens whose head is token [i]. *)
Definition children (doc : Doc) (i : nat) : list (nat * Token) :=
  filter (fun '(j, t) => Nat.eqb (head t) i && negb (Nat.eqb j i)) (enumerate doc).

Definition should_skip_article (doc : Doc) (token : Token) (i : nat) : bool :=
  let token_lower := lower (tok_text token) in
  if negb (mem token_lower ARTICLES) then false
  else if (0 <? i) && mem (lower_at doc (i - 1)) COMMAND_VERBS then true
  else if (i <? length doc - 1) && mem (lower_at doc (i + 1)) GENERIC_NOUNS then true
  else false.

Definition get_time_phrase_indices (doc : Doc) (token : Token) (i : nat) : list nat :=
  if like_num token then
    let indices :=
      if (i <? length doc - 1) && mem (lower_at doc (i + 1)) TIME_UNITS
      then (if (0 <? i) && text_eqb (lower_at doc (i - 1)) (py "in")
            then [i - 1; i + 1; i] else [i + 1; i])
      else [] in
    if (i <? length doc - 2)
       && mem (lower_at doc (i + 1)) RANGE_LINKS && like_num_at doc (i + 2)
       && (i <? length doc - 3) && mem (lower_at doc (i + 3)) MERIDIEMS
    then [i + 3; i + 2; i + 1; i] ++ indices
    else indices
  else
    let indices :=
      if text_eqb (lower (tok_text token)) (py "in") && (i <? length doc - 2)
         && (like_num_at doc (i + 1) || mem (lower_at doc (i + 1)) NUMBER_WORDS)
         && mem (lower_at doc (i + 2)) TIME_UNITS
      then [i + 2; i + 1; i] else [] in
    if text_eqb (lower (tok_text token)) (py "at") && (i <? length doc - 1)
       && text_eqb (lower_at doc (i + 1)) (py "night")
    then [i + 1; i] ++ indices
    else indices.

Definition identify_tokens_to_skip (doc : Doc) : list nat :=
  fold_left
    (fun tokens_to_skip '(i, token) =>
       let token_lower := lower (tok_text token) in
       if mem (ent_type_ token) TEMPORAL_PATTERNS then i :: tokens_to_skip
       else if mem token_lower TEMPORAL_WORDS then i :: tokens_to_skip
       else if mem token_lower COMMAND_VERBS then i :: tokens_to_skip
       else if should_skip_article doc token i then i :: tokens_to_skip
       else get_time_phrase_indices doc token i ++ tokens_to_skip)
    (enumerate doc) [].

Definition dep_in (t : Token) (labels : list string) : bool :=
  mem (dep_ t) (map py labels).

(** [_add_phrase_children(token, phrase_tokens)]. *)
Definition add_phrase_children (doc : Doc) (i : nat) (phrase_tokens : list nat) : list nat :=
  fold_left
    (fun acc '(j, child) =>
       if dep_in child ["prep"; "pobj"; "amod"; "compound"]%string
       then fold_left
              (fun acc '(k, gg_child) =>
                 if dep_in gg_child ["pobj"; "amod"]%string then k :: acc else acc)
              (children doc j) (j :: acc)
       else acc)
    (children doc i) phrase_tokens.

Definition extract_infinitive_phrases (doc : Doc) : list nat :=
  fold_left
    (fun acc token =>
       if negb (text_eqb (dep_ token) (py "mark"))
          || negb (text_eqb (lower (tok_text token)) (py "to"))
       then acc
       else
         match nth_error doc (head token) with
         | None => acc
         | Some infinitive_verb =>
             if negb (text_eqb (pos_ infinitive_verb) (py "VERB")) then acc
             else
               fold_left
                 (fun acc '(j, child) =>
                    if dep_in child ["dobj"; "pobj"; "attr"; "acomp"; "nsubj"; "nsubjpass"]%string
                    then add_phrase_children doc j (j :: acc)
                    else if text_eqb (dep_ child) (py "prep")
                    then fold_left
                           (fun acc '(k, prep_child) =>
                              if text_eqb (dep_ prep_child) (py "pobj") then k :: acc else acc)
                           (children doc j) (j :: acc)
                    else acc)
                 (children doc (head token)) (head token :: acc)
         end)
    doc [].

Definition space : text := py " ".

Definition build_title_from_tokens (doc : Doc) (tokens_to_skip infinitive_tokens : list nat)
    : option text :=
  match infinitive_tokens with
  | [] => None
  | _ =>
      let title_tokens :=
        flat_map
          (fun '(i, token) =>
             if memi i tokens_to_skip then []
             else if memi i infinitive_tokens then [tok_text token]
             else [])
          (enumerate doc) in
      let title := strip (join space title_tokens) in
      match title with
      | [] => None
      | _ => Some title
      end
  end.

Definition build_title_fallback (doc : Doc) (tokens_to_skip : list nat) : text :=
  let title_tokens :=
    flat_map
      (fun '(i, token) =>
         if memi i tokens_to_skip then []
         else if (mem (pos_ token) (map py ["NOUN"; "VERB"; "PROPN"; "ADJ"]%string)
                  || is_alpha token)
                 && ((1 <? length (tok_text token))
                     || mem (lower (tok_text token)) (map py ["i"; "a"]%string))
         then [tok_text token]
         else [])
      (enumerate doc) in
  strip (join space title_tokens).

(** [words[i].lower()], the empty text outside the list. *)
Definition word_at (words : list text) (i : nat) : text :=
  match nth_error words i with
  | Some w => lower w
  | None => []
  end.

Definition isdigit_at (words : list text) (i : nat) : bool :=
  match nth_error words i with
  | Some w => isdigit w
  | None => false
  end.

(** One turn of the loop of [_filter_words_fallback]: the indices it adds to
    [skip_indices] when it ends in [continue], nothing when it reaches the
    last test of the loop body. *)
Definition filter_rule (words : list text) (i : nat) (w : text) : option (list nat) :=
  let n := length words in
  let word_lower := lower w in
  if mem word_lower TEMPORAL_WORDS || mem word_lower COMMAND_VERBS then Some [i]
  else if mem word_lower ARTICLES && (0 <? i) && mem (word_at words (i - 1)) COMMAND_VERBS
  then Some [i]
  else if text_eqb word_lower (py "at") && (i <? n - 1)
          && text_eqb (word_at words (i + 1)) (py "night")
  then Some [i; i + 1]
  else if mem word_lower TIME_UNITS && (0 <? i)
          && (isdigit_at words (i - 1) || mem (word_at words (i - 1)) NUMBER_WORDS)
  then Some (if (1 <? i) && text_eqb (word_at words (i - 2)) (py "in")
             then [i; i - 1; i - 2] else [i; i - 1])
  else if isdigit w && (i <? n - 1) && mem (word_at words (i + 1)) TIME_UNITS
  then Some [i]
  else if isdigit w && (i <? n - 1)
          && mem (word_at words (i + 1)) RANGE_LINKS && (i <? n - 2)
          && isdigit_at words (i + 2) && (i <? n - 3)
          && mem (word_at words (i + 3)) MERIDIEMS
  then Some [i; i + 1; i + 2; i + 3]
  else if mem word_lower RANGE_LINKS && (0 <? i) && (i <? n - 1)
          && isdigit_at words (i - 1) && isdigit_at words (i + 1)
          && (i <? n - 2) && mem (word_at words (i + 2)) MERIDIEMS
  then Some [i]
  else None.

(** The loop: the state is [(filtered, skip_indices)], [filtered] reversed. *)
Definition filter_loop (words : list text) : list text * list nat :=
  fold_left
    (fun '(filtered, skip_indices) '(i, w) =>
       match filter_rule words i w with
       | Some added => (filtered, added ++ skip_indices)
       | None =>
           if memi i skip_indices then (filtered, skip_indices)
           else (w :: filtered, skip_indices)
       end)
    (enumerate words) ([], []).

Definition filter_words_fallback (txt : text) : text :=
  let words := split txt in
  strip (join space (rev (fst (filter_loop words)))).

Inductive Intent : Type := event | reminder.

Record ParsedEvent : Type := mkEvent {
  title : text;
  datetime_ : option text;
  end_time : option text;
  type_ : Intent
}.

Definition digit_char (n : Z) : char := Latin (ascii_of_nat (48 + Z.to_nat (n mod 10)%Z)).

(** The last [w] decimal digits of [n], as [%0wd] prints a number of at most
    [w] digits. *)
Fixpoint zpad (w : nat) (n : Z) : text :=
  match w with
  | O => []
  | S w' => zpad w' (n / 10)%Z ++ [digit_char n]
  end.

(** [d.isoformat()]. *)
Definition isoformat (d : datetime) : text :=
  zpad 4 (year d) ++ py "-" ++ zpad 2 (month d) ++ py "-" ++ zpad 2 (day d)
  ++ py "T" ++ zpad 2 (hour d) ++ py ":" ++ zpad 2 (minute d) ++ py ":"
  ++ zpad 2 (second d)
  ++ (if (microsecond d =? 0)%Z then [] else py "." ++ zpad 6 (microsecond d)).

Definition blank (txt : text) : bool :=
  match txt with
  | [] => true
  | _ => match strip txt with [] => true | _ => false end
  end.

(** *** The parser and its collaborators *)

Section Parser.

(** [self.nlp]: the tokenizer and dependency parser. *)
Variable nlp : text -> Doc.
(** [dateparser.parse(text, settings={'RELATIVE_BASE': base})]. *)
Variable dateparser_parse : text -> datetime -> option datetime.
(** [self.cal.parseDT(text, sourceTime=base)]: the date and the status. *)
Variable cal_parseDT : text -> datetime -> datetime * Z.
(** [clock k] is what the call number [k] of [datetime.now()] returns
    during one call of [parse]. *)
Variable clock : nat -> datetime.

Definition detect_intent (txt : text) : Intent :=
  let normalized := normalize_text txt in
  if startswith normalized (py "remind me") then reminder else event.

Definition extract_datetime (now : datetime) (txt : text) : result (option datetime) :=
  let base_date := now in
  match dateparser_parse txt base_date with
  | Some parsed => Ok (Some parsed)
  | None =>
      let '(res, status) := cal_parseDT txt base_date in
      if (status >? 0)%Z then Ok (Some res)
      else
        relative_dt <- extract_relative_time now txt (Some base_date) ;;
        match relative_dt with
        | Some d => Ok (Some d)
        | None => Ok None
        end
  end.

Definition extract_time (now : datetime) (txt : text) (date_obj : option datetime)
    : result (option TimeOfDay) :=
  let date_obj := default_now now date_obj in
  time_range <- extract_time_range now txt (Some date_obj) ;;
  match time_range with
  | Some r => Ok (Some (fst r))
  | None =>
      let has_time := negb (hour date_obj =? 0)%Z || negb (minute date_obj =? 0)%Z in
      explicit_time <- extract_explicit_time now txt (Some date_obj) ;;
      match explicit_time with
      | Some t => Ok (Some t)
      | None => if has_time then Ok None else Ok None
      end
  end.

(** The three strategies of [extract_title], in their order. *)
Definition title_from_phrase (txt : text) : option text :=
  let doc := nlp txt in
  build_title_from_tokens doc (identify_tokens_to_skip doc) (extract_infinitive_phrases doc).

Definition title_from_tokens (txt : text) : text :=
  let doc := nlp txt in
  build_title_fallback doc (identify_tokens_to_skip doc).

Definition extract_title (txt : text) (date_obj : option datetime) : text :=
  let doc := nlp txt in
  let tokens_to_skip := identify_tokens_to_skip doc in
  let infinitive_tokens := extract_infinitive_phrases doc in
  match build_title_from_tokens doc tokens_to_skip infinitive_tokens with
  | Some t => t
  | None =>
      match build_title_fallback doc tokens_to_skip with
      | c :: t => c :: t
      | [] =>
          match filter_words_fallback txt with
          | c :: t => c :: t
          | [] => strip txt
          end
      end
  end.

Definition parse (txt : text) : result ParsedEvent :=
  if blank txt then Ok (mkEvent [] None None event)
  else
    time_range <- extract_time_range (clock 0) txt None ;;
    let normalized := normalize_text txt in
    let intent_type := detect_intent normalized in
    date_obj <- extract_datetime (clock 1) normalized ;;
    match time_range with
    | Some (start_time, end_time) =>
        start_datetime <-
          merge_datetime_time (match date_obj with Some d => d | None => clock 2 end)
                              (Some start_time) ;;
        end_datetime <-
          merge_datetime_time (match date_obj with Some d => d | None => clock 3 end)
                              (Some end_time) ;;
        let title := extract_title normalized (Some start_datetime) in
        Ok (mkEvent title (Some (isoformat start_datetime))
                    (Some (isoformat end_datetime)) intent_type)
    | None =>
        time_tuple <- extract_time (clock 2) txt date_obj ;;
        date_obj <-
          match date_obj, time_tuple with
          | Some d, Some t => d' <- merge_datetime_time d (Some t) ;; Ok (Some d')
          | None, Some t => d' <- merge_datetime_time (clock 3) (Some t) ;; Ok (Some d')
          | _, None => Ok date_obj
          end ;;
        let title := extract_title normalized date_obj in
        Ok (mkEvent title (option_map isoformat date_obj) None intent_type)
    end.

End Parser.

(** A tokenizer that cuts at white space and annotates nothing, a date
    resolver that recognises nothing, and a clock that stands still: the
    collaborators of the examples. *)
Definition plain_token (i : nat) (w : text) : Token :=
  mkToken w [] [] [] (isdigit w) (forallb isalpha_char w) i.

Definition plain_nlp (txt : text) : Doc :=
  map (fun '(i, w) => plain_token i w) (enumerate (split txt)).

Definition no_dateparser (txt : text) (base : datetime) : option datetime := None.
Definition no_calendar (txt : text) (base : datetime) : datetime * Z := (base, 0%Z).
Definition fixed_clock (k : nat) : datetime := mkdt 2024 2 28 10 30 5 7.

Definition parse0 : text -> result ParsedEvent :=
  parse plain_nlp no_dateparser no_calendar fixed_clock.

(** * The vocabulary of the properties *)

Unset Implicit Arguments.

(** Every character, for the facts about characters that are checked one by
    one. *)
Definition all_ascii : list ascii := map ascii_of_nat (List.seq 0 256).

(** Every character below 256. *)
Definition all_latin : list char := map Latin all_ascii.

(** [ok] holds of the body of every group [n] of the pattern. *)
Fixpoint grp_shape (ok : regex -> bool) (n : nat) (r : regex) : bool :=
  match r with
  | Grp k a => (if Nat.eqb k n then ok a else true) && grp_shape ok n a
  | Seq a b | Alt a b => grp_shape ok n a && grp_shape ok n b
  | Opt a => grp_shape ok n a
  | _ => true
  end.

(** Every match of the pattern sets the group [n]. *)
Fixpoint defines (n : nat) (r : regex) : bool :=
  match r with
  | Grp k a => Nat.eqb k n || defines n a
  | Seq a b => defines n a || defines n b
  | Alt a b => defines n a && defines n b
  | _ => false
  end.

(** [Q] holds of what the group [n] holds, when it is set. *)
Definition caps_inv (Q : text -> Prop) (n : nat) (g : list (nat * text)) : Prop :=
  forall v, lookup n g = Some v -> Q v.

(** The body of a group is [\d{lo,hi}] with [1 <= lo] and [hi <= 2]. *)
Definition is_digits2 (a : regex) : bool :=
  match a with
  | Rep Digit (S _) (Some h) => Nat.leb h 2
  | _ => false
  end.

(** A text of one or two decimal digits. *)
Definition digits2 (v : text) : Prop :=
  v <> [] /\ forallb isdecimal v = true /\ length v <= 2.

(** The group [n] of the pattern is set by every match, to one or two
    digits. *)
Definition digit_group (n : nat) (r : regex) : bool :=
  grp_shape is_digits2 n r && defines n r.

(** The groups the branch of each pattern type reads are groups of one or
    two digits, set by every match. *)
Definition time_pattern_wf (pk : regex * time_kind) : bool :=
  match snd pk with
  | T12h | Tat_12h => digit_group 1 (fst pk)
  | T24h => digit_group 1 (fst pk) && digit_group 2 (fst pk)
  | _ => true
  end.

(** The same for the range patterns, with the group of the period. *)
Definition range_pattern_wf (pk : regex * range_kind) : bool :=
  match snd pk with
  | Rnow_12h | Rnow_12h_to => digit_group 1 (fst pk) && defines 2 (fst pk)
  | R12h | R12h_to =>
      digit_group 1 (fst pk) && digit_group 2 (fst pk) && defines 3 (fst pk)
  | R24h =>
      digit_group 1 (fst pk) && digit_group 2 (fst pk)
      && digit_group 3 (fst pk) && digit_group 4 (fst pk)
  end.

(** What two digits and a meridiem can give: an hour up to 111 and a minute
    up to 99. *)
Definition time_bound (t : TimeOfDay) : Prop :=
  (0 <= fst t <= 111 /\ 0 <= snd t <= 99)%Z.

(** The start of a range is the time of the base or a bounded time; its
    end is bounded. *)
Definition range_bound (base : datetime) (r : TimeRange) : Prop :=
  (fst r = (hour base, minute base) \/ time_bound (fst r)) /\ time_bound (snd r).

(** Whether a range is found depends on the text alone. *)
Definition range_found (txt : text) : bool :=
  existsb (fun pk : regex * range_kind => found (search true (fst pk) (lower txt)))
          TIME_RANGE_PATTERNS.

(** The kind of character every match of the pattern begins with, when the
    pattern tells. *)
Fixpoint starts (ic : bool) (r : regex) : option (char -> bool) :=
  match r with
  | Chr c => Some (fun x => chr_eqb ic x c)
  | Rep k (S _) _ => Some (in_cls k)
  | Seq a _ => starts ic a
  | Grp _ a => starts ic a
  | Alt a b =>
      match starts ic a, starts ic b with
      | Some f, Some g => Some (fun x => f x || g x)
      | _, _ => None
      end
  | _ => None
  end.

(** No range pattern can match at a white space character. *)
Definition starts_past_space (r : regex) : bool :=
  match starts true r with
  | Some f => forallb (fun x => negb (isspace x) || negb (f x)) all_latin
  | None => false
  end.

(** The texts of one or two decimal digits. *)
Definition digit_chars : list char :=
  map (fun n => Latin (ascii_of_nat (48 + n))) (List.seq 0 10).

Definition digit_texts : list text :=
  map (fun c => [c]) digit_chars
  ++ flat_map (fun c => map (fun d => [c; d]) digit_chars) digit_chars.

Definition time_eqb (a b : TimeOfDay) : bool :=
  (fst a =? fst b)%Z && (snd a =? snd b)%Z.

(** The range read from ["a-bp"], checked against the hours [a] and [b]
    shifted by the one period [p]. *)
Definition shared_period_check (base : datetime) (a b p : text) : bool :=
  match range_loop TIME_RANGE_PATTERNS (lower (a ++ py "-" ++ b ++ p)) base,
        int a, int b with
  | Ok (Some (start_time, end_time)), Ok x, Ok y =>
      time_eqb start_time (to_period (Some p) x, 0%Z)
      && time_eqb end_time (to_period (Some p) y, 0%Z)
  | _, _, _ => false
  end.

(** The two periods. *)
Definition am : text := py "am".
Definition pm : text := py "pm".

(** Ten thirty in the morning: a date that carries a time. *)
Definition half_past_ten : datetime := mkdt 2024 2 28 10 30 0 0.

(** A time of the clock: what [datetime.replace] accepts. *)
Definition clock_time (t : TimeOfDay) : Prop :=
  (0 <= fst t <= 23 /\ 0 <= snd t <= 59)%Z.

(** No character of the text is an upper-case letter. *)
Definition no_upper (s : text) : Prop := Forall (fun c => isupper c = false) s.

(** [str.lower] changes no character of the text. *)
Definition lowered (s : text) : Prop := Forall (fun c => lower_char c = c) s.

(** Every character of the text is below 256. *)
Definition is_latin (c : char) : bool := class (fun _ => true) false c.
Definition latin (s : text) : Prop := Forall (fun c => is_latin c = true) s.

(** The pattern [\bw\b]. *)
Definition word_re (w : text) : regex := Seq WordB (Seq (lit_go w) WordB).

(** A text that is one run of word characters. *)
Definition wordy (u : text) : Prop := u <> [] /\ forallb isword u = true.

(** The word characters a text starts with, and the rest of it. *)
Fixpoint word_prefix (s : text) : text :=
  match s with
  | x :: s' => if isword x then x :: word_prefix s' else []
  | [] => []
  end.

Fixpoint word_rest (s : text) : text :=
  match s with
  | x :: s' => if isword x then word_rest s' else s
  | [] => []
  end.

(** The rewriting of the runs of word characters: [acc] is the run being
    read, reversed, and [f] rewrites a whole run. *)
Definition flush (f : text -> text) (acc : text) : text :=
  match acc with
  | [] => []
  | _ => f (rev acc)
  end.

Fixpoint wmap (f : text -> text) (acc s : text) : text :=
  match s with
  | [] => flush f acc
  | x :: s' =>
      if isword x then wmap f (x :: acc) s'
      else flush f acc ++ x :: wmap f [] s'
  end.

(** What [\bw\b] replaced by [repl] does to a run. *)
Definition swap (w repl u : text) : text := if text_eqb u w then repl else u.

(** What [sub] does from a position on: inside a run it copies to the end of
    the run, elsewhere it rewrites the runs. *)
Definition sub_state (w repl s l : text) : Prop :=
  sub_go (word_re w) repl l s 0
  = if isword_at l then word_prefix s ++ wmap (swap w repl) [] (word_rest s)
    else wmap (swap w repl) [] s.

(** [f] rewrites runs into runs. *)
Definition keeps_words (f : text -> text) : Prop := forall u, wordy u -> wordy (f u).

(** The text starts with white space. *)
Definition isspace_at (s : text) : bool :=
  match s with c :: _ => isspace c | [] => false end.

(** No white space at either end. *)
Definition trimmed (s : text) : Prop :=
  isspace_at s = false /\ isspace_at (rev s) = false.

(** What the four substitutions do to one run of word characters. *)
Definition expand (u : text) : text :=
  swap (py "tn") (py "tonight")
    (swap (py "tdy") (py "today")
       (swap (py "yest") (py "yesterday")
          (swap (py "tmr") (py "tomorrow") u))).

(** The text has no [@] in it. *)
Definition no_at (s : text) : Prop := Forall (fun c => char_eqb c (Latin "@") = false) s.

(** ** The vocabulary of the further properties *)

(** The body of a group is [\d+] or [\d{lo,hi}] with [1 <= lo]. *)
Definition is_digits (a : regex) : bool :=
  match a with
  | Rep Digit (S _) _ => true
  | _ => false
  end.

(** A text of decimal digits, at least one. *)
Definition digits (v : text) : Prop :=
  v <> [] /\ forallb isdecimal v = true.

(** The group [n] of the pattern is set by every match, to digits. *)
Definition digits_group (n : nat) (r : regex) : bool :=
  grp_shape is_digits n r && defines n r.

(** One of the patterns finds in the text a number of more digits than
    [int] converts. *)
Definition long_number (patterns : list (regex * unit_kind)) (s : text) : Prop :=
  exists r u m v,
    In (r, u) patterns /\ search false r s = Some m /\ group m 1 = Some v
    /\ digits v /\ MAX_STR_DIGITS < length v.

(** A text with a number of 4301 digits. *)
Definition long_number_text : text :=
  py "in " ++ repeat (Latin "0") 4301 ++ py " hours".

Definition cls_eqb (a b : cls) : bool :=
  match a, b with
  | Digit, Digit | Space, Space => true
  | _, _ => false
  end.

(** Every match of the pattern reads a character of the class [k]. *)
Fixpoint must (k : cls) (r : regex) : bool :=
  match r with
  | Rep k' (S _) _ => cls_eqb k' k
  | Seq a b => must k a || must k b
  | Alt a b => must k a && must k b
  | Grp _ a => must k a
  | _ => false
  end.

(** The three times of day the key words stand for. *)
Definition key_word_time (t : TimeOfDay) : Prop :=
  t = (12, 0)%Z \/ t = (0, 0)%Z \/ t = (20, 0)%Z.

(** The hour and minute of a date, as a time of day. *)
Definition time_of (d : datetime) : TimeOfDay := (hour d, minute d).

(** [P] holds of every run of word characters of the text; [acc] is the run
    being read, reversed. *)
Definition flush_all (P : text -> bool) (acc : text) : bool :=
  match acc with
  | [] => true
  | _ => P (rev acc)
  end.

Fixpoint wall (P : text -> bool) (acc s : text) : bool :=
  match s with
  | [] => flush_all P acc
  | x :: s' =>
      if isword x then wall P (x :: acc) s'
      else flush_all P acc && wall P [] s'
  end.

(** The run is not the word [w]. *)
Definition is_not (w u : text) : bool := negb (text_eqb u w).

(** The words [normalize_text] replaces. *)
Definition abbreviation_words : list text := map py ["tmr"; "yest"; "tdy"; "tn"]%string.

(** The date of [isoformat]: [YYYY-MM-DD]. *)
Definition date_of (d : datetime) : text :=
  zpad 4 (year d) ++ py "-" ++ zpad 2 (month d) ++ py "-" ++ zpad 2 (day d).

(** A clock that passes midnight between its third and fourth reading. *)
Definition midnight_clock (k : nat) : datetime :=
  if k <? 3 then mkdt 2024 2 28 23 59 59 999999 else mkdt 2024 2 29 0 0 0 0.

(** The token is the [to] of an infinitive: its label is [mark], its text
    is [to] in any case, and its head is a verb of the document. *)
Definition marks_infinitive (doc : Doc) (t : Token) : bool :=
  text_eqb (dep_ t) (py "mark") && text_eqb (lower (tok_text t)) (py "to")
  && match nth_error doc (head t) with
     | Some v => text_eqb (pos_ v) (py "VERB")
     | None => false
     end.

(** A word as [split] cuts it: not empty, without white space. *)
Definition spaceless (w : text) : Prop :=
  w <> [] /\ forallb (fun c => negb (isspace c)) w = true.

(** One turn of the loop of [_extract_infinitive_phrases]. *)
Definition infinitive_turn (doc : Doc) (acc : list nat) (token : Token) : list nat :=
  if negb (text_eqb (dep_ token) (py "mark"))
     || negb (text_eqb (lower (tok_text token)) (py "to"))
  then acc
  else
    match nth_error doc (head token) with
    | None => acc
    | Some infinitive_verb =>
        if negb (text_eqb (pos_ infinitive_verb) (py "VERB")) then acc
        else
          fold_left
            (fun acc '(j, child) =>
               if dep_in child ["dobj"; "pobj"; "attr"; "acomp"; "nsubj"; "nsubjpass"]%string
               then add_phrase_children doc j (j :: acc)
               else if text_eqb (dep_ child) (py "prep")
               then fold_left
                      (fun acc '(k, prep_child) =>
                         if text_eqb (dep_ prep_child) (py "pobj") then k :: acc else acc)
                      (children doc j) (j :: acc)
               else acc)
            (children doc (head token)) (head token :: acc)
    end.

(** The tokens of [remind me to call mom], labelled so that [to] marks the
    infinitive of [call], whose object is [mom]. *)
Definition remind_doc : Doc :=
  [ mkToken (py "remind") (py "VERB") (py "ROOT") [] false true 0;
    mkToken (py "me") (py "PRON") (py "dobj") [] false true 0;
    mkToken (py "to") (py "PART") (py "mark") [] false true 3;
    mkToken (py "call") (py "VERB") (py "xcomp") [] false true 0;
    mkToken (py "mom") (py "NOUN") (py "dobj") [] false true 3 ].

(** The seconds from the start of the day number 0 to the date and time. *)
Definition seconds_of (d : datetime) : Z :=
  (toordinal d * 86400 + hour d * 3600 + minute d * 60 + second d)%Z.

(** [fromordinal] gives a date whose day number is [n]. *)
Definition ordinal_check (n : Z) : bool :=
  let '(y, m, d) := fromordinal n in
  (toordinal (mkdt y m d 0 0 0 0) =? n)%Z.

(** [f] holds of the [fuel] numbers from [n] on. *)
Fixpoint all_from (f : Z -> bool) (fuel : nat) (n : Z) : bool :=
  match fuel with
  | O => true
  | S k => if f n then all_from f k (n + 1)%Z else false
  end.

(** The year [fromordinal] takes for a leap year, and for any other. *)
Definition leap_proxy (leap : bool) : Z := if leap then 4%Z else 1%Z.

(** The end of [fromordinal]: the month and the day of the day number [n]
    of a year, counted from 0. *)
Definition month_day (leap : bool) (n : Z) : Z * Z :=
  let m := Z.shiftr (n + 50) 5 in
  let preceding := days_before_month (leap_proxy leap) m in
  if (preceding >? n)%Z
  then ((m - 1)%Z, (n - (preceding - days_in_month (leap_proxy leap) (m - 1)) + 1)%Z)
  else (m, (n - preceding + 1)%Z).

(** The month and the day of [month_day] are the day number [n]. *)
Definition month_day_check (leap : bool) (n : Z) : bool :=
  let '(m, d) := month_day leap n in
  (days_before_month (leap_proxy leap) m + d =? n + 1)%Z.

(** * Properties *)

(** ** Characters, by enumeration *)

Lemma all_ascii_in (c : ascii) : In c all_ascii.
Proof.
  unfold all_ascii. rewrite <- (ascii_nat_embedding c).
  apply in_map, in_seq. pose proof (nat_ascii_bounded c). lia.
Qed.

Lemma all_latin_in (a : ascii) : In (Latin a) all_latin.
Proof. apply in_map, all_ascii_in. Qed.

(** What holds of every character below 256 and of every capital above
    them holds of every character. *)
Lemma char_forall (P : char -> bool) :
  forallb P all_latin = true -> (forall cp, P (Capital cp) = true) ->
  forall c, P c = true.
Proof.
  intros H Hw [a|cp]; [|apply Hw].
  rewrite forallb_forall in H. apply H, all_latin_in.
Qed.

Ltac by_chars P :=
  let H := fresh in
  assert (H : forallb P all_latin = true) by (vm_compute; reflexivity);
  let Hw := fresh in
  assert (Hw : forall cp, P (Capital cp) = true) by (intro; reflexivity);
  let c := fresh "c" in
  intro c; generalize (char_forall P H Hw c); cbv beta.

Lemma char_eqb_spec (x y : char) : reflect (x = y) (char_eqb x y).
Proof.
  destruct x as [a|m], y as [b|n]; simpl; try (constructor; discriminate).
  - destruct (Ascii.eqb_spec a b) as [->|H]; constructor; congruence.
  - destruct (N.eqb_spec m n) as [->|H]; constructor; congruence.
Qed.

Lemma char_eqb_eq (x y : char) : char_eqb x y = true <-> x = y.
Proof. destruct (char_eqb_spec x y); split; congruence. Qed.

(** Of the white space characters, all below 256. *)
Lemma space_forall (P : char -> bool) :
  forallb (fun x => negb (isspace x) || P x) all_latin = true ->
  forall c, isspace c = true -> P c = true.
Proof.
  intros H [a|cp] Hs; [|discriminate].
  rewrite forallb_forall in H. specialize (H _ (all_latin_in a)).
  cbv beta in H. now rewrite Hs in H.
Qed.

Lemma isspace_lower : forall c, isspace (lower_char c) = isspace c.
Proof.
  by_chars (fun c => Bool.eqb (isspace (lower_char c)) (isspace c)).
  apply eqb_prop.
Qed.

(** [str.lower] changes no character it has made. *)
Lemma lower_char_idem : forall c, lower_char (lower_char c) = lower_char c.
Proof.
  assert (H : forallb (fun c => char_eqb (lower_char (lower_char c)) (lower_char c))
                      all_latin = true)
    by (vm_compute; reflexivity).
  intros [a|cp]; [|reflexivity].
  rewrite forallb_forall in H. apply char_eqb_eq, (H _ (all_latin_in a)).
Qed.

(** Below 256, [str.lower] leaves no upper-case letter. *)
Lemma isupper_lower_latin : forall a, isupper (lower_char (Latin a)) = false.
Proof.
  assert (H : forallb (fun c => negb (isupper (lower_char c))) all_latin = true)
    by (vm_compute; reflexivity).
  intros a. rewrite forallb_forall in H.
  apply negb_true_iff, (H _ (all_latin_in a)).
Qed.

Lemma lower_char_fix : forall c, isupper c = false -> lower_char c = c.
Proof. intros [a|cp] H; [|reflexivity]. unfold lower_char. now rewrite H. Qed.

Lemma space_not_word : forall c, isspace c = true -> isword c = false.
Proof.
  by_chars (fun c => negb (isspace c) || negb (isword c)).
  intros Hc Hs. rewrite Hs in Hc. now apply negb_true_iff.
Qed.

Lemma space_not_decimal : forall c, isspace c = true -> isdecimal c = false.
Proof.
  by_chars (fun c => negb (isspace c) || negb (isdecimal c)).
  intros Hc Hs. rewrite Hs in Hc. now apply negb_true_iff.
Qed.

Lemma text_eqb_eq (a b : text) : text_eqb a b = true <-> a = b.
Proof.
  unfold text_eqb. destruct (list_eq_dec char_dec a b); split; congruence.
Qed.

Lemma text_eqb_refl (a : text) : text_eqb a a = true.
Proof. now apply text_eqb_eq. Qed.

(** ** The matcher *)

Lemma rep_spec (c : char -> bool) (g : list (nat * text)) :
  forall r lo hi l q,
    In q (rep c lo hi l r g) ->
    exists w, before q = rev w ++ l /\ r = w ++ after q /\ caps q = g
              /\ forallb c w = true /\ lo <= length w
              /\ (forall h, hi = Some h -> length w <= h).
Proof.
  induction r as [|x r IH]; intros lo hi l q Hq; simpl in Hq.
  - destruct (Nat.eqb_spec lo 0) as [->|]; [|contradiction].
    destruct Hq as [<-|[]]. exists []. simpl. repeat split; auto. intros; lia.
  - assert (Hstop : In q (if Nat.eqb lo 0 then [mkpos l (x :: r) g] else []) ->
                    exists w, before q = rev w ++ l /\ x :: r = w ++ after q /\ caps q = g
                              /\ forallb c w = true /\ lo <= length w
                              /\ (forall h, hi = Some h -> length w <= h)).
    { intros H. destruct (Nat.eqb_spec lo 0) as [->|]; [|contradiction].
      destruct H as [<-|[]]. exists []. simpl. repeat split; auto. intros; lia. }
    destruct (c x && more hi) eqn:E; [|auto].
    apply in_app_or in Hq. destruct Hq as [Hq|Hq]; [|auto].
    apply andb_true_iff in E. destruct E as [Ec Em].
    destruct (IH _ _ _ _ Hq) as (w & Hb & Hr & Hg & Hall & Hlo & Hhi).
    exists (x :: w). simpl. rewrite <- app_assoc. simpl.
    repeat split; auto.
    + now rewrite Hr.
    + now rewrite Ec.
    + lia.
    + intros h ->. destruct h as [|h]; [discriminate|].
      specialize (Hhi h eq_refl). lia.
Qed.

(** A match reads a piece [w] of the subject, from its position on. *)
Lemma matches_span (ic : bool) :
  forall r p q, In q (matches ic r p) ->
    exists w, before q = rev w ++ before p /\ after p = w ++ after q.
Proof.
  induction r as [|c|a IHa b IHb|a IHa b IHb|a IHa|k lo hi|n a IHa|];
    intros p q Hq; simpl in Hq.
  - destruct Hq as [<-|[]]. now exists [].
  - destruct (after p) as [|x s] eqn:E; [contradiction|].
    destruct (chr_eqb ic x c); [|contradiction].
    destruct Hq as [<-|[]]. now exists [x].
  - apply in_flat_map in Hq. destruct Hq as (m & Hm & Hq).
    destruct (IHa _ _ Hm) as (w1 & Hb1 & Ha1).
    destruct (IHb _ _ Hq) as (w2 & Hb2 & Ha2).
    exists (w1 ++ w2). rewrite Hb2, Hb1, Ha1, Ha2, rev_app_distr, !app_assoc. auto.
  - apply in_app_or in Hq. destruct Hq; auto.
  - apply in_app_or in Hq. destruct Hq as [Hq|[<-|[]]]; auto. now exists [].
  - destruct (rep_spec _ _ _ _ _ _ _ Hq) as (w & Hb & Hr & _). now exists w.
  - apply in_map_iff in Hq. destruct Hq as (m & <- & Hm). simpl. auto.
  - destruct (boundary p); [|contradiction]. destruct Hq as [<-|[]]. now exists [].
Qed.

Lemma consumed_span (p q : pos) (w : text) :
  before q = rev w ++ before p -> consumed p q = w.
Proof.
  intros H. unfold consumed. rewrite H, length_app, Nat.add_sub.
  rewrite firstn_app, firstn_all, Nat.sub_diag. simpl.
  now rewrite app_nil_r, rev_involutive.
Qed.

(** *** What a group holds *)

Section Groups.

Variable ic : bool.
Variable n : nat.

Lemma matches_caps_inv (Q : text -> Prop) (ok : regex -> bool) :
  (forall a p q, ok a = true -> In q (matches ic a p) -> Q (consumed p q)) ->
  forall r p q,
    grp_shape ok n r = true -> In q (matches ic r p) ->
    caps_inv Q n (caps p) -> caps_inv Q n (caps q).
Proof.
  intros Hok.
  induction r as [|c|a IHa b IHb|a IHa b IHb|a IHa|k lo hi|k a IHa|];
    intros p q Hs Hq Hp; simpl in Hq, Hs.
  - now destruct Hq as [<-|[]].
  - destruct (after p) as [|x s]; [contradiction|].
    destruct (chr_eqb ic x c); [|contradiction]. now destruct Hq as [<-|[]].
  - apply andb_true_iff in Hs. destruct Hs as [Hsa Hsb].
    apply in_flat_map in Hq. destruct Hq as (m & Hm & Hq). eauto.
  - apply andb_true_iff in Hs. destruct Hs as [Hsa Hsb].
    apply in_app_or in Hq. destruct Hq; eauto.
  - apply in_app_or in Hq. destruct Hq as [Hq|[<-|[]]]; eauto.
  - destruct (rep_spec _ _ _ _ _ _ _ Hq) as (w & _ & _ & Hg & _). now rewrite Hg.
  - apply andb_true_iff in Hs. destruct Hs as [Hk Hsa].
    apply in_map_iff in Hq. destruct Hq as (m & <- & Hm).
    intros v. simpl. destruct (Nat.eqb k n).
    + intros [= <-]. eauto.
    + apply (IHa _ _ Hsa Hm Hp).
  - destruct (boundary p); [|contradiction]. now destruct Hq as [<-|[]].
Qed.

Lemma matches_mono :
  forall r p q, In q (matches ic r p) ->
    lookup n (caps p) <> None -> lookup n (caps q) <> None.
Proof.
  induction r as [|c|a IHa b IHb|a IHa b IHb|a IHa|k lo hi|k a IHa|];
    intros p q Hq Hp; simpl in Hq.
  - now destruct Hq as [<-|[]].
  - destruct (after p) as [|x s]; [contradiction|].
    destruct (chr_eqb ic x c); [|contradiction]. now destruct Hq as [<-|[]].
  - apply in_flat_map in Hq. destruct Hq as (m & Hm & Hq). eauto.
  - apply in_app_or in Hq. destruct Hq; eauto.
  - apply in_app_or in Hq. destruct Hq as [Hq|[<-|[]]]; eauto.
  - destruct (rep_spec _ _ _ _ _ _ _ Hq) as (w & _ & _ & Hg & _). now rewrite Hg.
  - apply in_map_iff in Hq. destruct Hq as (m & <- & Hm). simpl.
    destruct (Nat.eqb k n); [discriminate|]. eauto.
  - destruct (boundary p); [|contradiction]. now destruct Hq as [<-|[]].
Qed.

Lemma matches_defines :
  forall r p q, defines n r = true -> In q (matches ic r p) ->
    lookup n (caps q) <> None.
Proof.
  induction r as [|c|a IHa b IHb|a IHa b IHb|a IHa|k lo hi|k a IHa|];
    intros p q Hd Hq; simpl in Hd, Hq; try discriminate.
  - apply in_flat_map in Hq. destruct Hq as (m & Hm & Hq).
    apply orb_true_iff in Hd. destruct Hd as [Hd|Hd]; [|eauto].
    eapply matches_mono; eauto.
  - apply andb_true_iff in Hd. destruct Hd as [Hda Hdb].
    apply in_app_or in Hq. destruct Hq; eauto.
  - apply in_map_iff in Hq. destruct Hq as (m & <- & Hm). simpl.
    destruct (Nat.eqb k n) eqn:E; [discriminate|]. simpl in Hd. eauto.
Qed.

End Groups.

(** What [re.search] returns is a match of the pattern somewhere. *)
Lemma search_from_some (ic : bool) (r : regex) :
  forall s l m, search_from ic r l s = Some m ->
    exists p q, caps p = [] /\ In q (matches ic r p)
                /\ groups m = caps q /\ group0 m = consumed p q.
Proof.
  assert (Hat : forall l s m,
             match match_at ic r l s with
             | Some q => Some (mkMatch (consumed (mkpos l s []) q) (caps q))
             | None => None
             end = Some m ->
             exists p q, caps p = [] /\ In q (matches ic r p)
                         /\ groups m = caps q /\ group0 m = consumed p q).
  { intros l s m. unfold match_at.
    destruct (matches ic r (mkpos l s [])) as [|q qs] eqn:E; [discriminate|].
    intros [= <-]. exists (mkpos l s []), q. simpl. rewrite E. simpl. auto. }
  induction s as [|x s IH]; intros l m H; simpl in H.
  - apply (Hat l [] m). destruct (match_at ic r l []); [exact H|discriminate].
  - destruct (match_at ic r l (x :: s)) eqn:E.
    + apply (Hat l (x :: s) m). now rewrite E.
    + eauto.
Qed.

(** *** Groups of digits *)

Lemma is_digits2_body (ic : bool) (a : regex) (p q : pos) :
  is_digits2 a = true -> In q (matches ic a p) -> digits2 (consumed p q).
Proof.
  destruct a as [| | | | |k lo hi| |]; try discriminate.
  destruct k; try discriminate. destruct lo as [|lo]; try discriminate.
  destruct hi as [h|]; try discriminate. simpl.
  intros Hh Hq. apply Nat.leb_le in Hh.
  destruct (rep_spec _ _ _ _ _ _ _ Hq) as (w & Hb & _ & _ & Hall & Hlo & Hhi).
  erewrite consumed_span; [|exact Hb].
  specialize (Hhi h eq_refl). repeat split; auto; try lia.
  intros ->. simpl in Hlo. lia.
Qed.

Lemma search_group (ic : bool) (r : regex) (s : text) (m : Match) (n : nat) :
  search ic r s = Some m -> defines n r = true ->
  exists v, group m n = Some v.
Proof.
  intros Hm Hd. apply search_from_some in Hm.
  destruct Hm as (p & q & _ & Hq & Hg & _).
  pose proof (@matches_defines ic n r p q Hd Hq) as H.
  unfold group. rewrite Hg. destruct (lookup n (caps q)); [eauto|congruence].
Qed.

Lemma search_group_digits (ic : bool) (r : regex) (s : text) (m : Match) (n : nat) :
  search ic r s = Some m -> digit_group n r = true ->
  exists v, group m n = Some v /\ digits2 v.
Proof.
  intros Hm Hd. apply andb_true_iff in Hd. destruct Hd as [Hs Hd].
  destruct (search_group _ _ _ _ n Hm Hd) as (v & Hv). exists v. split; [exact Hv|].
  apply search_from_some in Hm. destruct Hm as (p & q & Hp & Hq & Hg & _).
  unfold group in Hv. rewrite Hg in Hv.
  refine (@matches_caps_inv ic n digits2 is_digits2 _ r p q Hs Hq _ v Hv).
  - intros a p' q'. apply is_digits2_body.
  - intros v'. rewrite Hp. discriminate.
Qed.

Lemma digit_val_range : forall c, isdecimal c = true -> (0 <= digit_val c <= 9)%Z.
Proof.
  by_chars (fun c => negb (isdecimal c) || (digit_val c <=? 9)%Z).
  intros Hc Hd. rewrite Hd in Hc. simpl in Hc. apply Z.leb_le in Hc.
  destruct c; unfold digit_val in *; lia.
Qed.

(** One or two digits are within the limit of [int]. *)
Lemma few_digits (n : nat) : n <= 2 -> Nat.leb n MAX_STR_DIGITS = true.
Proof.
  intros H. apply Nat.leb_le. apply (Nat.le_trans _ 2); [exact H|].
  apply Nat.leb_le. vm_compute. reflexivity.
Qed.

Lemma int_digits2 (v : text) :
  digits2 v -> exists z, int v = Ok z /\ (0 <= z <= 99)%Z.
Proof.
  intros (Hne & Hall & Hlen).
  destruct v as [|c [|d [|e v]]]; [congruence| | |simpl in Hlen; lia];
    unfold int; rewrite Hall; rewrite (few_digits _ Hlen);
    cbn [fold_left]; cbn [forallb] in Hall.
  - apply andb_true_iff in Hall. destruct Hall as [Hc _].
    pose proof (digit_val_range c Hc). eexists. split; [reflexivity|]. lia.
  - apply andb_true_iff in Hall. destruct Hall as [Hc Hall].
    apply andb_true_iff in Hall. destruct Hall as [Hd _].
    pose proof (digit_val_range c Hc). pose proof (digit_val_range d Hd).
    eexists. split; [reflexivity|]. lia.
Qed.

Lemma int_group_digits (ic : bool) (r : regex) (s : text) (m : Match) (n : nat) :
  search ic r s = Some m -> digit_group n r = true ->
  exists z, int_group m n = Ok z /\ (0 <= z <= 99)%Z.
Proof.
  intros Hm Hd. destruct (search_group_digits _ _ _ _ _ Hm Hd) as (v & Hv & Hq).
  unfold int_group. rewrite Hv. now apply int_digits2.
Qed.

Lemma lower_group_defined (ic : bool) (r : regex) (s : text) (m : Match) (n : nat) :
  search ic r s = Some m -> defines n r = true ->
  exists v, lower_group m n = Ok v.
Proof.
  intros Hm Hd. destruct (search_group _ _ _ _ n Hm Hd) as (v & Hv).
  unfold lower_group. rewrite Hv. eauto.
Qed.

Lemma meridiem_in_range (matched : text) (h : Z) :
  (0 <= h <= 99 -> 0 <= meridiem_in matched h <= 111)%Z.
Proof.
  intros H. unfold meridiem_in.
  destruct (contains (py "pm") matched && negb (h =? 12)%Z); [lia|].
  destruct (contains (py "am") matched && (h =? 12)%Z); lia.
Qed.

Lemma to_period_range (period : option text) (h : Z) :
  (0 <= h <= 99 -> 0 <= to_period period h <= 111)%Z.
Proof.
  intros H. unfold to_period. destruct period as [p|]; [|lia].
  destruct (text_eqb p (py "pm")); [destruct (negb (h =? 12)%Z); lia|].
  destruct (text_eqb p (py "am")); [destruct (h =? 12)%Z; lia|lia].
Qed.

Lemma TIME_PATTERNS_wf : forallb time_pattern_wf TIME_PATTERNS = true.
Proof. vm_compute. reflexivity. Qed.

Lemma TIME_RANGE_PATTERNS_wf : forallb range_pattern_wf TIME_RANGE_PATTERNS = true.
Proof. vm_compute. reflexivity. Qed.

Lemma time_of_match_bound (r : regex) (k : time_kind) (s : text) (m : Match) :
  time_pattern_wf (r, k) = true -> search true r s = Some m ->
  forall res, time_of_match k m = Some res ->
    exists t, res = Ok t /\ time_bound t.
Proof.
  unfold time_pattern_wf, time_of_match, time_bound. simpl.
  intros Hwf Hm res Hres. destruct k; try discriminate; injection Hres as <-.
  - destruct (int_group_digits _ _ _ _ _ Hm Hwf) as (h & -> & Hh). simpl.
    eexists. split; [reflexivity|]. simpl.
    pose proof (meridiem_in_range (lower (group0 m)) h Hh). lia.
  - destruct (int_group_digits _ _ _ _ _ Hm Hwf) as (h & -> & Hh). simpl.
    eexists. split; [reflexivity|]. simpl.
    pose proof (meridiem_in_range (lower (group0 m)) h Hh). lia.
  - apply andb_true_iff in Hwf. destruct Hwf as [H1 H2].
    destruct (int_group_digits _ _ _ _ _ Hm H1) as (h & -> & Hh).
    destruct (int_group_digits _ _ _ _ _ Hm H2) as (mi & -> & Hmi). simpl.
    eexists. split; [reflexivity|]. simpl.
    pose proof (meridiem_in_range (lower (group0 m)) h Hh). lia.
  - eexists. split; [reflexivity|]. simpl. lia.
Qed.

Lemma explicit_loop_bound :
  forall patterns s, forallb time_pattern_wf patterns = true ->
    exists r, explicit_loop patterns s = Ok r
              /\ forall t, r = Some t -> time_bound t.
Proof.
  induction patterns as [|[r k] ps IH]; intros s Hwf; simpl.
  - exists None. split; [reflexivity|discriminate].
  - simpl in Hwf. apply andb_true_iff in Hwf. destruct Hwf as [Hrk Hps].
    destruct (search true r s) as [m|] eqn:Hm; [|auto].
    destruct (time_of_match k m) as [res|] eqn:Hres; [|auto].
    destruct (time_of_match_bound _ _ _ _ Hrk Hm _ Hres) as (t & -> & Ht). simpl.
    exists (Some t). split; [reflexivity|]. now intros t' [= <-].
Qed.

Lemma range_of_match_bound (r : regex) (k : range_kind) (s : text) (m : Match)
    (base : datetime) :
  range_pattern_wf (r, k) = true -> search true r s = Some m ->
  exists rg, range_of_match k m base = Ok rg /\ range_bound base rg.
Proof.
  unfold range_pattern_wf, range_bound, time_bound. cbn [fst snd].
  intros Hwf Hm.
  destruct k; cbn [range_of_match];
    repeat match type of Hwf with
           | _ && _ = true => apply andb_true_iff in Hwf; destruct Hwf as [Hwf ?]
           end;
    repeat match goal with
           | H : digit_group ?n r = true |- _ =>
               let z := fresh "z" in
               let Hz := fresh "Hz" in
               destruct (int_group_digits _ _ _ _ _ Hm H) as (z & -> & Hz); clear H
           | H : defines ?n r = true |- _ =>
               let v := fresh "v" in
               destruct (lower_group_defined _ _ _ _ _ Hm H) as (v & ->); clear H
           end;
    cbn [bind]; eexists; (split; [reflexivity|]); cbn [fst snd];
    repeat match goal with
           | |- context [to_period ?p ?h] =>
               lazymatch goal with
               | _ : (0 <= to_period p h <= 111)%Z |- _ => fail
               | Hh : (0 <= h <= 99)%Z |- _ =>
                   pose proof (to_period_range p h Hh)
               end
           end;
    (split; [first [left; reflexivity | right; lia] | lia]).
Qed.

Lemma range_loop_bound (base : datetime) :
  forall patterns s, forallb range_pattern_wf patterns = true ->
    exists r, range_loop patterns s base = Ok r
              /\ forall rg, r = Some rg -> range_bound base rg.
Proof.
  induction patterns as [|[r k] ps IH]; intros s Hwf; simpl.
  - exists None. split; [reflexivity|discriminate].
  - simpl in Hwf. apply andb_true_iff in Hwf. destruct Hwf as [Hrk Hps].
    destruct (search true r s) as [m|] eqn:Hm; [|auto].
    destruct (range_of_match_bound r k s m base Hrk Hm) as (rg & -> & Hrg).
    simpl. exists (Some rg). split; [reflexivity|]. now intros rg' [= <-].
Qed.

Lemma range_loop_found (base : datetime) (s : text) :
  forall patterns,
    existsb (fun pk : regex * range_kind => found (search true (fst pk) s)) patterns
    = match range_loop patterns s base with
      | Ok None => false
      | _ => true
      end.
Proof.
  induction patterns as [|[r k] ps IH]; simpl; [reflexivity|].
  destruct (search true r s) as [m|]; simpl; [|exact IH].
  now destruct (range_of_match k m base).
Qed.

Lemma extract_time_range_total (now : datetime) (txt : text) (base : option datetime) :
  exists r, extract_time_range now txt base = Ok r
            /\ (r <> None <-> range_found txt = true)
            /\ forall rg, r = Some rg -> range_bound (default_now now base) rg.
Proof.
  unfold extract_time_range.
  destruct (range_loop_bound (default_now now base) TIME_RANGE_PATTERNS (lower txt)
              TIME_RANGE_PATTERNS_wf) as (r & Hr & Hb).
  exists r. split; [exact Hr|]. split; [|exact Hb].
  unfold range_found.
  rewrite (range_loop_found (default_now now base) (lower txt)), Hr.
  destruct r; split; congruence.
Qed.

(** *** Patterns that begin with a character of a known kind *)

Lemma starts_sound (ic : bool) :
  forall r f p q, starts ic r = Some f -> In q (matches ic r p) ->
    exists x t, after p = x :: t /\ f x = true.
Proof.
  induction r as [|c|a IHa b IHb|a IHa b IHb|a IHa|k lo hi|n a IHa|];
    intros f p q Hs Hq; simpl in Hs, Hq; try discriminate.
  - injection Hs as <-. destruct (after p) as [|x t]; [contradiction|].
    destruct (chr_eqb ic x c) eqn:E; [|contradiction]. eauto.
  - apply in_flat_map in Hq. destruct Hq as (m & Hm & _). eauto.
  - destruct (starts ic a) as [fa|]; [|discriminate].
    destruct (starts ic b) as [fb|]; [|discriminate]. injection Hs as <-.
    apply in_app_or in Hq. destruct Hq as [Hq|Hq].
    + destruct (IHa _ _ _ eq_refl Hq) as (x & t & -> & Hx). exists x, t.
      now rewrite Hx.
    + destruct (IHb _ _ _ eq_refl Hq) as (x & t & -> & Hx). exists x, t.
      now rewrite Hx, orb_true_r.
  - destruct lo as [|lo]; [discriminate|]. injection Hs as <-.
    destruct (rep_spec _ _ _ _ _ _ _ Hq) as (w & _ & Hr & _ & Hall & Hlo & _).
    destruct w as [|x w]; [simpl in Hlo; lia|].
    simpl in Hall. apply andb_true_iff in Hall. destruct Hall as [Hx _].
    exists x, (w ++ after q). split; [exact Hr|exact Hx].
  - apply in_map_iff in Hq. destruct Hq as (m & _ & Hm). eauto.
Qed.

Lemma search_from_none (ic : bool) (r : regex) (f : char -> bool) :
  starts ic r = Some f ->
  forall s l, forallb (fun x => negb (f x)) s = true -> search_from ic r l s = None.
Proof.
  intros Hs.
  assert (Hat : forall l s, forallb (fun x => negb (f x)) s = true ->
                            match_at ic r l s = None).
  { intros l s Hall. unfold match_at.
    destruct (matches ic r (mkpos l s [])) as [|q qs] eqn:E; [reflexivity|].
    destruct (starts_sound ic r f (mkpos l s []) q Hs) as (x & t & Hx & Hf).
    { rewrite E. now left. }
    simpl in Hx. subst s. simpl in Hall. rewrite Hf in Hall. discriminate. }
  induction s as [|x s IH]; intros l Hall; simpl; rewrite (Hat _ _ Hall).
  - reflexivity.
  - simpl in Hall. apply andb_true_iff in Hall. destruct Hall. auto.
Qed.

(** *** Blank text *)

Lemma lstrip_head (s : text) :
  match lstrip s with c :: _ => isspace c = false | [] => True end.
Proof.
  induction s as [|x s IH]; simpl; [exact I|].
  destruct (isspace x) eqn:E; [exact IH|exact E].
Qed.

Lemma lstrip_nil (s : text) : lstrip s = [] <-> forallb isspace s = true.
Proof.
  induction s as [|x s IH]; simpl; [tauto|].
  destruct (isspace x); simpl; [exact IH|]. split; discriminate.
Qed.

Lemma forallb_rev {A : Type} (f : A -> bool) (l : list A) :
  forallb f (rev l) = forallb f l.
Proof.
  induction l as [|x l IH]; simpl; [reflexivity|].
  rewrite forallb_app, IH. simpl. rewrite andb_true_r. apply andb_comm.
Qed.

Lemma strip_nil (s : text) : strip s = [] <-> forallb isspace s = true.
Proof.
  unfold strip, rstrip. split.
  - intros H. apply lstrip_nil.
    assert (H1 : lstrip (rev (lstrip s)) = []).
    { destruct (lstrip (rev (lstrip s))); [reflexivity|].
      simpl in H. now apply app_eq_nil in H as [_ [=]]. }
    apply lstrip_nil in H1. rewrite forallb_rev in H1.
    pose proof (lstrip_head s) as Hh.
    destruct (lstrip s) as [|c t]; [reflexivity|].
    simpl in H1. rewrite Hh in H1. discriminate.
  - intros H. apply lstrip_nil in H. now rewrite H.
Qed.

Lemma blank_spaces (txt : text) : blank txt = true <-> forallb isspace txt = true.
Proof.
  unfold blank. destruct txt as [|c t]; [simpl; tauto|].
  rewrite <- strip_nil. destruct (strip (c :: t)); split; congruence.
Qed.

Lemma forallb_lower_space (s : text) :
  forallb isspace (lower s) = forallb isspace s.
Proof.
  induction s as [|x s IH]; simpl; [reflexivity|].
  now rewrite isspace_lower, IH.
Qed.

Lemma range_patterns_start :
  forallb (fun pk : regex * range_kind => starts_past_space (fst pk))
          TIME_RANGE_PATTERNS = true.
Proof. vm_compute. reflexivity. Qed.

Lemma blank_no_range (txt : text) : blank txt = true -> range_found txt = false.
Proof.
  intros Hb. apply blank_spaces in Hb. rewrite <- forallb_lower_space in Hb.
  unfold range_found. apply not_true_is_false. intros H.
  apply existsb_exists in H. destruct H as ([r k] & Hin & Hf). simpl in Hf.
  pose proof range_patterns_start as Hs. rewrite forallb_forall in Hs.
  specialize (Hs _ Hin). simpl in Hs. unfold starts_past_space in Hs.
  destruct (starts true r) as [f|] eqn:E; [|discriminate].
  unfold search in Hf. rewrite (search_from_none true r f E) in Hf; [discriminate|].
  apply forallb_forall. intros x Hx.
  rewrite forallb_forall in Hb.
  exact (space_forall (fun x => negb (f x)) Hs x (Hb x Hx)).
Qed.

(** ** extract_explicit_time and extract_time_range *)

Lemma extract_explicit_time_total (now : datetime) (txt : text) (base : option datetime) :
  exists r, extract_explicit_time now txt base = Ok r
            /\ forall t, r = Some t -> time_bound t.
Proof.
  unfold extract_explicit_time. cbv zeta.
  destruct (found (search false re_noon (lower txt))).
  { eexists. split; [reflexivity|]. intros t [= <-]. unfold time_bound. simpl. lia. }
  destruct (found (search false re_midnight (lower txt))).
  { eexists. split; [reflexivity|]. intros t [= <-]. unfold time_bound. simpl. lia. }
  destruct (found (search false re_at_night (lower txt))).
  { eexists. split; [reflexivity|]. intros t [= <-]. unfold time_bound. simpl. lia. }
  apply explicit_loop_bound, TIME_PATTERNS_wf.
Qed.

Lemma explicit_loop_first (s : text) :
  forall pre r k post m res,
    (forall pk, In pk pre -> search true (fst pk) s = None) ->
    search true r s = Some m -> time_of_match k m = Some res ->
    explicit_loop (pre ++ (r, k) :: post) s = (t <- res ;; Ok (Some t)).
Proof.
  induction pre as [|[r0 k0] pre IH]; intros r k post m res Hpre Hm Hres; simpl.
  - now rewrite Hm, Hres.
  - pose proof (Hpre (r0, k0) (or_introl eq_refl)) as H0. simpl in H0. rewrite H0.
    apply (IH r k post m res); auto. intros pk Hpk. apply Hpre. now right.
Qed.

Lemma digit_chars_in : forall c, isdecimal c = true -> In c digit_chars.
Proof.
  by_chars (fun c => negb (isdecimal c)
                     || existsb (fun d => char_eqb c d) digit_chars).
  intros Hc Hd. rewrite Hd in Hc. simpl negb in Hc. rewrite orb_false_l in Hc.
  apply existsb_exists in Hc. destruct Hc as (d & Hin & He).
  apply char_eqb_eq in He. now subst.
Qed.

Lemma digit_texts_in (v : text) : digits2 v -> In v digit_texts.
Proof.
  intros (Hne & Hall & Hlen). unfold digit_texts. apply in_or_app.
  destruct v as [|c [|d [|e v]]]; [congruence| | |simpl in Hlen; lia];
    cbn [forallb] in Hall.
  - left. apply andb_true_iff in Hall. destruct Hall as [Hc _].
    apply (in_map (fun c => [c])), digit_chars_in, Hc.
  - right. apply andb_true_iff in Hall. destruct Hall as [Hc Hall].
    apply andb_true_iff in Hall. destruct Hall as [Hd _].
    apply in_flat_map. exists c. split; [now apply digit_chars_in|].
    apply (in_map (fun d => [c; d])), digit_chars_in, Hd.
Qed.

Lemma time_eqb_eq (a b : TimeOfDay) : time_eqb a b = true -> a = b.
Proof.
  destruct a, b. unfold time_eqb. simpl. intros H.
  apply andb_true_iff in H. destruct H as [H1 H2].
  apply Z.eqb_eq in H1, H2. now subst.
Qed.

Lemma shared_period_all (base : datetime) :
  forallb (fun a =>
    forallb (fun b =>
      forallb (fun p => shared_period_check base a b p) [py "am"; py "pm"])
      digit_texts) digit_texts = true.
Proof. vm_compute. reflexivity. Qed.

(** C6: [extract_explicit_time] tries the key words first, each returning
    at once ([noon] gives (12,0), [midnight] (0,0), [at night] (20,0));
    otherwise the first pattern of [TIME_PATTERNS] that matches decides, and
    the hour is shifted by the meridiem: [pm] and an hour other than 12 adds
    12, [am] and the hour 12 gives 0, any other hour is kept.  So ["3pm"] is
    (15,0), ["3am"] (3,0), ["12pm"] (12,0), ["12am"] (0,0), ["noon"] (12,0)
    and ["midnight"] (0,0). *)
Theorem extract_explicit_time_rules (now : datetime) (base : option datetime) :
  (forall txt,
      let s := lower txt in
      (found (search false re_noon s) = true ->
       extract_explicit_time now txt base = Ok (Some (12, 0)%Z))
      /\ (found (search false re_noon s) = false ->
          found (search false re_midnight s) = true ->
          extract_explicit_time now txt base = Ok (Some (0, 0)%Z))
      /\ (found (search false re_noon s) = false ->
          found (search false re_midnight s) = false ->
          found (search false re_at_night s) = true ->
          extract_explicit_time now txt base = Ok (Some (20, 0)%Z))
      /\ (found (search false re_noon s) = false ->
          found (search false re_midnight s) = false ->
          found (search false re_at_night s) = false ->
          forall pre r k post m res,
            TIME_PATTERNS = pre ++ (r, k) :: post ->
            (forall pk, In pk pre -> search true (fst pk) s = None) ->
            search true r s = Some m ->
            time_of_match k m = Some res ->
            extract_explicit_time now txt base = (t <- res ;; Ok (Some t))))
  /\ (forall matched h,
         (contains pm matched = true -> h <> 12 -> meridiem_in matched h = h + 12)
         /\ (contains am matched = true -> meridiem_in matched 12 = 0)
         /\ (contains pm matched = false -> h <> 12 -> meridiem_in matched h = h)
         /\ (contains am matched = false -> meridiem_in matched 12 = 12))%Z
  /\ extract_explicit_time now (py "3pm") base = Ok (Some (15, 0)%Z)
  /\ extract_explicit_time now (py "3am") base = Ok (Some (3, 0)%Z)
  /\ extract_explicit_time now (py "12pm") base = Ok (Some (12, 0)%Z)
  /\ extract_explicit_time now (py "12am") base = Ok (Some (0, 0)%Z)
  /\ extract_explicit_time now (py "noon") base = Ok (Some (12, 0)%Z)
  /\ extract_explicit_time now (py "midnight") base = Ok (Some (0, 0)%Z).
Proof.
  split; [|split].
  - intros txt s. unfold extract_explicit_time. cbv zeta. fold s.
    repeat split.
    + now intros ->.
    + now intros -> ->.
    + now intros -> -> ->.
    + intros -> -> -> pre r k post m res -> Hpre Hm Hres.
      now apply explicit_loop_first with (m := m).
  - intros matched h. unfold meridiem_in, pm, am. repeat split.
    + intros -> Hh. apply Z.eqb_neq in Hh. now rewrite Hh.
    + intros ->. simpl. now rewrite andb_false_r.
    + intros -> Hh. apply Z.eqb_neq in Hh. rewrite Hh. simpl.
      now rewrite andb_false_r.
    + intros ->. simpl. now rewrite andb_false_r.
  - repeat split; vm_compute; reflexivity.
Qed.

(** A text with [noon] in it, for the first rule of C6. *)
Lemma extract_explicit_time_rules_witness :
  extract_explicit_time (fixed_clock 0) (py "Lunch at noon") None = Ok (Some (12, 0)%Z).
Proof.
  destruct (extract_explicit_time_rules (fixed_clock 0) None) as [H _].
  destruct (H (py "Lunch at noon")) as [Hnoon _].
  apply Hnoon. vm_compute. reflexivity.
Defined.

(** C7: in [extract_time_range] the one meridiem that ends ["a-bp"] shifts
    both hours, so ["2-4pm"] is ((14,0),(16,0)); and nothing orders the two
    ends: ["11-1pm"] is the range from 23:00 to 13:00. *)
Theorem extract_time_range_shared_meridiem (now : datetime) (base : option datetime) :
  (forall a b p x y,
      digits2 a -> digits2 b -> p = am \/ p = pm ->
      int a = Ok x -> int b = Ok y ->
      extract_time_range now (a ++ py "-" ++ b ++ p) base
      = Ok (Some ((to_period (Some p) x, 0%Z), (to_period (Some p) y, 0%Z))))
  /\ extract_time_range now (py "2-4pm") base = Ok (Some ((14, 0), (16, 0))%Z)
  /\ extract_time_range now (py "11-1pm") base = Ok (Some ((23, 0), (13, 0))%Z)
  /\ (13 < 23)%Z.
Proof.
  split; [|repeat split; vm_compute; reflexivity].
  intros a b p x y Ha Hb Hp Hx Hy.
  pose proof (shared_period_all (default_now now base)) as H.
  rewrite forallb_forall in H. specialize (H a (digit_texts_in a Ha)).
  rewrite forallb_forall in H. specialize (H b (digit_texts_in b Hb)).
  rewrite forallb_forall in H.
  assert (Hin : In p [py "am"; py "pm"]).
  { destruct Hp as [->| ->]; simpl; auto. }
  specialize (H p Hin). unfold shared_period_check in H.
  unfold extract_time_range. cbv zeta. rewrite Hx, Hy in H.
  destruct (range_loop TIME_RANGE_PATTERNS (lower (a ++ py "-" ++ b ++ p))
              (default_now now base)) as [[[s e]|]|]; try discriminate.
  apply andb_true_iff in H. destruct H as [H1 H2].
  apply time_eqb_eq in H1, H2. now subst.
Qed.

(** The hours 9 and 11 before noon, for the first part of C7. *)
Lemma extract_time_range_shared_meridiem_witness :
  extract_time_range (fixed_clock 0) (py "9-11am") None
  = Ok (Some ((9, 0), (11, 0))%Z).
Proof.
  destruct (extract_time_range_shared_meridiem (fixed_clock 0) None) as [H _].
  apply (H (py "9") (py "11") am 9%Z 11%Z).
  - repeat split; [discriminate|simpl; lia].
  - repeat split; [discriminate|simpl; lia].
  - now left.
  - reflexivity.
  - reflexivity.
Defined.

(** C9: [detect_intent] answers [reminder] exactly when the normalized text
    starts with ["remind me"], and [event] otherwise. *)
Theorem detect_intent_spec (txt : text) :
  (detect_intent txt = reminder
   <-> startswith (normalize_text txt) (py "remind me") = true)
  /\ (detect_intent txt = event
      <-> startswith (normalize_text txt) (py "remind me") = false).
Proof.
  unfold detect_intent. cbv zeta.
  destruct (startswith (normalize_text txt) (py "remind me")); split; split;
    congruence.
Qed.

(** ** extract_time *)

(** C1, as stated, fails: the date carries the time 10:30 and the text
    ["3pm"] has no range in it, yet [extract_time] is not absent, it is the
    explicit time (15,0). *)
Lemma extract_time_keeps_explicit_time :
  hour half_past_ten <> 0%Z
  /\ extract_time_range (fixed_clock 0) (py "3pm") (Some half_past_ten) = Ok None
  /\ extract_explicit_time (fixed_clock 0) (py "3pm") (Some half_past_ten)
     = Ok (Some (15, 0)%Z)
  /\ extract_time (fixed_clock 0) (py "3pm") (Some half_past_ten) = Ok (Some (15, 0)%Z)
  /\ extract_time (fixed_clock 0) (py "3pm") (Some half_past_ten) <> Ok None.
Proof.
  repeat split; try (vm_compute; reflexivity); vm_compute; discriminate.
Qed.

(** C1 (amended): [extract_time] first looks for a range; when the text has
    none, its result is that of [extract_explicit_time], whether or not the
    date already carries a time. *)
Theorem extract_time_without_range (now : datetime) (txt : text)
    (date_obj : option datetime) :
  extract_time_range now txt (Some (default_now now date_obj)) = Ok None ->
  extract_time now txt date_obj
  = extract_explicit_time now txt (Some (default_now now date_obj)).
Proof.
  intros H. unfold extract_time. cbv zeta. rewrite H. cbn [bind].
  destruct (extract_explicit_time now txt (Some (default_now now date_obj)))
    as [[t|]|e]; cbn [bind]; try reflexivity.
  now destruct (negb (hour (default_now now date_obj) =? 0)%Z
                || negb (minute (default_now now date_obj) =? 0)%Z).
Qed.

Lemma extract_time_without_range_witness :
  extract_time (fixed_clock 0) (py "3pm") (Some half_past_ten)
  = extract_explicit_time (fixed_clock 0) (py "3pm") (Some half_past_ten).
Proof.
  apply (extract_time_without_range (fixed_clock 0) (py "3pm") (Some half_past_ten)).
  vm_compute. reflexivity.
Defined.

(** ** The bounds of a time of day *)

(** C2, as stated, fails: ["99pm"] is read as the hour 111, and ["10:99"] as
    the minute 99; the ends of the range of ["99:99-99:99pm"] are (111,99). *)
Lemma time_of_day_out_of_range :
  extract_explicit_time (fixed_clock 0) (py "99pm") None = Ok (Some (111, 0)%Z)
  /\ ~ clock_time (111, 0)%Z
  /\ extract_explicit_time (fixed_clock 0) (py "10:99") None = Ok (Some (10, 99)%Z)
  /\ ~ clock_time (10, 99)%Z
  /\ extract_time_range (fixed_clock 0) (py "99:99-99:99pm") None
     = Ok (Some ((111, 99), (111, 99))%Z).
Proof.
  unfold clock_time.
  repeat split; try (vm_compute; reflexivity); simpl; lia.
Qed.

(** C2 (amended): the hour of a time of day returned by
    [extract_explicit_time], and of both ends of a range returned by
    [extract_time_range], is between 0 and 111 and the minute between 0 and
    99, for a base whose hour and minute are those of a clock. *)
Theorem time_of_day_bounds (now : datetime) (txt : text) (base : option datetime) :
  clock_time (hour (default_now now base), minute (default_now now base)) ->
  (forall t, extract_explicit_time now txt base = Ok (Some t) -> time_bound t)
  /\ (forall r, extract_time_range now txt base = Ok (Some r) ->
                time_bound (fst r) /\ time_bound (snd r)).
Proof.
  intros Hbase. split.
  - intros t Ht.
    destruct (extract_explicit_time_total now txt base) as (r & Hr & Hb).
    rewrite Hr in Ht. injection Ht as ->. now apply Hb.
  - intros r Hr.
    destruct (extract_time_range_total now txt base) as (r' & Hr' & _ & Hb).
    rewrite Hr' in Hr. injection Hr as ->.
    destruct (Hb r eq_refl) as [[Hs|Hs] He]; split; auto.
    rewrite Hs. unfold clock_time, time_bound in *. simpl in *. lia.
Qed.

Lemma time_of_day_bounds_witness : time_bound (111, 0)%Z.
Proof.
  destruct (time_of_day_bounds (fixed_clock 0) (py "99pm") None) as [H _].
  - unfold clock_time. simpl. lia.
  - apply H. vm_compute. reflexivity.
Defined.

(** ** Characters kept by the string operations *)

Section Kept.

Variable P : char -> Prop.

Lemma Forall_lstrip (s : text) : Forall P s -> Forall P (lstrip s).
Proof.
  induction 1 as [|x s Hx Hs IH]; simpl; [constructor|].
  destruct (isspace x); [exact IH|now constructor].
Qed.

Lemma Forall_strip (s : text) : Forall P s -> Forall P (strip s).
Proof.
  intros H. unfold strip, rstrip.
  apply Forall_rev, Forall_lstrip, Forall_rev, Forall_lstrip, H.
Qed.

Lemma Forall_replace (old : char) (new s : text) :
  Forall P new -> Forall P s -> Forall P (replace old new s).
Proof.
  intros Hn. induction 1 as [|x s Hx Hs IH]; simpl; [constructor|].
  apply Forall_app. split; [|exact IH].
  destruct (char_eqb x old); [exact Hn|now constructor].
Qed.

Lemma Forall_sub_go (r : regex) (repl : text) :
  Forall P repl ->
  forall s l k, Forall P s -> Forall P (sub_go r repl l s k).
Proof.
  intros Hr. induction s as [|x s IH]; intros l k Hs.
  - destruct k; simpl; [|constructor].
    destruct (match_at false r l []) as [q|]; [|constructor].
    now destruct (length (consumed (mkpos l [] []) q)).
  - inversion Hs as [|? ? Hx Hs']; subst.
    destruct k; simpl; [|now apply IH].
    destruct (match_at false r l (x :: s)) as [q|].
    + destruct (length (consumed (mkpos l (x :: s) []) q)).
      * apply Forall_app. split; [exact Hr|]. constructor; [exact Hx|now apply IH].
      * apply Forall_app. split; [exact Hr|now apply IH].
    + constructor; [exact Hx|now apply IH].
Qed.

Lemma Forall_sub (r : regex) (repl s : text) :
  Forall P repl -> Forall P s -> Forall P (sub r repl s).
Proof. intros Hr Hs. now apply Forall_sub_go. Qed.

Lemma Forall_join (sep : text) (parts : list text) :
  Forall P sep -> Forall (Forall P) parts -> Forall P (join sep parts).
Proof.
  intros Hsep. induction 1 as [|p parts Hp Hps IH]; simpl; [constructor|].
  destruct parts as [|p' parts]; [exact Hp|].
  apply Forall_app. split; [exact Hp|]. apply Forall_app. now split.
Qed.

Lemma Forall_split_go (s : text) :
  forall cur, Forall P cur -> Forall P s -> Forall (Forall P) (split_go cur s).
Proof.
  induction s as [|x s IH]; intros cur Hc Hs; simpl.
  - destruct cur; constructor; [now apply Forall_rev|constructor].
  - inversion Hs as [|? ? Hx Hs']; subst.
    destruct (isspace x).
    + destruct cur as [|c cur]; [now apply IH|].
      constructor; [now apply Forall_rev|now apply IH].
    + apply IH; [now constructor|exact Hs'].
Qed.

Lemma Forall_split (s : text) : Forall P s -> Forall (Forall P) (split s).
Proof. intros H. now apply Forall_split_go. Qed.

End Kept.

Lemma normalize_text_unfold (txt : text) :
  normalize_text txt
  = sub (word "tn") (py "tonight")
      (sub (word "tdy") (py "today")
         (sub (word "yest") (py "yesterday")
            (sub (word "tmr") (py "tomorrow")
               (replace (Latin "@") (py "at") (strip (lower txt)))))).
Proof. reflexivity. Qed.

(** What the normalizer keeps: a property of every character of the
    lower-cased text and of the letters of the replacements. *)
Lemma Forall_normalize_text (P : char -> Prop) (txt : text) :
  Forall P (py "abcdefghijklmnopqrstuvwxyz") ->
  Forall P (lower txt) -> Forall P (normalize_text txt).
Proof.
  intros Hl Hs. rewrite normalize_text_unfold.
  assert (Hw : forall w, incl (py w) (py "abcdefghijklmnopqrstuvwxyz") -> Forall P (py w)).
  { intros w Hw. apply Forall_forall. intros c Hc.
    rewrite Forall_forall in Hl. apply Hl, Hw, Hc. }
  repeat apply Forall_sub;
    try (apply Hw; intros c Hc; vm_compute in Hc; vm_compute; tauto).
  apply Forall_replace.
  - apply Hw. intros c Hc. vm_compute in Hc; vm_compute; tauto.
  - now apply Forall_strip.
Qed.

Lemma lowered_lower (s : text) : lowered (lower s).
Proof.
  unfold lowered, lower. apply Forall_forall. intros c Hc.
  apply in_map_iff in Hc. destruct Hc as (x & <- & _). apply lower_char_idem.
Qed.

Lemma lower_fix (s : text) : lowered s -> lower s = s.
Proof.
  induction 1 as [|x s Hx Hs IH]; simpl; [reflexivity|].
  now rewrite Hx, IH.
Qed.

Lemma lowered_normalize_text (txt : text) : lowered (normalize_text txt).
Proof.
  apply Forall_normalize_text; [|apply lowered_lower].
  apply Forall_forall. intros c Hc. vm_compute in Hc.
  repeat destruct Hc as [<-|Hc]; try reflexivity. contradiction.
Qed.

(** Below 256 the lower-cased text has no upper-case letter. *)
Lemma latin_lower (s : text) :
  latin s -> Forall (fun c => is_latin c = true /\ isupper c = false) (lower s).
Proof.
  unfold latin, lower. intros H. apply Forall_forall. intros c Hc.
  apply in_map_iff in Hc. destruct Hc as (x & <- & Hx).
  rewrite Forall_forall in H. specialize (H x Hx).
  destruct x as [a|cp]; [|discriminate]. split; [|apply isupper_lower_latin].
  unfold lower_char. now destruct (isupper (Latin a)).
Qed.

Lemma no_upper_normalize_text (txt : text) : latin txt -> no_upper (normalize_text txt).
Proof.
  intros Hl.
  assert (H : Forall (fun c => is_latin c = true /\ isupper c = false)
                     (normalize_text txt)).
  { apply Forall_normalize_text; [|now apply latin_lower].
    apply Forall_forall. intros c Hc. vm_compute in Hc.
    repeat destruct Hc as [<-|Hc]; try (split; reflexivity). contradiction. }
  unfold no_upper. apply Forall_forall. intros c Hc.
  rewrite Forall_forall in H. now destruct (H c Hc).
Qed.

(** ** Whole-word substitution

    [re.sub] with a pattern [\bw\b], for a word [w], rewrites the maximal
    runs of word characters of the subject one by one. *)

Lemma word_prefix_rest (s : text) : s = word_prefix s ++ word_rest s.
Proof.
  induction s as [|x s IH]; simpl; [reflexivity|].
  destruct (isword x); simpl; [now rewrite <- IH|reflexivity].
Qed.

Lemma word_rest_head (s : text) : isword_at (word_rest s) = false.
Proof.
  induction s as [|x s IH]; simpl; [reflexivity|].
  destruct (isword x) eqn:E; [exact IH|simpl; exact E].
Qed.

Lemma word_prefix_all (s : text) : forallb isword (word_prefix s) = true.
Proof.
  induction s as [|x s IH]; simpl; [reflexivity|].
  destruct (isword x) eqn:E; simpl; [now rewrite E|reflexivity].
Qed.

Lemma word_rest_skipn (s : text) : word_rest s = skipn (length (word_prefix s)) s.
Proof.
  induction s as [|x s IH]; simpl; [reflexivity|].
  destruct (isword x); simpl; [exact IH|reflexivity].
Qed.

Lemma word_rest_length (s : text) : length (word_rest s) <= length s.
Proof.
  induction s as [|x s IH]; simpl; [lia|].
  destruct (isword x); simpl; lia.
Qed.

Lemma startswith_nil (s : text) : startswith s [] = true.
Proof. now destruct s. Qed.

Lemma lit_go_matches :
  forall w p,
    matches false (lit_go w) p
    = if startswith (after p) w
      then [mkpos (rev w ++ before p) (skipn (length w) (after p)) (caps p)]
      else [].
Proof.
  induction w as [|c w IH]; intros [l s g]; [now destruct s|].
  destruct w as [|d w].
  - simpl. destruct s as [|x s]; [reflexivity|]. simpl.
    rewrite startswith_nil, andb_true_r. now destruct (char_eqb_spec x c) as [->|].
  - change (lit_go (c :: d :: w)) with (Seq (Chr c) (lit_go (d :: w))).
    cbn [matches after before caps].
    destruct s as [|x s]; [reflexivity|].
    cbn [chr_eqb startswith]. destruct (char_eqb_spec x c) as [->|]; [|reflexivity].
    cbn [flat_map andb]. rewrite IH, app_nil_r. cbn [after before caps].
    destruct (startswith s (d :: w)); [|reflexivity].
    cbn [rev length skipn]. now rewrite <- !app_assoc.
Qed.

Lemma isword_at_rev_app (w l : text) :
  wordy w -> isword_at (rev w ++ l) = true.
Proof.
  intros [Hne Hall]. rewrite <- forallb_rev in Hall.
  destruct (rev w) as [|c t] eqn:E.
  - apply (f_equal (@rev char)) in E. rewrite rev_involutive in E. now subst.
  - simpl in *. now apply andb_true_iff in Hall.
Qed.

Lemma word_prefix_eq (w : text) :
  forallb isword w = true ->
  forall s, text_eqb (word_prefix s) w
            = startswith s w && negb (isword_at (skipn (length w) s)).
Proof.
  induction w as [|c w IH]; intros Hall s.
  - simpl. destruct s as [|x s]; [reflexivity|]. simpl.
    destruct (isword x); reflexivity.
  - simpl in Hall. apply andb_true_iff in Hall. destruct Hall as [Hc Hw].
    destruct s as [|x s]; [reflexivity|]. simpl.
    destruct (char_eqb_spec x c) as [->|Hxc].
    + rewrite Hc. simpl. rewrite <- (IH Hw s).
      apply eq_true_iff_eq. rewrite !text_eqb_eq. split; congruence.
    + simpl. apply not_true_is_false. intros H. apply text_eqb_eq in H.
      destruct (isword x); congruence.
Qed.

Section WordSub.

Variable w : text.
Variable repl : text.
Hypothesis w_wordy : wordy w.

(** Where [\bw\b] can match: at the start of a run that is [w]. *)
Lemma word_match_at (l s : text) :
  isword_at l = false ->
  match_at false (word_re w) l s
  = if text_eqb (word_prefix s) w
    then Some (mkpos (rev w ++ l) (word_rest s) [])
    else None.
Proof.
  intros Hl. unfold match_at, word_re. cbn [matches].
  unfold boundary. cbn [before after]. rewrite Hl, xorb_false_l.
  rewrite (word_prefix_eq w (proj2 w_wordy) s).
  destruct w_wordy as [Hne Hall].
  destruct (isword_at s) eqn:Hs.
  - cbn [flat_map]. rewrite app_nil_r, lit_go_matches. cbn [before after caps].
    destruct (startswith s w) eqn:Hst; [|reflexivity].
    cbn [flat_map matches]. rewrite app_nil_r. unfold boundary.
    cbn [before after]. rewrite (isword_at_rev_app w l w_wordy), xorb_true_l.
    cbn [andb].
    destruct (negb (isword_at (skipn (length w) s))) eqn:E; [|reflexivity].
    assert (Hp : word_prefix s = w).
    { apply text_eqb_eq. rewrite (word_prefix_eq w Hall s), Hst, E. reflexivity. }
    now rewrite word_rest_skipn, Hp.
  - cbn [flat_map].
    destruct w as [|c w']; [congruence|].
    destruct s as [|x s']; [reflexivity|].
    simpl in Hs, Hall. apply andb_true_iff in Hall. destruct Hall as [Hc _].
    cbn [startswith]. destruct (char_eqb_spec x c) as [->|]; [congruence|].
    reflexivity.
Qed.

Lemma word_match_none (l s : text) :
  isword_at l = true -> isword_at s = true ->
  match_at false (word_re w) l s = None.
Proof.
  intros Hl Hs. unfold match_at, word_re. cbn [matches].
  unfold boundary. cbn [before after]. now rewrite Hl, Hs.
Qed.

Lemma word_match_end (l s : text) :
  isword_at s = false -> match_at false (word_re w) l s = None.
Proof.
  intros Hs. unfold match_at, word_re. cbn [matches].
  destruct (boundary (mkpos l s [])); [|reflexivity].
  cbn [flat_map]. rewrite app_nil_r, lit_go_matches. cbn [after].
  destruct w_wordy as [Hne Hall].
  destruct w as [|c w']; [congruence|].
  destruct s as [|x s']; [reflexivity|].
  simpl in Hs, Hall. apply andb_true_iff in Hall. destruct Hall as [Hc _].
  cbn [startswith]. destruct (char_eqb_spec x c) as [->|]; [congruence|].
  reflexivity.
Qed.

Lemma sub_go_skip :
  forall k s l, k <= length s ->
    sub_go (word_re w) repl l s k
    = sub_go (word_re w) repl (rev (firstn k s) ++ l) (skipn k s) 0.
Proof.
  induction k as [|k IH]; intros s l Hk; [reflexivity|].
  destruct s as [|x s]; [simpl in Hk; lia|].
  cbn [sub_go firstn skipn rev]. rewrite <- app_assoc. apply IH.
  simpl in Hk. lia.
Qed.

End WordSub.

Lemma wmap_span (f : text -> text) :
  forall s acc,
    wmap f acc s = flush f (rev (word_prefix s) ++ acc) ++ wmap f [] (word_rest s).
Proof.
  induction s as [|x s IH]; intros acc; simpl.
  - now rewrite app_nil_r.
  - destruct (isword x) eqn:E.
    + rewrite IH. simpl. now rewrite <- app_assoc.
    + simpl. now rewrite E.
Qed.

Lemma wmap_nonword (f : text -> text) (s : text) :
  isword_at s = false ->
  wmap f [] s = match s with [] => [] | x :: s' => x :: wmap f [] s' end.
Proof.
  destruct s as [|x s]; [reflexivity|]. simpl. now intros ->.
Qed.

Lemma flush_rev (f : text -> text) (u : text) :
  u <> [] -> flush f (rev u) = f u.
Proof.
  intros Hu. unfold flush. rewrite rev_involutive.
  destruct (rev u) eqn:E; [|reflexivity].
  apply (f_equal (@rev char)) in E. rewrite rev_involutive in E. now subst.
Qed.

Section WordSubRuns.

Variable w : text.
Variable repl : text.
Hypothesis w_wordy : wordy w.

Lemma sub_go_nil (l : text) : sub_go (word_re w) repl l [] 0 = [].
Proof.
  cbn [sub_go]. now rewrite (word_match_end w w_wordy l [] eq_refl).
Qed.

Lemma sub_go_copy (l : text) (x : char) (s : text) :
  match_at false (word_re w) l (x :: s) = None ->
  sub_go (word_re w) repl l (x :: s) 0 = x :: sub_go (word_re w) repl (x :: l) s 0.
Proof. intros H. cbn [sub_go]. now rewrite H. Qed.

Lemma sub_go_replace (l : text) (x : char) (s : text) :
  isword_at l = false -> word_prefix (x :: s) = w ->
  sub_go (word_re w) repl l (x :: s) 0
  = repl ++ sub_go (word_re w) repl (rev (firstn (pred (length w)) s) ++ x :: l)
                   (word_rest (x :: s)) 0.
Proof.
  intros Hl Hp. cbn [sub_go].
  rewrite (word_match_at w w_wordy l (x :: s) Hl), Hp, text_eqb_refl.
  erewrite consumed_span; [|cbn [before]; reflexivity].
  destruct w_wordy as [Hne _].
  assert (Hk : exists k, length w = S k).
  { destruct w; [congruence|simpl; eauto]. }
  destruct Hk as (k & Hk).
  assert (Hle : k <= length s).
  { pose proof (f_equal (@length char) (word_prefix_rest (x :: s))) as Hl'.
    rewrite Hp, length_app in Hl'. simpl in Hl'. lia. }
  rewrite (word_rest_skipn (x :: s)), Hp, Hk. cbn [pred skipn]. f_equal.
  apply (sub_go_skip w repl k s (x :: l) Hle).
Qed.

Lemma sub_go_runs : forall n s l, length s <= n -> sub_state w repl s l.
Proof.
  induction n as [|n IH]; intros s l Hn; unfold sub_state.
  - destruct s; [|simpl in Hn; lia]. rewrite sub_go_nil.
    now destruct (isword_at l).
  - destruct s as [|x s].
    { rewrite sub_go_nil. now destruct (isword_at l). }
    simpl in Hn. assert (Hs : length s <= n) by lia.
    pose proof (IH s (x :: l) Hs) as Hi. unfold sub_state in Hi.
    cbn [isword_at] in Hi.
    destruct (isword x) eqn:Hx.
    + destruct (isword_at l) eqn:Hl.
      * rewrite sub_go_copy, Hi.
        -- simpl. now rewrite Hx.
        -- apply (word_match_none w l (x :: s) Hl). simpl. exact Hx.
      * rewrite (wmap_span (swap w repl) (x :: s) []), app_nil_r.
        assert (Hp : word_prefix (x :: s) <> []).
        { simpl. rewrite Hx. discriminate. }
        rewrite (flush_rev (swap w repl) _ Hp). unfold swap at 1.
        destruct (text_eqb (word_prefix (x :: s)) w) eqn:E.
        -- apply text_eqb_eq in E. rewrite (sub_go_replace l x s Hl E). f_equal.
           pose proof (IH (word_rest (x :: s))
                          (rev (firstn (pred (length w)) s) ++ x :: l)) as Hr.
           unfold sub_state in Hr. rewrite Hr.
           ++ pose proof (word_rest_head (x :: s)) as Hh.
              destruct (word_rest (x :: s)) as [|y t].
              ** destruct (isword_at (rev _ ++ _)); reflexivity.
              ** simpl in Hh. simpl. rewrite !Hh. simpl. rewrite ?Hh.
                 destruct (isword_at (rev _ ++ _)); reflexivity.
           ++ pose proof (word_rest_length s). simpl. rewrite Hx. lia.
        -- rewrite sub_go_copy, Hi.
           ++ simpl. now rewrite Hx.
           ++ now rewrite (word_match_at w w_wordy l (x :: s) Hl), E.
    + rewrite sub_go_copy, Hi.
      * simpl. rewrite Hx. destruct (isword_at l); simpl; now rewrite ?Hx.
      * apply (word_match_end w w_wordy). simpl. exact Hx.
Qed.

Theorem sub_word (s : text) : sub (word_re w) repl s = wmap (swap w repl) [] s.
Proof. exact (sub_go_runs (length s) s [] (le_n _)). Qed.

End WordSubRuns.

(** *** Rewriting runs twice *)

Lemma wordy_rev (acc : text) :
  acc <> [] -> forallb isword acc = true -> wordy (rev acc).
Proof.
  intros Hne Hall. split; [|now rewrite forallb_rev].
  intros E. apply (f_equal (@rev char)) in E. rewrite rev_involutive in E. now subst.
Qed.

Lemma wmap_app_word (g : text -> text) :
  forall v s acc, forallb isword v = true ->
    wmap g acc (v ++ s) = wmap g (rev v ++ acc) s.
Proof.
  induction v as [|c v IH]; intros s acc Hv; [reflexivity|].
  simpl in Hv. apply andb_true_iff in Hv. destruct Hv as [Hc Hv].
  simpl. rewrite Hc, (IH s (c :: acc) Hv), <- app_assoc. reflexivity.
Qed.

Lemma wmap_word_then (g : text -> text) (v rest : text) :
  wordy v -> isword_at rest = false ->
  wmap g [] (v ++ rest) = g v ++ wmap g [] rest.
Proof.
  intros [Hne Hall] Hr. rewrite (wmap_app_word g v rest [] Hall), app_nil_r.
  destruct rest as [|x r]; simpl.
  - now rewrite (flush_rev g v Hne), app_nil_r.
  - simpl in Hr. now rewrite Hr, (flush_rev g v Hne).
Qed.

Lemma wmap_wmap (f g : text -> text) :
  keeps_words f ->
  forall s acc, forallb isword acc = true ->
    wmap g [] (wmap f acc s) = wmap (fun u => g (f u)) acc s.
Proof.
  intros Hf. induction s as [|x s IH]; intros acc Hacc; simpl.
  - destruct acc as [|a acc]; [reflexivity|]. unfold flush.
    pose proof (Hf _ (wordy_rev (a :: acc) ltac:(discriminate) Hacc)) as Hv.
    rewrite <- (app_nil_r (f (rev (a :: acc)))).
    rewrite (wmap_word_then g _ [] Hv eq_refl). simpl. now rewrite !app_nil_r.
  - destruct (isword x) eqn:Hx.
    + apply IH. simpl. now rewrite Hx.
    + destruct acc as [|a acc].
      * simpl. rewrite Hx. simpl. now rewrite (IH [] eq_refl).
      * unfold flush.
        pose proof (Hf _ (wordy_rev (a :: acc) ltac:(discriminate) Hacc)) as Hv.
        rewrite (wmap_word_then g _ _ Hv); [|simpl; exact Hx].
        simpl. rewrite Hx. simpl. now rewrite (IH [] eq_refl).
Qed.

Lemma wmap_ext (f g : text -> text) :
  (forall u, wordy u -> f u = g u) ->
  forall s acc, forallb isword acc = true -> wmap f acc s = wmap g acc s.
Proof.
  intros Hfg.
  assert (Hflush : forall acc, forallb isword acc = true -> flush f acc = flush g acc).
  { intros [|a acc] Hacc; [reflexivity|]. unfold flush.
    apply Hfg, wordy_rev; [discriminate|exact Hacc]. }
  induction s as [|x s IH]; intros acc Hacc; simpl; [now apply Hflush|].
  destruct (isword x) eqn:Hx.
  - apply IH. simpl. now rewrite Hx.
  - now rewrite (Hflush acc Hacc), (IH [] eq_refl).
Qed.

Lemma wmap_nonempty (f : text -> text) :
  keeps_words f ->
  forall s acc, forallb isword acc = true -> s <> [] \/ acc <> [] ->
    wmap f acc s <> [].
Proof.
  intros Hf. induction s as [|x s IH]; intros acc Hacc Hne; simpl.
  - destruct Hne as [Hne|Hne]; [congruence|].
    destruct acc as [|a acc]; [congruence|]. unfold flush.
    apply (Hf _ (wordy_rev (a :: acc) ltac:(discriminate) Hacc)).
  - destruct (isword x) eqn:Hx.
    + apply IH; [simpl; now rewrite Hx|right; discriminate].
    + intros E. apply app_eq_nil in E. destruct E as [_ E]. discriminate.
Qed.

(** *** Text without white space at its ends *)

Lemma isspace_at_app (a b : text) :
  isspace_at (a ++ b) = match a with [] => isspace_at b | _ => isspace_at a end.
Proof. now destruct a. Qed.

Lemma wordy_no_space (v : text) : wordy v -> isspace_at v = false.
Proof.
  intros [Hne Hall]. destruct v as [|c v]; [congruence|].
  simpl in *. apply andb_true_iff in Hall. destruct Hall as [Hc _].
  destruct (isspace c) eqn:E; [|reflexivity].
  now rewrite (space_not_word c E) in Hc.
Qed.

Lemma lstrip_fix (s : text) : isspace_at s = false -> lstrip s = s.
Proof. destruct s as [|c s]; [reflexivity|]. simpl. now intros ->. Qed.

Lemma strip_fix (s : text) : trimmed s -> strip s = s.
Proof.
  intros [H1 H2]. unfold strip, rstrip.
  now rewrite (lstrip_fix s H1), (lstrip_fix (rev s) H2), rev_involutive.
Qed.

Lemma isspace_at_lstrip (s : text) : isspace_at (lstrip s) = false.
Proof.
  pose proof (lstrip_head s) as H. destruct (lstrip s); [reflexivity|exact H].
Qed.

Lemma lstrip_app_last (s : text) (c : char) :
  isspace c = false -> lstrip (s ++ [c]) = lstrip s ++ [c].
Proof.
  intros Hc. induction s as [|x s IH]; simpl; [now rewrite Hc|].
  destruct (isspace x); [exact IH|reflexivity].
Qed.

Lemma trimmed_strip (s : text) : trimmed (strip s).
Proof.
  unfold trimmed, strip, rstrip. split.
  - pose proof (isspace_at_lstrip s) as H.
    destruct (lstrip s) as [|c a]; [reflexivity|]. simpl in H. simpl.
    rewrite (lstrip_app_last (rev a) c H), rev_app_distr. simpl. exact H.
  - rewrite rev_involutive. apply isspace_at_lstrip.
Qed.

Lemma flat_map_rev {A B : Type} (f : A -> list B) (l : list A) :
  rev (flat_map f l) = flat_map (fun x => rev (f x)) (rev l).
Proof.
  induction l as [|x l IH]; simpl; [reflexivity|].
  rewrite rev_app_distr, IH, flat_map_app. simpl. now rewrite app_nil_r.
Qed.

Lemma trimmed_replace_at (s : text) :
  trimmed s -> trimmed (replace (Latin "@") (py "at") s).
Proof.
  intros [H1 H2]. unfold trimmed, replace. split.
  - destruct s as [|c s]; [reflexivity|]. simpl in *.
    destruct (char_eqb c (Latin "@")); [reflexivity|exact H1].
  - rewrite flat_map_rev. destruct (rev s) as [|c t]; [reflexivity|]. simpl in *.
    destruct (char_eqb c (Latin "@")); [reflexivity|exact H2].
Qed.

Lemma replace_nonempty (s : text) :
  s <> [] -> replace (Latin "@") (py "at") s <> [].
Proof.
  destruct s as [|c s]; [congruence|]. intros _. unfold replace. simpl.
  destruct (char_eqb c (Latin "@")); discriminate.
Qed.

Lemma trimmed_wmap (f : text -> text) (s : text) :
  keeps_words f -> trimmed s -> trimmed (wmap f [] s).
Proof.
  intros Hf [H1 H2]. split.
  - assert (G : forall s acc, forallb isword acc = true ->
                acc <> [] \/ isspace_at s = false ->
                isspace_at (wmap f acc s) = false).
    { clear s H1 H2. induction s as [|x s IH]; intros acc Hacc Hor; simpl.
      - destruct acc as [|a acc]; [reflexivity|]. unfold flush.
        apply wordy_no_space, Hf, wordy_rev; [discriminate|exact Hacc].
      - destruct (isword x) eqn:Hx.
        + apply IH; [simpl; now rewrite Hx|left; discriminate].
        + destruct acc as [|a acc].
          * simpl. destruct Hor as [Hor|Hor]; [congruence|exact Hor].
          * rewrite isspace_at_app. unfold flush.
            pose proof (Hf _ (wordy_rev (a :: acc) ltac:(discriminate) Hacc)) as Hv.
            pose proof (wordy_no_space _ Hv) as Hs.
            destruct (f (rev (a :: acc))); [now destruct Hv|exact Hs]. }
    apply G; [reflexivity|now right].
  - assert (G : forall s acc, forallb isword acc = true ->
                isspace_at (rev s) = false ->
                isspace_at (rev (wmap f acc s)) = false).
    { clear s H1 H2. induction s as [|x s IH]; intros acc Hacc Hs; simpl.
      - destruct acc as [|a acc]; [reflexivity|]. unfold flush.
        pose proof (Hf _ (wordy_rev (a :: acc) ltac:(discriminate) Hacc)) as Hv.
        apply wordy_no_space, wordy_rev; [apply Hv|apply Hv].
      - simpl in Hs. rewrite isspace_at_app in Hs.
        assert (Hs' : isspace_at (rev s) = false).
        { destruct (rev s); [reflexivity|exact Hs]. }
        destruct (isword x) eqn:Hx.
        + apply IH; [simpl; now rewrite Hx|exact Hs'].
        + rewrite rev_app_distr. simpl. rewrite <- app_assoc, isspace_at_app.
          destruct (rev (wmap f [] s)) as [|c t] eqn:E.
          * destruct s as [|y s].
            -- simpl in Hs. simpl. exact Hs.
            -- exfalso. apply (wmap_nonempty f Hf (y :: s) [] eq_refl).
               ++ left. discriminate.
               ++ apply (f_equal (@rev char)) in E.
                  now rewrite rev_involutive in E.
          * rewrite <- E. apply IH; [reflexivity|exact Hs']. }
    apply G; [reflexivity|exact H2].
Qed.

(** ** normalize_text *)

Lemma wordy_literal (s : string) :
  (match py s with [] => false | _ => forallb isword (py s) end) = true ->
  wordy (py s).
Proof.
  intros H. destruct (py s) as [|c t] eqn:E; [discriminate|].
  split; [discriminate|exact H].
Qed.

Lemma keeps_words_swap (w : text) (repl : string) :
  wordy (py repl) -> keeps_words (swap w (py repl)).
Proof.
  intros Hr u Hu. unfold swap. now destruct (text_eqb u w).
Qed.

Lemma keeps_words_compose (f g : text -> text) :
  keeps_words f -> keeps_words g -> keeps_words (fun u => g (f u)).
Proof. intros Hf Hg u Hu. apply Hg, Hf, Hu. Qed.

Ltac keeps_words_swaps :=
  let u := fresh "u" in
  let Hu := fresh "Hu" in
  intros u Hu; cbv beta;
  repeat (apply keeps_words_swap; [apply wordy_literal; reflexivity|]);
  exact Hu.

Lemma keeps_words_expand : keeps_words expand.
Proof. unfold expand. keeps_words_swaps. Qed.

Lemma normalize_text_runs (txt : text) :
  normalize_text txt
  = wmap expand [] (replace (Latin "@") (py "at") (strip (lower txt))).
Proof.
  rewrite normalize_text_unfold.
  change (word "tmr") with (word_re (py "tmr")).
  change (word "yest") with (word_re (py "yest")).
  change (word "tdy") with (word_re (py "tdy")).
  change (word "tn") with (word_re (py "tn")).
  rewrite (sub_word (py "tmr") (py "tomorrow")) by (apply wordy_literal; reflexivity).
  rewrite (sub_word (py "yest") (py "yesterday")) by (apply wordy_literal; reflexivity).
  rewrite (sub_word (py "tdy") (py "today")) by (apply wordy_literal; reflexivity).
  rewrite (sub_word (py "tn") (py "tonight")) by (apply wordy_literal; reflexivity).
  rewrite (wmap_wmap (swap (py "tmr") (py "tomorrow")) (swap (py "yest") (py "yesterday")))
    by (try reflexivity; keeps_words_swaps).
  rewrite (wmap_wmap _ (swap (py "tdy") (py "today")))
    by (try reflexivity; keeps_words_swaps).
  rewrite (wmap_wmap _ (swap (py "tn") (py "tonight")))
    by (try reflexivity; keeps_words_swaps).
  reflexivity.
Qed.

Lemma expand_expand (u : text) : expand (expand u) = expand u.
Proof.
  unfold expand, swap.
  destruct (text_eqb u (py "tmr")) eqn:E1; [reflexivity|]. cbv iota.
  destruct (text_eqb u (py "yest")) eqn:E2; [reflexivity|]. cbv iota.
  destruct (text_eqb u (py "tdy")) eqn:E3; [reflexivity|]. cbv iota.
  destruct (text_eqb u (py "tn")) eqn:E4; [reflexivity|]. cbv iota.
  now rewrite ?E1, ?E2, ?E3, ?E4.
Qed.

Lemma trimmed_normalize_text (txt : text) : trimmed (normalize_text txt).
Proof.
  rewrite normalize_text_runs.
  apply trimmed_wmap; [exact keeps_words_expand|].
  apply trimmed_replace_at, trimmed_strip.
Qed.

Lemma strip_lower_nonempty (txt : text) : blank txt = false -> strip (lower txt) <> [].
Proof.
  intros Hb E. apply strip_nil in E. rewrite forallb_lower_space in E.
  apply blank_spaces in E. congruence.
Qed.

Lemma normalize_text_nonempty (txt : text) :
  blank txt = false -> normalize_text txt <> [].
Proof.
  intros Hb. rewrite normalize_text_runs.
  apply (wmap_nonempty expand keeps_words_expand); [reflexivity|].
  left. apply replace_nonempty, strip_lower_nonempty, Hb.
Qed.

Lemma no_at_replace (s : text) : no_at (replace (Latin "@") (py "at") s).
Proof.
  unfold no_at, replace. induction s as [|c s IH]; simpl; [constructor|].
  apply Forall_app. split; [|exact IH].
  destruct (char_eqb c (Latin "@")) eqn:E; repeat constructor. exact E.
Qed.

Lemma replace_fix (new s : text) : no_at s -> replace (Latin "@") new s = s.
Proof.
  unfold replace. induction 1 as [|c s Hc Hs IH]; simpl; [reflexivity|].
  now rewrite Hc, IH.
Qed.

Lemma no_at_normalize_text (txt : text) : no_at (normalize_text txt).
Proof.
  rewrite normalize_text_unfold. unfold no_at.
  repeat apply Forall_sub; try (repeat constructor).
  apply no_at_replace.
Qed.

(** C8: [normalize_text] is idempotent. *)
Theorem normalize_text_idempotent (s : text) :
  normalize_text (normalize_text s) = normalize_text s.
Proof.
  rewrite (normalize_text_runs (normalize_text s)).
  rewrite (lower_fix _ (lowered_normalize_text s)).
  rewrite (strip_fix _ (trimmed_normalize_text s)).
  rewrite (replace_fix _ _ (no_at_normalize_text s)).
  rewrite (normalize_text_runs s).
  rewrite (wmap_wmap expand expand keeps_words_expand _ [] eq_refl).
  apply wmap_ext; [|reflexivity].
  intros u _. apply expand_expand.
Qed.

(** ** The title *)

Lemma enumerate_in {A : Type} (l : list A) (i : nat) (x : A) :
  In (i, x) (enumerate l) -> In x l.
Proof. unfold enumerate. apply in_combine_r. Qed.

Lemma fold_left_inv {A B : Type} (f : A -> B -> A) (I : A -> Prop) (l : list B) :
  (forall a b, In b l -> I a -> I (f a b)) ->
  forall a, I a -> I (fold_left f l a).
Proof.
  induction l as [|b l IH]; intros Hf a Ha; simpl; [exact Ha|].
  apply IH.
  - intros a' b' Hb'. apply Hf. now right.
  - apply Hf; [now left|exact Ha].
Qed.

Section TitleKept.

Variable P : char -> Prop.
Hypothesis P_space : Forall P space.

Lemma Forall_token_texts (doc : Doc) (pick : nat * Token -> list text) :
  (forall t, In t doc -> Forall P (tok_text t)) ->
  (forall i t, pick (i, t) = [] \/ pick (i, t) = [tok_text t]) ->
  Forall P (strip (join space (flat_map pick (enumerate doc)))).
Proof.
  intros Hdoc Hpick. apply Forall_strip, Forall_join; [exact P_space|].
  apply Forall_forall. intros w Hw. apply in_flat_map in Hw.
  destruct Hw as ([i t] & Hin & Hw).
  destruct (Hpick i t) as [E|E]; rewrite E in Hw; [contradiction|].
  destruct Hw as [<-|[]]. apply Hdoc. now apply enumerate_in in Hin.
Qed.

Lemma Forall_build_title_from_tokens (doc : Doc) (skip inf : list nat) (r : text) :
  (forall t, In t doc -> Forall P (tok_text t)) ->
  build_title_from_tokens doc skip inf = Some r -> Forall P r.
Proof.
  intros Hdoc. unfold build_title_from_tokens.
  destruct inf as [|i0 inf]; [discriminate|].
  match goal with
  | |- context [strip (join space (flat_map ?pick _))] =>
      pose proof (Forall_token_texts doc pick Hdoc) as H
  end.
  cbv zeta.
  destruct (strip (join space _)) as [|c t]; [discriminate|].
  intros [= <-]. apply H. intros i t'.
  destruct (memi i skip); [now left|].
  destruct (memi i (i0 :: inf)); [now right|now left].
Qed.

Lemma Forall_build_title_fallback (doc : Doc) (skip : list nat) :
  (forall t, In t doc -> Forall P (tok_text t)) ->
  Forall P (build_title_fallback doc skip).
Proof.
  intros Hdoc. unfold build_title_fallback. cbv zeta.
  apply Forall_token_texts; [exact Hdoc|]. intros i t.
  destruct (memi i skip); [now left|].
  match goal with |- context [if ?b then _ else _] => destruct b end;
    [now right|now left].
Qed.

Lemma Forall_filter_words_fallback (txt : text) :
  Forall P txt -> Forall P (filter_words_fallback txt).
Proof.
  intros Htxt. unfold filter_words_fallback. cbv zeta.
  apply Forall_strip, Forall_join; [exact P_space|]. apply Forall_rev.
  pose proof (Forall_split P txt Htxt) as Hw. rewrite Forall_forall in Hw.
  unfold filter_loop.
  apply (fold_left_inv _ (fun st => Forall (Forall P) (fst st))).
  - intros [filtered skip] [i w0] Hin Hst. simpl in Hst.
    apply enumerate_in in Hin.
    destruct (filter_rule (split txt) i w0); [exact Hst|].
    destruct (memi i skip); [exact Hst|]. simpl. constructor; auto.
  - constructor.
Qed.

Lemma Forall_extract_title (nlp : text -> Doc) (txt : text) (d : option datetime) :
  Forall P txt -> (forall t, In t (nlp txt) -> Forall P (tok_text t)) ->
  Forall P (extract_title nlp txt d).
Proof.
  intros Htxt Hdoc. unfold extract_title. cbv zeta.
  destruct (build_title_from_tokens _ _ _) as [r|] eqn:E1.
  { exact (Forall_build_title_from_tokens _ _ _ r Hdoc E1). }
  pose proof (Forall_build_title_fallback (nlp txt)
                (identify_tokens_to_skip (nlp txt)) Hdoc) as H2.
  destruct (build_title_fallback _ _); [|exact H2].
  pose proof (Forall_filter_words_fallback txt Htxt) as H3.
  destruct (filter_words_fallback txt); [|exact H3].
  now apply Forall_strip.
Qed.

End TitleKept.

Lemma extract_title_nonempty (nlp : text -> Doc) (txt : text) (d : option datetime) :
  strip txt <> [] -> extract_title nlp txt d <> [].
Proof.
  intros Hne. unfold extract_title. cbv zeta.
  destruct (build_title_from_tokens _ _ _) as [r|] eqn:E1.
  { unfold build_title_from_tokens in E1.
    destruct (extract_infinitive_phrases (nlp txt)); [discriminate|].
    cbv zeta in E1. destruct (strip (join space _)); [discriminate|].
    injection E1 as <-. discriminate. }
  destruct (build_title_fallback _ _); [|discriminate].
  destruct (filter_words_fallback txt); [exact Hne|discriminate].
Qed.

Lemma extract_title_last (nlp : text -> Doc) (txt : text) (d : option datetime) :
  title_from_phrase nlp txt = None -> title_from_tokens nlp txt = [] ->
  filter_words_fallback txt = [] -> extract_title nlp txt d = strip txt.
Proof.
  unfold title_from_phrase, title_from_tokens, extract_title. cbv zeta.
  now intros -> -> ->.
Qed.

Lemma replace_time_ok (d : datetime) (t : TimeOfDay) :
  clock_time t -> exists d', merge_datetime_time d (Some t) = Ok d'.
Proof.
  destruct t as [h m]. unfold clock_time, merge_datetime_time, replace_time. simpl.
  intros [[H1 H2] [H3 H4]].
  apply Z.leb_le in H1, H2, H3, H4. rewrite H1, H2, H3, H4. simpl. eauto.
Qed.

(** ** parse *)

Section Parse.

Variable nlp : text -> Doc.
Variable dateparser_parse : text -> datetime -> option datetime.
Variable cal_parseDT : text -> datetime -> datetime * Z.
Variable clock : nat -> datetime.

(** The title of a text that is not blank is extracted from the
    normalized text. *)
Lemma parse_title (txt : text) (ev : ParsedEvent) :
  blank txt = false -> parse nlp dateparser_parse cal_parseDT clock txt = Ok ev ->
  exists d, title ev = extract_title nlp (normalize_text txt) d.
Proof.
  intros Hb. unfold parse. rewrite Hb.
  destruct (extract_time_range (clock 0) txt None) as [tr|e]; [|discriminate].
  cbn [bind].
  destruct (extract_datetime _ _ _ _) as [date_obj|e]; [|discriminate].
  cbn [bind]. destruct tr as [[st en]|].
  - destruct (merge_datetime_time _ (Some st)) as [sd|e]; [|discriminate].
    cbn [bind].
    destruct (merge_datetime_time _ (Some en)) as [ed|e]; [|discriminate].
    cbn [bind]. intros [= <-]. simpl. eauto.
  - destruct (extract_time _ _ _) as [tt|e]; [|discriminate]. cbn [bind].
    match goal with
    | |- bind ?x _ = _ -> _ => destruct x as [d'|e]; [|discriminate]
    end.
    cbn [bind]. intros [= <-]. simpl. eauto.
Qed.

(** C3 (amended): for a text that is not blank the title is never empty,
    and when the three strategies yield nothing it is the normalized
    text (lower-cased, trimmed, with [@] and the abbreviations replaced),
    not the trimmed original. *)
Theorem parse_title_nonempty (txt : text) (ev : ParsedEvent) :
  blank txt = false -> parse nlp dateparser_parse cal_parseDT clock txt = Ok ev ->
  title ev <> []
  /\ (title_from_phrase nlp (normalize_text txt) = None ->
      title_from_tokens nlp (normalize_text txt) = [] ->
      filter_words_fallback (normalize_text txt) = [] ->
      title ev = normalize_text txt).
Proof.
  intros Hb Hp. destruct (parse_title txt ev Hb Hp) as (d & ->).
  pose proof (strip_fix _ (trimmed_normalize_text txt)) as Hs.
  split.
  - apply extract_title_nonempty. rewrite Hs.
    now apply normalize_text_nonempty.
  - intros H1 H2 H3. now rewrite (extract_title_last nlp _ d H1 H2 H3).
Qed.

(** What the title keeps: a property of every character of the lower-cased
    text, of the space and of the letters of the replacements, for a
    tokenizer whose tokens are made of characters of the text it is
    given. *)
Lemma parse_title_chars (P : char -> Prop) (txt : text) (ev : ParsedEvent) :
  Forall P (py " abcdefghijklmnopqrstuvwxyz") -> Forall P (lower txt) ->
  (forall s t c, In t (nlp s) -> In c (tok_text t) -> In c s) ->
  parse nlp dateparser_parse cal_parseDT clock txt = Ok ev -> Forall P (title ev).
Proof.
  intros Hl Hs Hnlp Hp. destruct (blank txt) eqn:Hb.
  - unfold parse in Hp. rewrite Hb in Hp. injection Hp as <-. constructor.
  - destruct (parse_title txt ev Hb Hp) as (d & ->).
    inversion Hl as [|sp letters Hsp Hletters]; subst.
    pose proof (Forall_normalize_text P txt Hletters Hs) as Hn.
    apply Forall_extract_title; [repeat constructor; exact Hsp|exact Hn|].
    intros t Ht. apply Forall_forall. intros c Hc.
    rewrite Forall_forall in Hn. apply Hn, (Hnlp _ t c Ht Hc).
Qed.

(** C10 (amended): [str.lower] changes no character of the title, so that
    every letter of it that has a lower-case form is in that form, and the
    title of a text of characters below 256 has no upper-case character;
    an upper-case letter that has no lower-case form stays as it is.  For a
    tokenizer whose tokens are made of characters of the text it is
    given. *)
Theorem parse_title_lowered (txt : text) (ev : ParsedEvent) :
  (forall s t c, In t (nlp s) -> In c (tok_text t) -> In c s) ->
  parse nlp dateparser_parse cal_parseDT clock txt = Ok ev ->
  lowered (title ev) /\ (latin txt -> no_upper (title ev)).
Proof.
  intros Hnlp Hp. split.
  - apply (parse_title_chars (fun c => lower_char c = c) txt ev);
      [|apply lowered_lower|exact Hnlp|exact Hp].
    apply Forall_forall. intros c Hc. vm_compute in Hc.
    repeat destruct Hc as [<-|Hc]; try reflexivity. contradiction.
  - intros Hl.
    assert (H : Forall (fun c => is_latin c = true /\ isupper c = false) (title ev)).
    { apply (parse_title_chars _ txt ev);
        [|now apply latin_lower|exact Hnlp|exact Hp].
      apply Forall_forall. intros c Hc. vm_compute in Hc.
      repeat destruct Hc as [<-|Hc]; try (split; reflexivity). contradiction. }
    unfold no_upper. apply Forall_forall. intros c Hc.
    rewrite Forall_forall in H. now destruct (H c Hc).
Qed.

(** C5: [end_time] is set exactly when [extract_time_range] finds a range
    in the raw text. *)
Theorem end_time_iff_time_range (txt : text) (ev : ParsedEvent) :
  parse nlp dateparser_parse cal_parseDT clock txt = Ok ev ->
  (end_time ev <> None
   <-> exists r, extract_time_range (clock 0) txt None = Ok (Some r)).
Proof.
  unfold parse.
  destruct (extract_time_range_total (clock 0) txt None) as (tr & Htr & Hfound & _).
  rewrite Htr. destruct (blank txt) eqn:Hb.
  - intros [= <-]. simpl. split; [congruence|]. intros (r & [= ->]).
    pose proof (blank_no_range txt Hb) as Hn.
    destruct Hfound as [Hf _]. rewrite Hn in Hf.
    assert (HF : false = true) by (apply Hf; discriminate). discriminate.
  - cbn [bind].
    destruct (extract_datetime _ _ _ _) as [date_obj|e]; [|discriminate].
    cbn [bind]. destruct tr as [[st en]|].
    + destruct (merge_datetime_time _ (Some st)) as [sd|e]; [|discriminate].
      cbn [bind].
      destruct (merge_datetime_time _ (Some en)) as [ed|e]; [|discriminate].
      cbn [bind]. intros [= <-]. simpl. split; [eauto|discriminate].
    + destruct (extract_time _ _ _) as [tt|e]; [|discriminate]. cbn [bind].
      match goal with
      | |- bind ?x _ = _ -> _ => destruct x as [d'|e]; [|discriminate]
      end.
      cbn [bind]. intros [= <-]. simpl. split; [congruence|].
      intros (r & [=]).
Qed.

(** C4 (amended): [parse] returns an event when [extract_relative_time]
    raises nothing on the normalized text, neither [OverflowError] from the
    sum nor [ValueError] from [int] for a number of more than 4300 digits,
    and every time of day read from the text is a time of the clock, an
    hour up to 23 and a minute up to 59. *)
Theorem parse_returns (txt : text) :
  (forall e, extract_relative_time (clock 1) (normalize_text txt) (Some (clock 1))
             <> Raise e) ->
  (forall r, extract_time_range (clock 0) txt None = Ok (Some r) ->
             clock_time (fst r) /\ clock_time (snd r)) ->
  (forall now base t, extract_explicit_time now txt base = Ok (Some t) ->
                      clock_time t) ->
  exists ev, parse nlp dateparser_parse cal_parseDT clock txt = Ok ev.
Proof.
  intros Hrel Hrange Htime. unfold parse.
  destruct (blank txt); [eauto|].
  destruct (extract_time_range_total (clock 0) txt None) as (tr & Htr & Hfound & _).
  rewrite Htr. cbn [bind].
  assert (Hd : exists date_obj,
             extract_datetime dateparser_parse cal_parseDT (clock 1)
               (normalize_text txt) = Ok date_obj).
  { unfold extract_datetime. cbv zeta.
    destruct (dateparser_parse _ _); [eauto|].
    destruct (cal_parseDT _ _) as [res status].
    destruct (status >? 0)%Z; [eauto|].
    destruct (extract_relative_time _ _ _) as [[d|]|e] eqn:E; cbn [bind]; eauto.
    now destruct (Hrel e). }
  destruct Hd as (date_obj & ->). cbn [bind].
  destruct tr as [[st en]|].
  - destruct (Hrange _ Htr) as [Hs He]. simpl in Hs, He.
    destruct (replace_time_ok
                (match date_obj with Some d => d | None => clock 2 end) st Hs)
      as (sd & ->).
    destruct (replace_time_ok
                (match date_obj with Some d => d | None => clock 3 end) en He)
      as (ed & ->).
    cbn [bind]. eauto.
  - assert (Ht : exists tt, extract_time (clock 2) txt date_obj = Ok tt
                            /\ forall t, tt = Some t -> clock_time t).
    { unfold extract_time. cbv zeta.
      destruct (extract_time_range_total (clock 2) txt
                  (Some (default_now (clock 2) date_obj)))
        as (tr' & -> & Hfound' & _).
      cbn [bind]. destruct tr' as [r'|].
      { exfalso. destruct Hfound as [_ Hf]. destruct Hfound' as [Hf' _].
        apply Hf; [apply Hf'; discriminate|reflexivity]. }
      destruct (extract_explicit_time_total (clock 2) txt
                  (Some (default_now (clock 2) date_obj))) as (et & Het & _).
      rewrite Het. cbn [bind]. destruct et as [t|].
      - exists (Some t). split; [reflexivity|]. intros t' [= <-].
        exact (Htime _ _ _ Het).
      - exists None. split; [now destruct (_ || _)|discriminate]. }
    destruct Ht as (tt & -> & Htt). cbn [bind].
    destruct date_obj as [d|], tt as [t|]; cbn [bind]; eauto.
    + destruct (replace_time_ok d t (Htt t eq_refl)) as (d' & ->).
      cbn [bind]. eauto.
    + destruct (replace_time_ok (clock 3) t (Htt t eq_refl)) as (d' & ->).
      cbn [bind]. eauto.
Qed.

End Parse.

(** ** The examples, with the plain collaborators *)

Lemma plain_nlp_chars (s : text) (t : Token) (c : char) :
  In t (plain_nlp s) -> In c (tok_text t) -> In c s.
Proof.
  unfold plain_nlp. intros Ht Hc. apply in_map_iff in Ht.
  destruct Ht as ([i w0] & <- & Hin). simpl in Hc.
  apply enumerate_in in Hin.
  pose proof (Forall_split (fun c => In c s) s) as H.
  rewrite Forall_forall in H. specialize (H (fun x Hx => Hx)).
  rewrite Forall_forall in H. specialize (H w0 Hin).
  rewrite Forall_forall in H. exact (H c Hc).
Qed.

(** C3, as stated, fails: for ["TMR"] the three strategies yield nothing and
    the title is ["tomorrow"], not the trimmed input ["TMR"]. *)
Lemma title_fallback_is_not_the_input :
  blank (py "TMR") = false
  /\ title_from_phrase plain_nlp (normalize_text (py "TMR")) = None
  /\ title_from_tokens plain_nlp (normalize_text (py "TMR")) = []
  /\ filter_words_fallback (normalize_text (py "TMR")) = []
  /\ parse0 (py "TMR") = Ok (mkEvent (py "tomorrow") None None event)
  /\ strip (py "TMR") = py "TMR"
  /\ py "tomorrow" <> strip (py "TMR").
Proof.
  repeat split; try (vm_compute; reflexivity). vm_compute. discriminate.
Qed.

Lemma parse_title_nonempty_witness :
  title (mkEvent (py "tomorrow") None None event) <> []
  /\ (title_from_phrase plain_nlp (normalize_text (py "TMR")) = None ->
      title_from_tokens plain_nlp (normalize_text (py "TMR")) = [] ->
      filter_words_fallback (normalize_text (py "TMR")) = [] ->
      title (mkEvent (py "tomorrow") None None event) = normalize_text (py "TMR")).
Proof.
  apply (parse_title_nonempty plain_nlp no_dateparser no_calendar fixed_clock
           (py "TMR")); vm_compute; reflexivity.
Defined.

(** C4, as stated, fails: ["99pm"] is read as the hour 111, which
    [datetime.replace] refuses, and the sum for ["in 99999999999 days"]
    overflows. *)
Lemma parse_raises :
  parse0 (py "99pm") = Raise ValueError
  /\ parse0 (py "in 99999999999 days") = Raise OverflowError.
Proof. split; vm_compute; reflexivity. Qed.

Lemma parse_returns_witness :
  exists ev, parse0 (py "meeting 2-4pm") = Ok ev.
Proof.
  apply (parse_returns plain_nlp no_dateparser no_calendar fixed_clock
           (py "meeting 2-4pm")).
  - intros e. vm_compute. discriminate.
  - intros r H. vm_compute in H. injection H as <-.
    unfold clock_time. simpl. lia.
  - intros now base t H. vm_compute in H. injection H as <-.
    unfold clock_time. simpl. lia.
Defined.

Lemma end_time_iff_time_range_witness :
  end_time (mkEvent (py "meeting") (Some (py "2024-02-28T14:00:00"))
              (Some (py "2024-02-28T16:00:00")) event) <> None
  <-> exists r, extract_time_range (fixed_clock 0) (py "meeting 2-4pm") None
                = Ok (Some r).
Proof.
  apply (end_time_iff_time_range plain_nlp no_dateparser no_calendar fixed_clock
           (py "meeting 2-4pm")).
  vm_compute. reflexivity.
Defined.

(** C10, as stated, fails: the two letters U+1D400 and U+1D401 are
    upper-case, [str.lower] leaves them as they are, and they are the
    title. *)
Lemma title_keeps_capitals :
  parse0 [Capital 119808; Capital 119809]
  = Ok (mkEvent [Capital 119808; Capital 119809] None None event)
  /\ isupper (Capital 119808) = true
  /\ ~ no_upper [Capital 119808; Capital 119809].
Proof.
  split; [vm_compute; reflexivity|]. split; [reflexivity|].
  intros H. inversion H as [|c s Hc Hs]. discriminate.
Qed.

Lemma parse_title_lowered_witness :
  lowered (title (mkEvent (py "call mom") None None event))
  /\ (latin (py "Call MOM") ->
      no_upper (title (mkEvent (py "call mom") None None event))).
Proof.
  apply (parse_title_lowered plain_nlp no_dateparser no_calendar fixed_clock
           (py "Call MOM")).
  - exact plain_nlp_chars.
  - vm_compute. reflexivity.
Defined.

(** * Further properties *)

(** ** Digits and exceptions *)

Lemma is_digits_body (ic : bool) (a : regex) (p q : pos) :
  is_digits a = true -> In q (matches ic a p) -> digits (consumed p q).
Proof.
  destruct a as [| | | | |k lo hi| |]; try discriminate.
  destruct k; try discriminate. destruct lo as [|lo]; try discriminate.
  simpl. intros _ Hq.
  destruct (rep_spec _ _ _ _ _ _ _ Hq) as (w & Hb & _ & _ & Hall & Hlo & _).
  erewrite consumed_span; [|exact Hb]. split; [|exact Hall].
  intros ->. simpl in Hlo. lia.
Qed.

Lemma search_digits_group (ic : bool) (r : regex) (s : text) (m : Match) (n : nat) :
  search ic r s = Some m -> digits_group n r = true ->
  exists v, group m n = Some v /\ digits v.
Proof.
  intros Hm Hd. apply andb_true_iff in Hd. destruct Hd as [Hs Hd].
  destruct (search_group _ _ _ _ n Hm Hd) as (v & Hv). exists v. split; [exact Hv|].
  apply search_from_some in Hm. destruct Hm as (p & q & Hp & Hq & Hg & _).
  unfold group in Hv. rewrite Hg in Hv.
  refine (@matches_caps_inv ic n digits is_digits _ r p q Hs Hq _ v Hv).
  - intros a p' q'. apply is_digits_body.
  - intros v'. rewrite Hp. discriminate.
Qed.

Lemma fold_digits_nonneg (v : text) :
  forall acc, (0 <= acc)%Z -> forallb isdecimal v = true ->
    (0 <= fold_left (fun acc c => 10 * acc + digit_val c) v acc)%Z.
Proof.
  induction v as [|c v IH]; intros acc Hacc Hall; cbn [fold_left]; [exact Hacc|].
  cbn [forallb] in Hall. apply andb_true_iff in Hall. destruct Hall as [Hc Hv].
  apply IH; [|exact Hv]. pose proof (digit_val_range c Hc). lia.
Qed.

(** [int] on a text of digits: the number, or [ValueError] for more digits
    than it converts. *)
Lemma int_digits (v : text) :
  digits v ->
  (MAX_STR_DIGITS < length v /\ int v = Raise ValueError)
  \/ exists z, int v = Ok z /\ (0 <= z)%Z.
Proof.
  intros [Hne Hall]. unfold int. rewrite Hall.
  destruct v as [|c v]; [congruence|].
  destruct (Nat.leb (length (c :: v)) MAX_STR_DIGITS) eqn:E.
  - right. eexists. split; [reflexivity|].
    apply fold_digits_nonneg; [lia|exact Hall].
  - left. split; [now apply Nat.leb_gt|reflexivity].
Qed.

Lemma RELATIVE_TIME_PATTERNS_wf :
  forallb (fun pk : regex * unit_kind => digits_group 1 (fst pk))
          RELATIVE_TIME_PATTERNS = true.
Proof. vm_compute. reflexivity. Qed.

(** What the loop of [extract_relative_time] returns: nothing, [ValueError]
    for a number of more digits than [int] converts, or the base moved by
    the number of the text in its unit, when the sum exists. *)
Lemma relative_loop_result (base : datetime) (s : text) :
  forall patterns,
    forallb (fun pk : regex * unit_kind => digits_group 1 (fst pk)) patterns = true ->
    relative_loop patterns s base = Ok None
    \/ (long_number patterns s /\ relative_loop patterns s base = Raise ValueError)
    \/ exists value unit,
         (0 <= value)%Z
         /\ relative_loop patterns s base
            = (delta <- timedelta (value * unit_seconds unit) ;;
               r <- dt_add base delta ;; Ok (Some r)).
Proof.
  induction patterns as [|[r u] ps IH]; intros Hwf; simpl; [now left|].
  simpl in Hwf. apply andb_true_iff in Hwf. destruct Hwf as [Hr Hps].
  destruct (search false r s) as [m|] eqn:Hm.
  - right. destruct (search_digits_group _ _ _ _ _ Hm Hr) as (v & Hv & Hd).
    unfold int_group. rewrite Hv.
    destruct (int_digits v Hd) as [[Hlong Hz]|(z & Hz & Hz0)]; rewrite Hz.
    + left. split; [|reflexivity].
      exists r, u, m, v. repeat split; try assumption; try (now left); apply Hd.
    + right. exists z, u. split; [exact Hz0|reflexivity].
  - destruct (IH Hps) as [H|[[(r' & u' & m' & v' & Hin & H') H]|H]].
    + now left.
    + right. left. split; [|exact H]. exists r', u', m', v'.
      split; [now right|exact H'].
    + right. now right.
Qed.

Lemma timedelta_raises (seconds : Z) (e : exn) :
  timedelta seconds = Raise e -> e = OverflowError.
Proof.
  unfold timedelta. cbv zeta.
  destruct (Z.abs (seconds / 86400) >? MAXDELTADAYS)%Z; congruence.
Qed.

Lemma dt_add_raises (d : datetime) (delta : Z * Z) (e : exn) :
  dt_add d delta = Raise e -> e = OverflowError.
Proof.
  unfold dt_add. cbv zeta.
  match goal with |- context [if ?b then _ else _] => destruct b end;
    [|congruence].
  destruct (fromordinal _) as [[y m] dd]. discriminate.
Qed.

Lemma relative_time_raise (now : datetime) (txt : text)
    (base : option datetime) (e : exn) :
  extract_relative_time now txt base = Raise e ->
  e = OverflowError
  \/ (e = ValueError /\ long_number RELATIVE_TIME_PATTERNS (lower txt)).
Proof.
  unfold extract_relative_time. cbv zeta.
  destruct (relative_loop_result (default_now now base) (lower txt)
              RELATIVE_TIME_PATTERNS RELATIVE_TIME_PATTERNS_wf)
    as [->|[[Hlong ->]|(value & u & _ & ->)]]; [discriminate| |].
  { intros [= <-]. right. now split. }
  left.
  destruct (timedelta (value * unit_seconds u)) as [delta|e1] eqn:E1; cbn [bind] in *.
  - destruct (dt_add (default_now now base) delta) as [r|e2] eqn:E2; cbn [bind] in *;
      [discriminate|].
    injection H as <-. exact (dt_add_raises _ _ _ E2).
  - injection H as <-. exact (timedelta_raises _ _ E1).
Qed.

(** X2: what [extract_relative_time] raises: [OverflowError] from the
    [timedelta] or the sum, or [ValueError] from [int] when the number a
    pattern reads in the text has more than 4300 digits; nothing else,
    since that number is always a text of digits. *)
Theorem extract_relative_time_raise_causes (now : datetime) (txt : text)
    (base : option datetime) (e : exn) :
  extract_relative_time now txt base = Raise e ->
  e = OverflowError
  \/ (e = ValueError /\ long_number RELATIVE_TIME_PATTERNS (lower txt)).
Proof. apply relative_time_raise. Qed.

Lemma extract_relative_time_raise_causes_witness :
  extract_relative_time (fixed_clock 0) (py "in 99999999999 days") None
  = Raise OverflowError
  /\ (OverflowError = OverflowError
      \/ (OverflowError = ValueError
          /\ long_number RELATIVE_TIME_PATTERNS (lower (py "in 99999999999 days")))).
Proof.
  split; [vm_compute; reflexivity|].
  apply (extract_relative_time_raise_causes (fixed_clock 0)
           (py "in 99999999999 days") None OverflowError).
  vm_compute. reflexivity.
Defined.

(** A number of 4301 digits, even of zeros only, is refused by [int]. *)
Lemma extract_relative_time_long_number (now : datetime) (base : option datetime) :
  extract_relative_time now long_number_text base = Raise ValueError.
Proof. reflexivity. Qed.

Lemma dt_add_keeps_seconds (d : datetime) (delta : Z * Z) (r : datetime) :
  (0 <= second d < 60)%Z -> (snd delta mod 60 = 0)%Z ->
  dt_add d delta = Ok r -> second r = second d /\ microsecond r = microsecond d.
Proof.
  intros Hs Hd. unfold dt_add. cbv zeta.
  match goal with |- context [if ?b then _ else _] => destruct b end;
    [|discriminate].
  destruct (fromordinal _) as [[y m] dd]. intros [= <-]. simpl. split; [|reflexivity].
  rewrite (Z.mod_mod_divide _ 86400 60) by (exists 1440%Z; lia).
  assert (Hq : (snd delta = 60 * (snd delta / 60))%Z).
  { pose proof (Z.div_mod (snd delta) 60). lia. }
  replace (hour d * 3600 + minute d * 60 + second d + snd delta)%Z
    with (second d + (hour d * 60 + minute d + snd delta / 60) * 60)%Z by lia.
  rewrite Z.mod_add by lia. apply Z.mod_small. lia.
Qed.

Lemma timedelta_minutes (value : Z) (u : unit_kind) (delta : Z * Z) :
  timedelta (value * unit_seconds u) = Ok delta -> (snd delta mod 60 = 0)%Z.
Proof.
  unfold timedelta. cbv zeta.
  destruct (Z.abs _ >? MAXDELTADAYS)%Z; [discriminate|]. intros [= <-]. simpl.
  rewrite (Z.mod_mod_divide _ 86400 60) by (exists 1440%Z; lia).
  destruct u; simpl.
  - replace (value * 3600)%Z with ((value * 60) * 60)%Z by lia. apply Z.mod_mul. lia.
  - apply Z.mod_mul. lia.
  - replace (value * 86400)%Z with ((value * 1440) * 60)%Z by lia. apply Z.mod_mul. lia.
Qed.

(** X3: a relative time is the base moved by whole minutes: its seconds and
    microseconds are those of the base. *)
Theorem extract_relative_time_keeps_seconds (now : datetime) (txt : text)
    (base : option datetime) (d : datetime) :
  (0 <= second (default_now now base) < 60)%Z ->
  extract_relative_time now txt base = Ok (Some d) ->
  second d = second (default_now now base)
  /\ microsecond d = microsecond (default_now now base).
Proof.
  intros Hs. unfold extract_relative_time. cbv zeta.
  destruct (relative_loop_result (default_now now base) (lower txt)
              RELATIVE_TIME_PATTERNS RELATIVE_TIME_PATTERNS_wf)
    as [->|[[_ ->]|(value & u & _ & ->)]]; [discriminate|discriminate|].
  destruct (timedelta (value * unit_seconds u)) as [delta|e1] eqn:E1; cbn [bind];
    [|discriminate].
  destruct (dt_add (default_now now base) delta) as [r|e2] eqn:E2; cbn [bind];
    [|discriminate].
  intros [= <-].
  exact (dt_add_keeps_seconds _ _ _ Hs (timedelta_minutes _ _ _ E1) E2).
Qed.

Lemma extract_relative_time_keeps_seconds_witness :
  second (mkdt 2024 2 29 22 30 5 7) = second (default_now (fixed_clock 0) None)
  /\ microsecond (mkdt 2024 2 29 22 30 5 7)
     = microsecond (default_now (fixed_clock 0) None).
Proof.
  apply (extract_relative_time_keeps_seconds (fixed_clock 0) (py "in 36 hours") None).
  - simpl. lia.
  - vm_compute. reflexivity.
Defined.

(** X1: [extract_explicit_time] and [extract_time_range] never raise: every
    group they pass to [int] holds one or two digits, and every group they
    read is set. *)
Theorem explicit_time_and_range_never_raise (now : datetime) (txt : text)
    (base : option datetime) :
  (exists r, extract_explicit_time now txt base = Ok r)
  /\ (exists r, extract_time_range now txt base = Ok r).
Proof.
  split.
  - destruct (extract_explicit_time_total now txt base) as (r & Hr & _). eauto.
  - destruct (extract_time_range_total now txt base) as (r & Hr & _). eauto.
Qed.

(** ** merge_datetime_time *)

Lemma clock_time_dec (t : TimeOfDay) :
  ((0 <=? fst t) && (fst t <=? 23) && (0 <=? snd t) && (snd t <=? 59))%Z = true
  <-> clock_time t.
Proof.
  unfold clock_time. rewrite !andb_true_iff, !Z.leb_le. tauto.
Qed.

(** X4: [merge_datetime_time] succeeds exactly for a time of the clock; it
    then keeps the day, sets the hour and the minute and clears the seconds
    and microseconds, so that of two merges the later one decides; any other
    time raises [ValueError]. *)
Theorem merge_datetime_time_spec (d : datetime) (t : TimeOfDay) :
  (clock_time t ->
   merge_datetime_time d (Some t)
   = Ok (mkdt (year d) (month d) (day d) (fst t) (snd t) 0 0))
  /\ (~ clock_time t -> merge_datetime_time d (Some t) = Raise ValueError)
  /\ (forall t' d', merge_datetime_time d (Some t') = Ok d' ->
                    merge_datetime_time d' (Some t) = merge_datetime_time d (Some t)).
Proof.
  destruct t as [h m]. unfold merge_datetime_time, replace_time.
  pose proof (clock_time_dec (h, m)) as Hdec. cbn [fst snd] in *.
  repeat split.
  - intros Hc. apply Hdec in Hc. now rewrite Hc.
  - intros Hc.
    destruct ((0 <=? h) && (h <=? 23) && (0 <=? m) && (m <=? 59))%Z;
      [|reflexivity].
    exfalso. apply Hc, Hdec. reflexivity.
  - intros [h' m'] d'.
    destruct ((0 <=? h') && (h' <=? 23) && (0 <=? m') && (m' <=? 59))%Z;
      [|discriminate].
    intros [= <-]. reflexivity.
Qed.

Lemma merge_datetime_time_spec_witness :
  merge_datetime_time (fixed_clock 0) (Some (17, 0)%Z)
  = Ok (mkdt 2024 2 28 17 0 0 0).
Proof.
  destruct (merge_datetime_time_spec (fixed_clock 0) (17, 0)%Z) as [H _].
  apply H. unfold clock_time. simpl. lia.
Defined.

(** ** Texts without digits *)

Lemma cls_eqb_eq (a b : cls) : cls_eqb a b = true -> a = b.
Proof. destruct a, b; simpl; congruence. Qed.

Lemma must_sound (ic : bool) (k : cls) :
  forall r p q, must k r = true -> In q (matches ic r p) ->
    exists c, In c (after p) /\ in_cls k c = true.
Proof.
  induction r as [|c|a IHa b IHb|a IHa b IHb|a IHa|k' lo hi|n a IHa|];
    intros p q Hm Hq; simpl in Hm, Hq; try discriminate.
  - apply in_flat_map in Hq. destruct Hq as (m & Hma & Hq).
    apply orb_true_iff in Hm. destruct Hm as [Hm|Hm]; [eauto|].
    destruct (IHb _ _ Hm Hq) as (c & Hc & Hk).
    destruct (matches_span ic a p m Hma) as (w & _ & Hw).
    exists c. split; [|exact Hk]. rewrite Hw. apply in_or_app. now right.
  - apply andb_true_iff in Hm. destruct Hm as [Hma Hmb].
    apply in_app_or in Hq. destruct Hq; eauto.
  - destruct lo as [|lo]; [discriminate|]. apply cls_eqb_eq in Hm. subst k'.
    destruct (rep_spec _ _ _ _ _ _ _ Hq) as (w & _ & Hr & _ & Hall & Hlo & _).
    destruct w as [|x w]; [simpl in Hlo; lia|].
    simpl in Hall. apply andb_true_iff in Hall. destruct Hall as [Hx _].
    exists x. split; [rewrite Hr; now left|exact Hx].
  - apply in_map_iff in Hq. destruct Hq as (m & _ & Hma). eauto.
Qed.

Lemma search_from_must (ic : bool) (k : cls) (r : regex) :
  must k r = true ->
  forall s l, forallb (fun c => negb (in_cls k c)) s = true ->
    search_from ic r l s = None.
Proof.
  intros Hm.
  assert (Hat : forall l s, forallb (fun c => negb (in_cls k c)) s = true ->
                            match_at ic r l s = None).
  { intros l s Hall. unfold match_at.
    destruct (matches ic r (mkpos l s [])) as [|q qs] eqn:E; [reflexivity|].
    destruct (must_sound ic k r (mkpos l s []) q Hm) as (c & Hc & Hk).
    { rewrite E. now left. }
    simpl in Hc. rewrite forallb_forall in Hall. specialize (Hall c Hc).
    rewrite Hk in Hall. discriminate. }
  induction s as [|x s IH]; intros l Hall; simpl; rewrite (Hat _ _ Hall).
  - reflexivity.
  - simpl in Hall. apply andb_true_iff in Hall. destruct Hall. auto.
Qed.

Lemma isdecimal_lower : forall c, isdecimal (lower_char c) = isdecimal c.
Proof.
  by_chars (fun c => Bool.eqb (isdecimal (lower_char c)) (isdecimal c)).
  apply eqb_prop.
Qed.

Lemma no_digit_lower (txt : text) :
  forallb (fun c => negb (isdecimal c)) txt = true ->
  forallb (fun c => negb (in_cls Digit c)) (lower txt) = true.
Proof.
  intros H. unfold lower. rewrite forallb_forall in *. intros c Hc.
  apply in_map_iff in Hc. destruct Hc as (x & <- & Hx). simpl.
  rewrite isdecimal_lower. now apply H.
Qed.

Lemma range_patterns_must :
  forallb (fun pk : regex * range_kind => must Digit (fst pk)) TIME_RANGE_PATTERNS = true.
Proof. vm_compute. reflexivity. Qed.

Lemma relative_patterns_must :
  forallb (fun pk : regex * unit_kind => must Digit (fst pk)) RELATIVE_TIME_PATTERNS = true.
Proof. vm_compute. reflexivity. Qed.

Lemma time_patterns_must :
  forallb (fun pk : regex * time_kind =>
             match snd pk with
             | T12h | Tat_12h | T24h => must Digit (fst pk)
             | _ => true
             end) TIME_PATTERNS = true.
Proof. vm_compute. reflexivity. Qed.

Lemma range_loop_no_digit (s : text) (base : datetime) :
  forallb (fun c => negb (in_cls Digit c)) s = true ->
  forall patterns,
    forallb (fun pk : regex * range_kind => must Digit (fst pk)) patterns = true ->
    range_loop patterns s base = Ok None.
Proof.
  intros Hs. induction patterns as [|[r k] ps IH]; intros Hm; simpl; [reflexivity|].
  simpl in Hm. apply andb_true_iff in Hm. destruct Hm as [Hr Hps].
  unfold search. rewrite (search_from_must true Digit r Hr s [] Hs). auto.
Qed.

Lemma relative_loop_no_digit (s : text) (base : datetime) :
  forallb (fun c => negb (in_cls Digit c)) s = true ->
  forall patterns,
    forallb (fun pk : regex * unit_kind => must Digit (fst pk)) patterns = true ->
    relative_loop patterns s base = Ok None.
Proof.
  intros Hs. induction patterns as [|[r k] ps IH]; intros Hm; simpl; [reflexivity|].
  simpl in Hm. apply andb_true_iff in Hm. destruct Hm as [Hr Hps].
  unfold search. rewrite (search_from_must false Digit r Hr s [] Hs). auto.
Qed.

Lemma explicit_loop_no_digit (s : text) :
  forallb (fun c => negb (in_cls Digit c)) s = true ->
  forall patterns,
    forallb (fun pk : regex * time_kind =>
               match snd pk with
               | T12h | Tat_12h | T24h => must Digit (fst pk)
               | _ => true
               end) patterns = true ->
    explicit_loop patterns s = Ok None
    \/ explicit_loop patterns s = Ok (Some (20, 0)%Z).
Proof.
  intros Hs. induction patterns as [|[r k] ps IH]; intros Hm; simpl; [now left|].
  simpl in Hm. apply andb_true_iff in Hm. destruct Hm as [Hr Hps].
  destruct (search true r s) as [m|] eqn:E; [|auto].
  destruct k; simpl;
    try (unfold search in E; rewrite (search_from_must true Digit r Hr s [] Hs) in E;
         discriminate);
    auto.
Qed.

(** X5: a text without a decimal digit holds no time range and no relative
    time, and the only times of day it can give are those of the key words
    [noon], [midnight] and [at night]. *)
Theorem no_digit_no_time (now : datetime) (txt : text) (base : option datetime) :
  forallb (fun c => negb (isdecimal c)) txt = true ->
  extract_time_range now txt base = Ok None
  /\ extract_relative_time now txt base = Ok None
  /\ (extract_explicit_time now txt base = Ok None
      \/ exists t, extract_explicit_time now txt base = Ok (Some t)
                   /\ key_word_time t).
Proof.
  intros H. apply no_digit_lower in H. repeat split.
  - apply range_loop_no_digit; [exact H|exact range_patterns_must].
  - apply relative_loop_no_digit; [exact H|exact relative_patterns_must].
  - unfold extract_explicit_time, key_word_time. cbv zeta.
    destruct (found (search false re_noon (lower txt))); [right; eauto|].
    destruct (found (search false re_midnight (lower txt))); [right; eauto 6|].
    destruct (found (search false re_at_night (lower txt))); [right; eauto 6|].
    destruct (explicit_loop_no_digit (lower txt) H TIME_PATTERNS time_patterns_must)
      as [->| ->]; [now left|right; eauto 6].
Qed.

Lemma no_digit_no_time_witness :
  extract_time_range (fixed_clock 0) (py "lunch at noon") None = Ok None
  /\ extract_relative_time (fixed_clock 0) (py "lunch at noon") None = Ok None
  /\ (extract_explicit_time (fixed_clock 0) (py "lunch at noon") None = Ok None
      \/ exists t, extract_explicit_time (fixed_clock 0) (py "lunch at noon") None
                   = Ok (Some t) /\ key_word_time t).
Proof.
  apply (no_digit_no_time (fixed_clock 0) (py "lunch at noon") None).
  vm_compute. reflexivity.
Defined.

(** ** The base of a range *)

Lemma range_of_match_base (k : range_kind) (m : Match) (b1 b2 : datetime) :
  match range_of_match k m b1, range_of_match k m b2 with
  | Ok r1, Ok r2 =>
      snd r1 = snd r2
      /\ (fst r1 = fst r2 \/ (fst r1 = time_of b1 /\ fst r2 = time_of b2))
  | Raise e1, Raise e2 => e1 = e2
  | _, _ => False
  end.
Proof.
  unfold range_of_match, time_of.
  destruct k;
    repeat match goal with
           | |- context [int_group m ?n] => destruct (int_group m n); cbn [bind]
           | |- context [lower_group m ?n] => destruct (lower_group m n); cbn [bind]
           end;
    simpl; auto.
Qed.

(** X6: whether [extract_time_range] finds a range, and the end of the range,
    do not depend on the base date; the start depends on it only when it is
    the time of the base itself (the ranges from [now]). *)
Theorem extract_time_range_base (txt : text) (now1 now2 : datetime)
    (base1 base2 : option datetime) :
  (extract_time_range now1 txt base1 = Ok None
   /\ extract_time_range now2 txt base2 = Ok None)
  \/ exists r1 r2,
       extract_time_range now1 txt base1 = Ok (Some r1)
       /\ extract_time_range now2 txt base2 = Ok (Some r2)
       /\ snd r1 = snd r2
       /\ (fst r1 = fst r2
           \/ (fst r1 = time_of (default_now now1 base1)
               /\ fst r2 = time_of (default_now now2 base2))).
Proof.
  unfold extract_time_range. cbv zeta.
  generalize (default_now now1 base1) (default_now now2 base2). intros b1 b2.
  destruct (range_loop_bound b1 TIME_RANGE_PATTERNS (lower txt) TIME_RANGE_PATTERNS_wf)
    as (r1 & Hr1 & _).
  destruct (range_loop_bound b2 TIME_RANGE_PATTERNS (lower txt) TIME_RANGE_PATTERNS_wf)
    as (r2 & Hr2 & _).
  revert r1 r2 Hr1 Hr2. generalize TIME_RANGE_PATTERNS.
  induction l as [|[r k] ps IH]; intros r1 r2; simpl.
  - intros [= <-] [= <-]. now left.
  - destruct (search true r (lower txt)) as [m|]; [|apply IH].
    pose proof (range_of_match_base k m b1 b2) as Hb.
    destruct (range_of_match k m b1) as [x1|e1], (range_of_match k m b2) as [x2|e2];
      cbn [bind]; try discriminate; try contradiction.
    intros [= <-] [= <-]. right. exists x1, x2. tauto.
Qed.

(** ** What normalize_text leaves *)

Lemma wall_span (P : text -> bool) :
  forall s acc,
    wall P acc s = flush_all P (rev (word_prefix s) ++ acc) && wall P [] (word_rest s).
Proof.
  induction s as [|x s IH]; intros acc; simpl.
  - now rewrite andb_true_r.
  - destruct (isword x) eqn:E.
    + rewrite IH. simpl. now rewrite <- app_assoc.
    + simpl. now rewrite E.
Qed.

Lemma flush_all_rev (P : text -> bool) (u : text) :
  u <> [] -> flush_all P (rev u) = P u.
Proof.
  intros Hu. unfold flush_all. rewrite rev_involutive.
  destruct (rev u) eqn:E; [|reflexivity].
  apply (f_equal (@rev char)) in E. rewrite rev_involutive in E. now subst.
Qed.

(** [re.search] finds [\bw\b] exactly when a run of the text is [w]. *)
Lemma search_word_runs (w : text) :
  wordy w ->
  forall s l,
    search_from false (word_re w) l s = None
    <-> (if isword_at l then wall (is_not w) [] (word_rest s)
         else wall (is_not w) [] s) = true.
Proof.
  intros Hw. induction s as [|x s IH]; intros l.
  - simpl. rewrite (word_match_end w Hw l [] eq_refl). now destruct (isword_at l).
  - cbn [search_from]. destruct (isword x) eqn:Hx.
    + destruct (isword_at l) eqn:Hl.
      * rewrite (word_match_none w l (x :: s) Hl) by (simpl; exact Hx).
        rewrite (IH (x :: l)). simpl. now rewrite Hx.
      * rewrite (word_match_at w Hw l (x :: s) Hl).
        rewrite (wall_span (is_not w) (x :: s) []), app_nil_r.
        rewrite flush_all_rev by (simpl; rewrite Hx; discriminate).
        unfold is_not at 1.
        destruct (text_eqb (word_prefix (x :: s)) w).
        -- simpl. split; discriminate.
        -- rewrite (IH (x :: l)). simpl. now rewrite Hx.
    + rewrite (word_match_end w Hw l (x :: s)) by (simpl; exact Hx).
      rewrite (IH (x :: l)). simpl. rewrite ?Hx. simpl. rewrite ?Hx.
      destruct (isword_at l); simpl; rewrite ?Hx; reflexivity.
Qed.

Lemma wall_wmap (P : text -> bool) (f : text -> text) :
  keeps_words f ->
  forall s acc, forallb isword acc = true ->
    wall P [] (wmap f acc s) = wall (fun u => P (f u)) acc s.
Proof.
  intros Hf.
  assert (Hword : forall v rest, wordy v -> isword_at rest = false ->
                    wall P [] (v ++ rest) = P v && wall P [] rest).
  { intros v rest [Hne Hall] Hr.
    rewrite (wall_span P (v ++ rest) []), app_nil_r.
    assert (Hp : word_prefix (v ++ rest) = v /\ word_rest (v ++ rest) = rest).
    { clear Hne. induction v as [|c v IHv]; simpl.
      - destruct rest as [|y t]; [auto|]. simpl in Hr. simpl. now rewrite Hr.
      - simpl in Hall. apply andb_true_iff in Hall. destruct Hall as [Hc Hv].
        rewrite Hc. destruct (IHv Hv) as [-> ->]. auto. }
    destruct Hp as [-> ->]. now rewrite (flush_all_rev P v Hne). }
  induction s as [|x s IH]; intros acc Hacc; simpl.
  - destruct acc as [|a acc]; [reflexivity|]. unfold flush, flush_all.
    pose proof (Hf _ (wordy_rev (a :: acc) ltac:(discriminate) Hacc)) as Hv.
    rewrite <- (app_nil_r (f (rev (a :: acc)))).
    rewrite (Hword _ [] Hv eq_refl). simpl. now rewrite app_nil_r, andb_true_r.
  - destruct (isword x) eqn:Hx.
    + apply IH. simpl. now rewrite Hx.
    + destruct acc as [|a acc].
      * simpl. rewrite Hx. simpl. now rewrite (IH [] eq_refl).
      * unfold flush, flush_all.
        pose proof (Hf _ (wordy_rev (a :: acc) ltac:(discriminate) Hacc)) as Hv.
        rewrite (Hword _ _ Hv) by (simpl; exact Hx).
        simpl. rewrite Hx. simpl. now rewrite (IH [] eq_refl).
Qed.

Lemma wall_true (P : text -> bool) :
  (forall u, P u = true) -> forall s acc, wall P acc s = true.
Proof.
  intros HP.
  assert (Hflush : forall acc, flush_all P acc = true).
  { intros [|a acc]; [reflexivity|apply HP]. }
  induction s as [|x s IH]; intros acc; simpl; [apply Hflush|].
  destruct (isword x); [apply IH|]. now rewrite Hflush, IH.
Qed.

Lemma expand_not_abbreviation (w : text) :
  In w abbreviation_words -> forall u, is_not w (expand u) = true.
Proof.
  intros Hw u. unfold abbreviation_words in Hw. cbn [map In] in Hw.
  unfold is_not, expand, swap.
  destruct Hw as [<-|[<-|[<-|[<-|[]]]]];
    (destruct (text_eqb u (py "tmr")) eqn:E1; [reflexivity|]; cbv iota;
     destruct (text_eqb u (py "yest")) eqn:E2; [reflexivity|]; cbv iota;
     destruct (text_eqb u (py "tdy")) eqn:E3; [reflexivity|]; cbv iota;
     destruct (text_eqb u (py "tn")) eqn:E4; [reflexivity|]; cbv iota;
     now rewrite ?E1, ?E2, ?E3, ?E4).
Qed.

Lemma abbreviation_wordy (w : text) : In w abbreviation_words -> wordy w.
Proof.
  intros Hw. unfold abbreviation_words in Hw. cbn [map In] in Hw.
  destruct Hw as [<-|[<-|[<-|[<-|[]]]]]; (split; [discriminate|reflexivity]).
Qed.

(** X7: no abbreviation is left in the normalized text: for each of [tmr],
    [yest], [tdy] and [tn], the pattern [\bw\b] finds nothing in it. *)
Theorem normalize_text_leaves_no_abbreviation (txt : text) (w : text) :
  In w abbreviation_words ->
  search false (word_re w) (normalize_text txt) = None.
Proof.
  intros Hw. unfold search.
  apply (search_word_runs w (abbreviation_wordy w Hw)). simpl isword_at. cbv iota.
  rewrite normalize_text_runs.
  rewrite (wall_wmap (is_not w) expand keeps_words_expand _ [] eq_refl).
  apply wall_true. apply expand_not_abbreviation, Hw.
Qed.

Lemma normalize_text_leaves_no_abbreviation_witness :
  search false (word_re (py "tmr")) (normalize_text (py "Call mom TMR, or tmr.")) = None.
Proof.
  apply (normalize_text_leaves_no_abbreviation (py "Call mom TMR, or tmr.") (py "tmr")).
  simpl. auto.
Defined.

(** X8: [str.lower] changes no character of the normalized text, which has
    no [@] and no white space at either end; made from characters below
    256, it has no upper-case letter. *)
Theorem normalize_text_shape (txt : text) :
  lowered (normalize_text txt) /\ no_at (normalize_text txt)
  /\ trimmed (normalize_text txt)
  /\ (latin txt -> no_upper (normalize_text txt)).
Proof.
  split; [apply lowered_normalize_text|].
  split; [apply no_at_normalize_text|].
  split; [apply trimmed_normalize_text|].
  apply no_upper_normalize_text.
Qed.

Lemma normalize_text_blank (txt : text) : blank txt = true -> normalize_text txt = [].
Proof.
  intros Hb. rewrite normalize_text_runs.
  assert (Hs : strip (lower txt) = []).
  { apply strip_nil. rewrite forallb_lower_space. now apply blank_spaces. }
  now rewrite Hs.
Qed.

(** X9: the normalized text is empty exactly when the text is blank. *)
Theorem normalize_text_empty_iff_blank (txt : text) :
  normalize_text txt = [] <-> blank txt = true.
Proof.
  split.
  - intros H. destruct (blank txt) eqn:Hb; [reflexivity|].
    now destruct (normalize_text_nonempty txt Hb).
  - apply normalize_text_blank.
Qed.

(** [normalize_text] does to its own result nothing more. *)
Lemma normalize_text_fixed (s : text) :
  normalize_text (normalize_text s) = normalize_text s.
Proof.
  rewrite (normalize_text_runs (normalize_text s)).
  rewrite (lower_fix _ (lowered_normalize_text s)).
  rewrite (strip_fix _ (trimmed_normalize_text s)).
  rewrite (replace_fix _ _ (no_at_normalize_text s)).
  rewrite (normalize_text_runs s).
  rewrite (wmap_wmap expand expand keeps_words_expand _ [] eq_refl).
  apply wmap_ext; [|reflexivity].
  intros u _. apply expand_expand.
Qed.

(** ** parse: letter case, intent, dates and errors *)

Lemma lower_lower (s : text) : lower (lower s) = lower s.
Proof. apply lower_fix, lowered_lower. Qed.

Lemma blank_lower (s : text) : blank (lower s) = blank s.
Proof.
  apply eq_true_iff_eq. rewrite !blank_spaces, forallb_lower_space. tauto.
Qed.

Lemma normalize_text_lower (s : text) : normalize_text (lower s) = normalize_text s.
Proof. unfold normalize_text. now rewrite lower_lower. Qed.

Lemma extract_time_range_lower (now : datetime) (s : text) (b : option datetime) :
  extract_time_range now (lower s) b = extract_time_range now s b.
Proof. unfold extract_time_range. now rewrite lower_lower. Qed.

Lemma extract_explicit_time_lower (now : datetime) (s : text) (b : option datetime) :
  extract_explicit_time now (lower s) b = extract_explicit_time now s b.
Proof. unfold extract_explicit_time. now rewrite lower_lower. Qed.

Lemma extract_time_lower (now : datetime) (s : text) (d : option datetime) :
  extract_time now (lower s) d = extract_time now s d.
Proof.
  unfold extract_time. cbv zeta. rewrite extract_time_range_lower.
  destruct (extract_time_range now s _) as [[r|]|e]; cbn [bind]; try reflexivity.
  now rewrite extract_explicit_time_lower.
Qed.

(** [extract_explicit_time] never reads its base date. *)
Lemma extract_explicit_time_base (now1 now2 : datetime) (txt : text)
    (b1 b2 : option datetime) :
  extract_explicit_time now1 txt b1 = extract_explicit_time now2 txt b2.
Proof. reflexivity. Qed.

(** Where the text has no range, [extract_time] returns what
    [extract_explicit_time] finds. *)
Lemma extract_time_no_range (now0 now : datetime) (txt : text)
    (b0 d : option datetime) :
  extract_time_range now0 txt b0 = Ok None ->
  extract_time now txt d = extract_explicit_time now txt None.
Proof.
  intros H0. unfold extract_time. cbv zeta.
  destruct (extract_time_range_total now0 txt b0) as (r0 & Hr0 & Hf0 & _).
  destruct (extract_time_range_total now txt (Some (default_now now d)))
    as (r & Hr & Hf & _).
  rewrite Hr. cbn [bind].
  rewrite H0 in Hr0. injection Hr0 as <-.
  destruct r as [rg|].
  - exfalso. destruct Hf0 as [_ Hf0]. destruct Hf as [Hf _].
    apply Hf0; [apply Hf; discriminate|reflexivity].
  - rewrite (extract_explicit_time_base now now txt _ None).
    destruct (extract_explicit_time_total now txt None) as (et & Het & _).
    rewrite Het. cbn [bind]. destruct et; [reflexivity|]. now destruct (_ || _).
Qed.

Lemma merge_ok (d d' : datetime) (t : TimeOfDay) :
  merge_datetime_time d (Some t) = Ok d' ->
  d' = mkdt (year d) (month d) (day d) (fst t) (snd t) 0 0.
Proof.
  destruct t as [h m]. unfold merge_datetime_time, replace_time.
  destruct (_ && _)%bool; [|discriminate]. now intros [= <-].
Qed.

Lemma merge_raise (d : datetime) (t : TimeOfDay) (e : exn) :
  merge_datetime_time d (Some t) = Raise e -> e = ValueError /\ ~ clock_time t.
Proof.
  destruct t as [h m]. unfold merge_datetime_time, replace_time.
  pose proof (clock_time_dec (h, m)) as Hdec. cbn [fst snd] in Hdec.
  destruct (_ && _)%bool; [discriminate|]. intros [= <-].
  split; [reflexivity|]. intros Hc. apply Hdec in Hc. discriminate.
Qed.

Lemma length_zpad (w : nat) : forall n, length (zpad w n) = w.
Proof.
  induction w as [|w IH]; intros n; simpl; [reflexivity|].
  rewrite length_app, IH. simpl. lia.
Qed.

Lemma isoformat_date (d : datetime) : firstn 10 (isoformat d) = date_of d.
Proof.
  unfold isoformat, date_of.
  rewrite !app_assoc. rewrite <- !app_assoc.
  set (rest := py "T" ++ _).
  replace (zpad 4 (year d) ++ py "-" ++ zpad 2 (month d) ++ py "-"
           ++ zpad 2 (day d) ++ rest)
    with ((zpad 4 (year d) ++ py "-" ++ zpad 2 (month d) ++ py "-"
           ++ zpad 2 (day d)) ++ rest)
    by (now rewrite <- !app_assoc).
  rewrite firstn_app.
  assert (Hl : length (zpad 4 (year d) ++ py "-" ++ zpad 2 (month d) ++ py "-"
                       ++ zpad 2 (day d)) = 10).
  { rewrite !length_app, !length_zpad. reflexivity. }
  rewrite Hl. rewrite Nat.sub_diag. simpl firstn at 2. rewrite app_nil_r.
  apply firstn_all2. rewrite Hl. apply Nat.le_refl.
Qed.

Section ParseMore.

Variable nlp : text -> Doc.
Variable dateparser_parse : text -> datetime -> option datetime.
Variable cal_parseDT : text -> datetime -> datetime * Z.
Variable clock : nat -> datetime.

Lemma extract_datetime_raise (now : datetime) (txt : text) (e : exn) :
  extract_datetime dateparser_parse cal_parseDT now txt = Raise e ->
  extract_relative_time now txt (Some now) = Raise e
  /\ (e = OverflowError
      \/ (e = ValueError /\ long_number RELATIVE_TIME_PATTERNS (lower txt))).
Proof.
  unfold extract_datetime. cbv zeta.
  destruct (dateparser_parse _ _); [discriminate|].
  destruct (cal_parseDT _ _) as [res status].
  destruct (status >? 0)%Z; [discriminate|].
  destruct (extract_relative_time now txt (Some now)) as [[d|]|e'] eqn:E;
    cbn [bind]; try discriminate.
  intros [= <-]. split; [reflexivity|]. exact (relative_time_raise _ _ _ _ E).
Qed.

(** [parse] on a text that is not blank, with [extract_time] replaced by
    the [extract_explicit_time] it comes to. *)
Lemma parse_not_blank (txt : text) :
  blank txt = false ->
  exists tr,
    extract_time_range (clock 0) txt None = Ok tr
    /\ parse nlp dateparser_parse cal_parseDT clock txt
       = (date_obj <- extract_datetime dateparser_parse cal_parseDT (clock 1)
                        (normalize_text txt) ;;
          match tr with
          | Some (start_time, end_time) =>
              start_datetime <-
                merge_datetime_time
                  (match date_obj with Some d => d | None => clock 2 end)
                  (Some start_time) ;;
              end_datetime <-
                merge_datetime_time
                  (match date_obj with Some d => d | None => clock 3 end)
                  (Some end_time) ;;
              Ok (mkEvent (extract_title nlp (normalize_text txt) (Some start_datetime))
                          (Some (isoformat start_datetime))
                          (Some (isoformat end_datetime))
                          (detect_intent (normalize_text txt)))
          | None =>
              time_tuple <- extract_explicit_time (clock 2) txt None ;;
              date_obj <-
                match date_obj, time_tuple with
                | Some d, Some t => d' <- merge_datetime_time d (Some t) ;; Ok (Some d')
                | None, Some t =>
                    d' <- merge_datetime_time (clock 3) (Some t) ;; Ok (Some d')
                | _, None => Ok date_obj
                end ;;
              Ok (mkEvent (extract_title nlp (normalize_text txt) date_obj)
                          (option_map isoformat date_obj) None
                          (detect_intent (normalize_text txt)))
          end).
Proof.
  intros Hb. unfold parse. rewrite Hb.
  destruct (extract_time_range_total (clock 0) txt None) as (tr & Htr & _).
  exists tr. split; [exact Htr|]. rewrite Htr. cbn [bind].
  destruct (extract_datetime _ _ _ _) as [date_obj|e]; [|reflexivity].
  cbn [bind]. destruct tr as [[st en]|]; [reflexivity|].
  now rewrite (extract_time_no_range (clock 0) (clock 2) txt None date_obj Htr).
Qed.

Lemma parse_blank (txt : text) :
  blank txt = true ->
  parse nlp dateparser_parse cal_parseDT clock txt = Ok (mkEvent [] None None event).
Proof. intros Hb. unfold parse. now rewrite Hb. Qed.

Lemma parse_lower (txt : text) :
  parse nlp dateparser_parse cal_parseDT clock (lower txt)
  = parse nlp dateparser_parse cal_parseDT clock txt.
Proof.
  unfold parse.
  rewrite blank_lower, extract_time_range_lower, normalize_text_lower.
  destruct (blank txt); [reflexivity|].
  destruct (extract_time_range (clock 0) txt None) as [tr|e]; [|reflexivity].
  cbn [bind].
  destruct (extract_datetime _ _ _ _) as [date_obj|e]; [|reflexivity].
  cbn [bind]. destruct tr as [[st en]|]; [reflexivity|].
  now rewrite extract_time_lower.
Qed.

(** X10: [parse] does not tell upper case from lower case: two texts that
    differ in the case of their letters only have the same result. *)
Theorem parse_ignores_case (a b : text) :
  lower a = lower b ->
  parse nlp dateparser_parse cal_parseDT clock a
  = parse nlp dateparser_parse cal_parseDT clock b.
Proof.
  intros H. rewrite <- (parse_lower a), <- (parse_lower b). now rewrite H.
Qed.

(** X11: the type of the event [parse] returns is [reminder] exactly when
    the normalized text begins with [remind me]; normalizing the text a
    second time, as [detect_intent] does, changes nothing. *)
Theorem parse_intent (txt : text) (ev : ParsedEvent) :
  parse nlp dateparser_parse cal_parseDT clock txt = Ok ev ->
  (type_ ev = reminder <-> startswith (normalize_text txt) (py "remind me") = true).
Proof.
  destruct (blank txt) eqn:Hb.
  - rewrite (parse_blank txt Hb). intros [= <-].
    rewrite (normalize_text_blank txt Hb). simpl. split; discriminate.
  - destruct (parse_not_blank txt Hb) as (tr & _ & ->).
    assert (Hi : detect_intent (normalize_text txt) = reminder
                 <-> startswith (normalize_text txt) (py "remind me") = true).
    { unfold detect_intent. cbv zeta. rewrite normalize_text_fixed.
      destruct (startswith _ _); split; congruence. }
    destruct (extract_datetime _ _ _ _) as [date_obj|e]; [|discriminate].
    cbn [bind]. destruct tr as [[st en]|].
    + destruct (merge_datetime_time _ (Some st)) as [sd|e]; [|discriminate].
      cbn [bind].
      destruct (merge_datetime_time _ (Some en)) as [ed|e]; [|discriminate].
      cbn [bind]. intros [= <-]. exact Hi.
    + destruct (extract_explicit_time _ _ _) as [tt|e]; [|discriminate].
      cbn [bind].
      match goal with
      | |- bind ?x _ = _ -> _ => destruct x as [d'|e]; [|discriminate]
      end.
      cbn [bind]. intros [= <-]. exact Hi.
Qed.

(** X12: [datetime] is null exactly when the text is blank, or has no time
    range, no date that the resolvers or the relative-time rule recognise
    and no explicit time. *)
Theorem parse_datetime_null (txt : text) (ev : ParsedEvent) :
  parse nlp dateparser_parse cal_parseDT clock txt = Ok ev ->
  (datetime_ ev = None
   <-> blank txt = true
       \/ (extract_time_range (clock 0) txt None = Ok None
           /\ extract_datetime dateparser_parse cal_parseDT (clock 1)
                (normalize_text txt) = Ok None
           /\ extract_explicit_time (clock 2) txt None = Ok None)).
Proof.
  destruct (blank txt) eqn:Hb.
  - rewrite (parse_blank txt Hb). intros [= <-]. simpl. tauto.
  - destruct (parse_not_blank txt Hb) as (tr & Htr & ->). rewrite Htr.
    destruct (extract_datetime _ _ _ _) as [date_obj|e]; [|discriminate].
    cbn [bind]. destruct tr as [[st en]|].
    + destruct (merge_datetime_time _ (Some st)) as [sd|e]; [|discriminate].
      cbn [bind].
      destruct (merge_datetime_time _ (Some en)) as [ed|e]; [|discriminate].
      cbn [bind]. intros [= <-]. simpl.
      split; [discriminate|]. intros [H|(H & _)]; discriminate.
    + destruct (extract_explicit_time _ _ _) as [tt|e]; [|discriminate].
      cbn [bind].
      destruct date_obj as [d|], tt as [t|]; cbn [bind].
      * destruct (merge_datetime_time _ _) as [d'|e]; [|discriminate].
        cbn [bind]. intros [= <-]. simpl.
        split; [discriminate|]. intros [H|(_ & H & _)]; discriminate.
      * intros [= <-]. simpl.
        split; [discriminate|]. intros [H|(_ & H & _)]; discriminate.
      * destruct (merge_datetime_time _ _) as [d'|e]; [|discriminate].
        cbn [bind]. intros [= <-]. simpl.
        split; [discriminate|]. intros [H|(_ & _ & H)]; discriminate.
      * intros [= <-]. simpl. split; [intros _; right; auto|reflexivity].
Qed.

(** X13: the two ends of a time range are on the same day: the day of the
    date found in the text, or today when none is found, provided the third
    and the fourth reading of the clock are on the same day. *)
Theorem parse_range_same_day (txt : text) (ev : ParsedEvent) (s e : text) :
  date_of (clock 2) = date_of (clock 3) ->
  parse nlp dateparser_parse cal_parseDT clock txt = Ok ev ->
  datetime_ ev = Some s -> end_time ev = Some e ->
  firstn 10 s = firstn 10 e.
Proof.
  intros Hc. destruct (blank txt) eqn:Hb.
  { rewrite (parse_blank txt Hb). intros [= <-]. discriminate. }
  destruct (parse_not_blank txt Hb) as (tr & _ & ->).
  destruct (extract_datetime _ _ _ _) as [date_obj|e']; [|discriminate].
  cbn [bind]. destruct tr as [[st en]|].
  - destruct (merge_datetime_time _ (Some st)) as [sd|e'] eqn:Es; [|discriminate].
    cbn [bind].
    destruct (merge_datetime_time _ (Some en)) as [ed|e'] eqn:Ee; [|discriminate].
    cbn [bind]. intros [= <-]. cbn [datetime_ end_time]. intros [= <-] [= <-].
    rewrite !isoformat_date.
    apply merge_ok in Es, Ee. subst sd ed. unfold date_of. cbn [year month day].
    destruct date_obj as [d|]; [reflexivity|exact Hc].
  - destruct (extract_explicit_time _ _ _) as [tt|e']; [|discriminate].
    cbn [bind].
    match goal with
    | |- bind ?x _ = _ -> _ => destruct x as [d'|e']; [|discriminate]
    end.
    cbn [bind]. intros [= <-]. simpl. discriminate.
Qed.

(** X14: what [parse] raises: what [extract_relative_time] raises on the
    normalized text, [OverflowError] or, for a number of more than 4300
    digits, [ValueError]; or [ValueError] for a time found in the text, an
    end of its range or its explicit time, that is not a time of the
    clock. *)
Theorem parse_raise_causes (txt : text) (e : exn) :
  parse nlp dateparser_parse cal_parseDT clock txt = Raise e ->
  (extract_relative_time (clock 1) (normalize_text txt) (Some (clock 1)) = Raise e
   /\ (e = OverflowError
       \/ (e = ValueError
           /\ long_number RELATIVE_TIME_PATTERNS (normalize_text txt))))
  \/ (e = ValueError
      /\ exists t, ~ clock_time t
           /\ ((exists r, extract_time_range (clock 0) txt None = Ok (Some r)
                          /\ (t = fst r \/ t = snd r))
               \/ extract_explicit_time (clock 2) txt None = Ok (Some t))).
Proof.
  destruct (blank txt) eqn:Hb.
  { rewrite (parse_blank txt Hb). discriminate. }
  destruct (parse_not_blank txt Hb) as (tr & Htr & ->).
  destruct (extract_datetime _ _ _ _) as [date_obj|e'] eqn:Ed; cbn [bind].
  2:{ intros [= <-]. left.
      destruct (extract_datetime_raise _ _ _ Ed) as [H1 H2].
      split; [exact H1|].
      now rewrite (lower_fix _ (lowered_normalize_text txt)) in H2. }
  destruct tr as [[st en]|].
  - destruct (merge_datetime_time _ (Some st)) as [sd|e'] eqn:Es; cbn [bind].
    2:{ intros [= <-]. right. destruct (merge_raise _ _ _ Es) as [-> Hn].
        split; [reflexivity|]. exists st. split; [exact Hn|]. left.
        exists (st, en). split; [exact Htr|]. now left. }
    destruct (merge_datetime_time _ (Some en)) as [ed|e'] eqn:Ee; cbn [bind];
      [discriminate|].
    intros [= <-]. right. destruct (merge_raise _ _ _ Ee) as [-> Hn].
    split; [reflexivity|]. exists en. split; [exact Hn|]. left.
    exists (st, en). split; [exact Htr|]. now right.
  - destruct (extract_explicit_time_total (clock 2) txt None) as (tt & Het & _).
    rewrite Het. cbn [bind].
    destruct date_obj as [d|], tt as [t|]; cbn [bind]; try discriminate.
    + destruct (merge_datetime_time _ _) as [d'|e'] eqn:Em; cbn [bind];
        [discriminate|].
      intros [= <-]. right. destruct (merge_raise _ _ _ Em) as [-> Hn].
      split; [reflexivity|]. exists t. split; [exact Hn|]. now right.
    + destruct (merge_datetime_time _ _) as [d'|e'] eqn:Em; cbn [bind];
        [discriminate|].
      intros [= <-]. right. destruct (merge_raise _ _ _ Em) as [-> Hn].
      split; [reflexivity|]. exists t. split; [exact Hn|]. now right.
Qed.

End ParseMore.

Lemma parse_ignores_case_witness :
  parse0 (py "Lunch with Ann 3PM") = parse0 (py "lunch with ann 3pm").
Proof.
  apply (parse_ignores_case plain_nlp no_dateparser no_calendar fixed_clock).
  vm_compute. reflexivity.
Defined.

Lemma parse_intent_witness :
  type_ (mkEvent (py "call mom") (Some (py "2024-02-28T17:00:00")) None reminder)
  = reminder
  <-> startswith (normalize_text (py "Remind me to call mom at 5pm"))
        (py "remind me") = true.
Proof.
  apply (parse_intent plain_nlp no_dateparser no_calendar fixed_clock
           (py "Remind me to call mom at 5pm")).
  vm_compute. reflexivity.
Defined.

Lemma parse_datetime_null_witness :
  datetime_ (mkEvent (py "call mom") None None event) = None
  <-> blank (py "call mom") = true
      \/ (extract_time_range (fixed_clock 0) (py "call mom") None = Ok None
          /\ extract_datetime no_dateparser no_calendar (fixed_clock 1)
               (normalize_text (py "call mom")) = Ok None
          /\ extract_explicit_time (fixed_clock 2) (py "call mom") None = Ok None).
Proof.
  apply (parse_datetime_null plain_nlp no_dateparser no_calendar fixed_clock
           (py "call mom")).
  vm_compute. reflexivity.
Defined.

Lemma parse_range_same_day_witness :
  firstn 10 (py "2024-02-28T14:00:00") = firstn 10 (py "2024-02-28T16:00:00").
Proof.
  apply (parse_range_same_day plain_nlp no_dateparser no_calendar fixed_clock
           (py "meeting 2-4pm")
           (mkEvent (py "meeting") (Some (py "2024-02-28T14:00:00"))
                    (Some (py "2024-02-28T16:00:00")) event));
    vm_compute; reflexivity.
Defined.

(** Without the condition on the clock the two ends can be a day apart. *)
Lemma parse_range_over_midnight :
  parse plain_nlp no_dateparser no_calendar midnight_clock (py "meeting 2-4pm")
  = Ok (mkEvent (py "meeting") (Some (py "2024-02-28T14:00:00"))
                (Some (py "2024-02-29T16:00:00")) event).
Proof. vm_compute. reflexivity. Qed.

Lemma parse_raise_causes_witness :
  (extract_relative_time (fixed_clock 1) (normalize_text (py "99pm"))
     (Some (fixed_clock 1)) = Raise ValueError
   /\ (ValueError = OverflowError
       \/ (ValueError = ValueError
           /\ long_number RELATIVE_TIME_PATTERNS (normalize_text (py "99pm")))))
  \/ (ValueError = ValueError
      /\ exists t, ~ clock_time t
           /\ ((exists r, extract_time_range (fixed_clock 0) (py "99pm") None
                          = Ok (Some r)
                          /\ (t = fst r \/ t = snd r))
               \/ extract_explicit_time (fixed_clock 2) (py "99pm") None
                  = Ok (Some t))).
Proof.
  apply (parse_raise_causes plain_nlp no_dateparser no_calendar fixed_clock
           (py "99pm") ValueError).
  vm_compute. reflexivity.
Defined.

(** [parse] raises [ValueError] on the text with the number of 4301 digits,
    in which nothing overflows and no time of day is read. *)
Lemma parse_raises_on_long_number : parse0 long_number_text = Raise ValueError.
Proof.
  assert (Hb : blank long_number_text = false) by (vm_compute; reflexivity).
  assert (Hn : normalize_text long_number_text = long_number_text)
    by (vm_compute; reflexivity).
  unfold parse0, parse. rewrite Hb.
  destruct (extract_time_range_total (fixed_clock 0) long_number_text None)
    as (tr & -> & _).
  cbn [bind]. rewrite Hn.
  unfold extract_datetime, no_dateparser, no_calendar.
  rewrite extract_relative_time_long_number. reflexivity.
Qed.

(** ** The tokens to skip *)

Lemma combine_seq_nth {A : Type} (l : list A) :
  forall k i x,
    In (i, x) (combine (List.seq k (length l)) l)
    <-> k <= i /\ nth_error l (i - k) = Some x.
Proof.
  induction l as [|a l IH]; intros k i x; simpl.
  - split; [tauto|]. intros [_ H]. destruct (i - k); discriminate.
  - rewrite IH. split.
    + intros [[= <- <-]|[Hk Hn]].
      * split; [lia|]. now rewrite Nat.sub_diag.
      * split; [lia|]. replace (i - k) with (S (i - S k)) by lia. exact Hn.
    + intros [Hk Hn]. destruct (i - k) as [|n] eqn:E.
      * left. simpl in Hn. injection Hn as ->. f_equal. lia.
      * right. simpl in Hn. split; [lia|].
        replace (i - S k) with n by lia. exact Hn.
Qed.

Lemma enumerate_nth {A : Type} (l : list A) (i : nat) (x : A) :
  In (i, x) (enumerate l) <-> nth_error l i = Some x.
Proof.
  unfold enumerate. rewrite combine_seq_nth, Nat.sub_0_r.
  split; [tauto|]. intros H. split; [lia|exact H].
Qed.

Lemma enumerate_lt {A : Type} (l : list A) (i : nat) (x : A) :
  In (i, x) (enumerate l) -> i < length l.
Proof.
  intros H. apply enumerate_nth in H. apply nth_error_Some. congruence.
Qed.

Ltac split_tests :=
  repeat match goal with
         | H : (_ && _)%bool = true |- _ =>
             apply andb_true_iff in H; destruct H
         end;
  repeat match goal with
         | H : (_ <? _) = true |- _ => apply Nat.ltb_lt in H
         end.

Lemma get_time_phrase_indices_lt (doc : Doc) (token : Token) (i j : nat) :
  i < length doc -> In j (get_time_phrase_indices doc token i) -> j < length doc.
Proof.
  intros Hi. unfold get_time_phrase_indices. cbv zeta.
  repeat match goal with
         | |- context [if ?b then _ else _] =>
             let E := fresh "E" in destruct b eqn:E
         end;
    simpl; intros H; split_tests; intuition lia.
Qed.

Lemma identify_tokens_to_skip_lt (doc : Doc) :
  forall j, In j (identify_tokens_to_skip doc) -> j < length doc.
Proof.
  unfold identify_tokens_to_skip.
  apply (fold_left_inv _ (fun acc => forall j, In j acc -> j < length doc)).
  - intros acc [i token] Hin Hacc j. cbv zeta.
    pose proof (enumerate_lt _ _ _ Hin) as Hi.
    repeat match goal with
           | |- context [if ?b then _ else _] => destruct b
           end;
      try (intros [<-|H]; [exact Hi|exact (Hacc _ H)]).
    intros H. apply in_app_or in H. destruct H as [H|H]; [|exact (Hacc _ H)].
    exact (get_time_phrase_indices_lt _ _ _ _ Hi H).
  - intros j [].
Qed.

(** X15: every index [_identify_tokens_to_skip] returns is an index of the
    document, also those of the neighbours of a numeral. *)
Theorem identify_tokens_to_skip_in_bounds (doc : Doc) (j : nat) :
  In j (identify_tokens_to_skip doc) -> j < length doc.
Proof. apply identify_tokens_to_skip_lt. Qed.

Lemma identify_tokens_to_skip_in_bounds_witness :
  1 < length (plain_nlp (py "in 2 hours")).
Proof.
  apply (identify_tokens_to_skip_in_bounds (plain_nlp (py "in 2 hours")) 1).
  vm_compute. tauto.
Defined.

Lemma fold_left_grows {B : Type} (f : list nat -> B -> list nat) (l : list B) :
  (forall acc b j, In j acc -> In j (f acc b)) ->
  forall acc j, In j acc -> In j (fold_left f l acc).
Proof.
  intros Hf. induction l as [|b l IH]; intros acc j Hj; simpl; [exact Hj|].
  apply IH, Hf, Hj.
Qed.

(** X16: a token with a [DATE] or [TIME] entity, a temporal word, a command
    verb or an article that [_should_skip_article] names is always among the
    tokens to skip. *)
Theorem identify_tokens_to_skip_complete (doc : Doc) (i : nat) (t : Token) :
  nth_error doc i = Some t ->
  mem (ent_type_ t) TEMPORAL_PATTERNS
  || mem (lower (tok_text t)) TEMPORAL_WORDS
  || mem (lower (tok_text t)) COMMAND_VERBS
  || should_skip_article doc t i = true ->
  In i (identify_tokens_to_skip doc).
Proof.
  intros Hn Hc. apply enumerate_nth in Hn. apply in_split in Hn.
  destruct Hn as (l1 & l2 & Hl). unfold identify_tokens_to_skip.
  rewrite Hl, fold_left_app. cbn [fold_left].
  apply fold_left_grows.
  - intros acc [k tok] j Hj. cbv zeta.
    repeat match goal with
           | |- context [if ?b then _ else _] => destruct b
           end;
      try (now right).
    apply in_or_app. now right.
  - cbv zeta.
    destruct (mem (ent_type_ t) TEMPORAL_PATTERNS); [now left|].
    destruct (mem (lower (tok_text t)) TEMPORAL_WORDS); [now left|].
    destruct (mem (lower (tok_text t)) COMMAND_VERBS); [now left|].
    destruct (should_skip_article doc t i); [now left|discriminate].
Qed.

Lemma identify_tokens_to_skip_complete_witness :
  In 2 (identify_tokens_to_skip (plain_nlp (py "call mom Tomorrow"))).
Proof.
  apply (identify_tokens_to_skip_complete (plain_nlp (py "call mom Tomorrow")) 2
           (plain_token 2 (py "Tomorrow")));
    vm_compute; reflexivity.
Defined.

Lemma mem_true (w : text) (table : list text) : In w table -> mem w table = true.
Proof.
  intros H. unfold mem. apply existsb_exists. exists w. split; [exact H|].
  apply text_eqb_refl.
Qed.

(** X17: for a token that is not a numeral and not a temporal word,
    [_get_time_phrase_indices] returns nothing: the words [in] and [at] its
    last two rules look for are temporal words, which
    [_identify_tokens_to_skip] has skipped before it asks. *)
Theorem get_time_phrase_indices_numeral_only (doc : Doc) (token : Token) (i : nat) :
  like_num token = false ->
  mem (lower (tok_text token)) TEMPORAL_WORDS = false ->
  get_time_phrase_indices doc token i = [].
Proof.
  intros Hn Hm. unfold get_time_phrase_indices. rewrite Hn. cbv zeta.
  destruct (text_eqb (lower (tok_text token)) (py "in")) eqn:Ein.
  { apply text_eqb_eq in Ein. rewrite Ein in Hm. vm_compute in Hm. discriminate. }
  destruct (text_eqb (lower (tok_text token)) (py "at")) eqn:Eat.
  { apply text_eqb_eq in Eat. rewrite Eat in Hm. vm_compute in Hm. discriminate. }
  reflexivity.
Qed.

Lemma get_time_phrase_indices_numeral_only_witness :
  get_time_phrase_indices (plain_nlp (py "dinner at night"))
    (plain_token 0 (py "dinner")) 0 = [].
Proof.
  apply (get_time_phrase_indices_numeral_only (plain_nlp (py "dinner at night"))
           (plain_token 0 (py "dinner")) 0);
    vm_compute; reflexivity.
Defined.

(** ** The infinitive phrases *)

Lemma children_lt (doc : Doc) (i j : nat) (c : Token) :
  In (j, c) (children doc i) -> j < length doc.
Proof.
  unfold children. intros H. apply filter_In in H. destruct H as [H _].
  exact (enumerate_lt _ _ _ H).
Qed.

Lemma add_phrase_children_lt (doc : Doc) (i : nat) (acc : list nat) :
  (forall j, In j acc -> j < length doc) ->
  forall j, In j (add_phrase_children doc i acc) -> j < length doc.
Proof.
  unfold add_phrase_children.
  apply (fold_left_inv _ (fun acc => forall j, In j acc -> j < length doc)).
  intros acc1 [k child] Hin Hacc.
  destruct (dep_in child _); [|exact Hacc].
  apply (fold_left_inv _ (fun acc => forall j, In j acc -> j < length doc)).
  - intros acc2 [g gg] Hin2 Hacc2.
    destruct (dep_in gg _); [|exact Hacc2].
    intros j [<-|H]; [exact (children_lt _ _ _ _ Hin2)|exact (Hacc2 _ H)].
  - intros j [<-|H]; [exact (children_lt _ _ _ _ Hin)|exact (Hacc _ H)].
Qed.

Lemma extract_infinitive_phrases_lt (doc : Doc) :
  forall j, In j (extract_infinitive_phrases doc) -> j < length doc.
Proof.
  unfold extract_infinitive_phrases.
  apply (fold_left_inv _ (fun acc => forall j, In j acc -> j < length doc)).
  2:{ intros j []. }
  intros acc token Hin Hacc.
  destruct (_ || _)%bool; [exact Hacc|].
  destruct (nth_error doc (head token)) as [v|] eqn:Ev; [|exact Hacc].
  destruct (negb _); [exact Hacc|].
  assert (Hh : head token < length doc).
  { apply nth_error_Some. congruence. }
  apply (fold_left_inv _ (fun acc => forall j, In j acc -> j < length doc)).
  - intros acc1 [k child] Hin1 Hacc1.
    pose proof (children_lt _ _ _ _ Hin1) as Hk.
    destruct (dep_in child _).
    + apply add_phrase_children_lt.
      intros j [<-|H]; [exact Hk|exact (Hacc1 _ H)].
    + destruct (text_eqb (dep_ child) _); [|exact Hacc1].
      apply (fold_left_inv _ (fun acc => forall j, In j acc -> j < length doc)).
      * intros acc2 [g pc] Hin2 Hacc2.
        destruct (text_eqb (dep_ pc) _); [|exact Hacc2].
        intros j [<-|H]; [exact (children_lt _ _ _ _ Hin2)|exact (Hacc2 _ H)].
      * intros j [<-|H]; [exact Hk|exact (Hacc1 _ H)].
  - intros j [<-|H]; [exact Hh|exact (Hacc _ H)].
Qed.

(** X18: every index [_extract_infinitive_phrases] returns is an index of
    the document. *)
Theorem extract_infinitive_phrases_in_bounds (doc : Doc) (j : nat) :
  In j (extract_infinitive_phrases doc) -> j < length doc.
Proof. apply extract_infinitive_phrases_lt. Qed.

Lemma add_phrase_children_grows (doc : Doc) (i : nat) (acc : list nat) (j : nat) :
  In j acc -> In j (add_phrase_children doc i acc).
Proof.
  unfold add_phrase_children. apply fold_left_grows.
  intros acc1 [k child] j1 Hj1.
  destruct (dep_in child _); [|exact Hj1].
  apply fold_left_grows.
  - intros acc2 [g gg] j2 Hj2. destruct (dep_in gg _); [now right|exact Hj2].
  - now right.
Qed.

Lemma extract_infinitive_phrases_turns (doc : Doc) :
  extract_infinitive_phrases doc = fold_left (infinitive_turn doc) doc [].
Proof. reflexivity. Qed.

(** One turn of the loop keeps what is in the set, adds the head of a [to]
    that marks an infinitive, and does nothing for any other token. *)
Lemma infinitive_turn_spec (doc : Doc) (acc : list nat) (token : Token) :
  (forall j, In j acc -> In j (infinitive_turn doc acc token))
  /\ (if marks_infinitive doc token
      then In (head token) (infinitive_turn doc acc token)
      else infinitive_turn doc acc token = acc).
Proof.
  unfold infinitive_turn, marks_infinitive.
  destruct (text_eqb (dep_ token) (py "mark")); cbn [negb orb andb];
    [|split; [auto|reflexivity]].
  destruct (text_eqb (lower (tok_text token)) (py "to")); cbn [negb orb andb];
    [|split; [auto|reflexivity]].
  destruct (nth_error doc (head token)) as [v|]; [|split; [auto|reflexivity]].
  destruct (text_eqb (pos_ v) (py "VERB")); cbn [negb];
    [|split; [auto|reflexivity]].
  match goal with
  | |- context [fold_left ?f (children doc (head token)) (head token :: acc)] =>
      assert (Hg : forall j, In j (head token :: acc) ->
                     In j (fold_left f (children doc (head token))
                                     (head token :: acc)))
  end.
  { intros j. apply fold_left_grows. intros acc1 [k child] j1 Hj1.
    destruct (dep_in child _).
    - apply add_phrase_children_grows. now right.
    - destruct (text_eqb (dep_ child) _); [|exact Hj1].
      apply fold_left_grows; [|now right].
      intros acc2 [g pc] j2 Hj2.
      destruct (text_eqb (dep_ pc) _); [now right|exact Hj2]. }
  split.
  - intros j Hj. apply Hg. now right.
  - apply Hg. now left.
Qed.

Lemma infinitive_turns_grow (doc : Doc) (l : list Token) :
  forall acc j, In j acc -> In j (fold_left (infinitive_turn doc) l acc).
Proof.
  apply fold_left_grows. intros acc b j.
  destruct (infinitive_turn_spec doc acc b) as [H _]. apply H.
Qed.

Lemma infinitive_turns_head (doc : Doc) (t : Token) :
  marks_infinitive doc t = true ->
  forall l acc, In t l -> In (head t) (fold_left (infinitive_turn doc) l acc).
Proof.
  intros Hm l acc Hin. apply in_split in Hin. destruct Hin as (l1 & l2 & ->).
  rewrite fold_left_app. cbn [fold_left]. apply infinitive_turns_grow.
  destruct (infinitive_turn_spec doc (fold_left (infinitive_turn doc) l1 acc) t)
    as [_ H].
  now rewrite Hm in H.
Qed.

Lemma infinitive_turns_none (doc : Doc) :
  forall l acc, existsb (marks_infinitive doc) l = false ->
    fold_left (infinitive_turn doc) l acc = acc.
Proof.
  induction l as [|t l IH]; intros acc He; [reflexivity|].
  cbn [existsb] in He. apply orb_false_iff in He. destruct He as [Ht Hl].
  cbn [fold_left]. destruct (infinitive_turn_spec doc acc t) as [_ H].
  rewrite Ht in H. rewrite H. now apply IH.
Qed.

(** X19: [_extract_infinitive_phrases] returns the empty set exactly when
    no token of the document is a [to] that marks the infinitive of a verb;
    for each such token, the index of its verb is in the set. *)
Theorem extract_infinitive_phrases_empty_iff (doc : Doc) :
  (extract_infinitive_phrases doc = []
   <-> existsb (marks_infinitive doc) doc = false)
  /\ (forall t, In t doc -> marks_infinitive doc t = true ->
                In (head t) (extract_infinitive_phrases doc)).
Proof.
  rewrite extract_infinitive_phrases_turns. split; [split|].
  - intros He. destruct (existsb (marks_infinitive doc) doc) eqn:Ex; [|reflexivity].
    apply existsb_exists in Ex. destruct Ex as (t & Hin & Hm).
    pose proof (infinitive_turns_head doc t Hm doc [] Hin) as H.
    rewrite He in H. destruct H.
  - apply infinitive_turns_none.
  - intros t Hin Hm. exact (infinitive_turns_head doc t Hm doc [] Hin).
Qed.

(** In [remind_doc] the phrase is the verb [call] and its object, the first
    three tokens are skipped, and the title is the phrase. *)
Lemma extract_infinitive_phrases_example :
  extract_infinitive_phrases remind_doc = [4; 3]
  /\ identify_tokens_to_skip remind_doc = [2; 1; 0]
  /\ build_title_from_tokens remind_doc (identify_tokens_to_skip remind_doc)
       (extract_infinitive_phrases remind_doc) = Some (py "call mom").
Proof. repeat split; vm_compute; reflexivity. Qed.

Lemma extract_infinitive_phrases_in_bounds_witness :
  3 < length remind_doc.
Proof.
  apply (extract_infinitive_phrases_in_bounds remind_doc 3).
  vm_compute. tauto.
Defined.

(** ** The title, further *)

Lemma trimmed_nil : trimmed [].
Proof. split; reflexivity. Qed.

Lemma extract_title_is_trimmed (nlp : text -> Doc) (txt : text) (d : option datetime) :
  trimmed (extract_title nlp txt d).
Proof.
  unfold extract_title. cbv zeta.
  destruct (build_title_from_tokens _ _ _) as [r|] eqn:E1.
  { unfold build_title_from_tokens in E1.
    destruct (extract_infinitive_phrases (nlp txt)); [discriminate|].
    cbv zeta in E1.
    match type of E1 with
    | context [strip ?s] => pose proof (trimmed_strip s) as H
    end.
    destruct (strip _); [discriminate|]. injection E1 as <-. exact H. }
  unfold build_title_fallback. cbv zeta.
  match goal with
  | |- context [strip ?s] => pose proof (trimmed_strip s) as H
  end.
  destruct (strip _); [|exact H].
  pose proof (trimmed_strip (join space (rev (fst (filter_loop (split txt)))))) as H3.
  unfold filter_words_fallback. cbv zeta.
  destruct (strip (join space _)); [|exact H3].
  apply trimmed_strip.
Qed.

(** *** The words of a text *)

Lemma split_go_spaceless (s : text) :
  forall cur, forallb (fun c => negb (isspace c)) cur = true ->
    Forall spaceless (split_go cur s).
Proof.
  assert (Hrev : forall cur, cur <> [] ->
                   forallb (fun c => negb (isspace c)) cur = true ->
                   spaceless (rev cur)).
  { intros cur Hne Hall. split.
    - intros E. apply Hne. rewrite <- (rev_involutive cur), E. reflexivity.
    - now rewrite forallb_rev. }
  induction s as [|c s IH]; intros cur Hcur; simpl.
  - destruct cur as [|x cur]; [constructor|].
    constructor; [|constructor]. apply Hrev; [discriminate|exact Hcur].
  - destruct (isspace c) eqn:Ec.
    + destruct cur as [|x cur]; [now apply IH|].
      constructor; [|now apply IH]. apply Hrev; [discriminate|exact Hcur].
    + apply IH. simpl. now rewrite Ec.
Qed.

Lemma split_spaceless (s : text) : Forall spaceless (split s).
Proof. now apply split_go_spaceless. Qed.

Lemma split_go_word (w : text) :
  forallb (fun c => negb (isspace c)) w = true ->
  forall cur s, split_go cur (w ++ s) = split_go (rev w ++ cur) s.
Proof.
  induction w as [|c w IH]; intros Hall cur s; [reflexivity|].
  simpl in Hall. apply andb_true_iff in Hall. destruct Hall as [Hc Hw].
  apply negb_true_iff in Hc. simpl. rewrite Hc, (IH Hw), <- app_assoc.
  reflexivity.
Qed.

Lemma join_nonempty (p : text) (rest : list text) :
  p <> [] -> join space (p :: rest) <> [].
Proof.
  intros Hp. simpl. destruct rest; [exact Hp|]. now destruct p.
Qed.

(** [split] undoes [join]: the words of words joined by spaces are the
    words. *)
Lemma split_join (ws : list text) :
  Forall spaceless ws -> split (join space ws) = ws.
Proof.
  induction 1 as [|p rest [Hne Hall] Hrest IH]; [reflexivity|].
  unfold split in *.
  assert (Hp : forall s, split_go [] (p ++ space ++ s) = p :: split_go [] s).
  { intros s. rewrite (split_go_word p Hall), app_nil_r. simpl.
    destruct (rev p) eqn:E.
    - exfalso. apply Hne. rewrite <- (rev_involutive p), E. reflexivity.
    - now rewrite <- E, rev_involutive. }
  destruct rest as [|q rest].
  - simpl. rewrite <- (app_nil_r p) at 1.
    rewrite (split_go_word p Hall), app_nil_r. simpl.
    destruct (rev p) eqn:E.
    + exfalso. apply Hne. rewrite <- (rev_involutive p), E. reflexivity.
    + now rewrite <- E, rev_involutive.
  - change (join space (p :: q :: rest)) with (p ++ space ++ join space (q :: rest)).
    now rewrite Hp, IH.
Qed.

Lemma spaceless_head (w : text) : spaceless w -> isspace_at w = false.
Proof.
  intros [Hne Hall]. destruct w as [|c w]; [congruence|].
  simpl in *. apply andb_true_iff in Hall. destruct Hall as [Hc _].
  now apply negb_true_iff in Hc.
Qed.

Lemma spaceless_rev (w : text) : spaceless w -> spaceless (rev w).
Proof.
  intros [Hne Hall]. split.
  - intros E. apply Hne. rewrite <- (rev_involutive w), E. reflexivity.
  - now rewrite forallb_rev.
Qed.

Lemma trimmed_join (ws : list text) :
  Forall spaceless ws -> trimmed (join space ws).
Proof.
  intros H. split.
  - destruct H as [|p rest Hp Hrest]; [reflexivity|].
    simpl. destruct rest; [now apply spaceless_head|].
    rewrite isspace_at_app. destruct p as [|c0 p]; [now destruct Hp|].
    now apply (spaceless_head (c0 :: p)).
  - induction H as [|p rest Hp Hrest IH]; [reflexivity|].
    destruct rest as [|q rest].
    + simpl. now apply spaceless_head, spaceless_rev.
    + change (join space (p :: q :: rest))
        with (p ++ space ++ join space (q :: rest)).
      rewrite !rev_app_distr, <- app_assoc, isspace_at_app.
      destruct (rev (join space (q :: rest))) eqn:E; [|exact IH].
      exfalso. inversion Hrest as [|? ? [Hq _] _]; subst.
      apply (join_nonempty q rest Hq).
      rewrite <- (rev_involutive (join space (q :: rest))), E. reflexivity.
Qed.

(** *** The words _filter_words_fallback keeps *)

Lemma filter_loop_kept (words : list text) :
  forall w, In w (fst (filter_loop words)) ->
    In w words
    /\ mem (lower w) TEMPORAL_WORDS = false
    /\ mem (lower w) COMMAND_VERBS = false.
Proof.
  unfold filter_loop.
  apply (fold_left_inv _
           (fun st => forall w, In w (fst st) ->
              In w words
              /\ mem (lower w) TEMPORAL_WORDS = false
              /\ mem (lower w) COMMAND_VERBS = false)).
  - intros [filtered skip] [i w0] Hin Hst. cbn [fst] in Hst.
    destruct (filter_rule words i w0) eqn:E; [exact Hst|].
    destruct (memi i skip); [exact Hst|].
    cbn [fst]. intros w [<-|Hw]; [|exact (Hst w Hw)].
    split; [exact (enumerate_in _ _ _ Hin)|].
    unfold filter_rule in E. cbv zeta in E.
    destruct (mem (lower w0) TEMPORAL_WORDS || mem (lower w0) COMMAND_VERBS)%bool
      eqn:Em; [discriminate|].
    now apply orb_false_iff in Em.
  - intros w [].
Qed.

(** X21: every word of what [_filter_words_fallback] returns is a word of
    the text that is neither a temporal word nor a command verb, whatever
    its case. *)
Theorem filter_words_fallback_words (txt w : text) :
  In w (split (filter_words_fallback txt)) ->
  In w (split txt)
  /\ mem (lower w) TEMPORAL_WORDS = false
  /\ mem (lower w) COMMAND_VERBS = false.
Proof.
  unfold filter_words_fallback. cbv zeta.
  assert (Hs : Forall spaceless (rev (fst (filter_loop (split txt))))).
  { apply Forall_rev, Forall_forall. intros u Hu.
    pose proof (split_spaceless txt) as H. rewrite Forall_forall in H.
    apply H. now apply (filter_loop_kept (split txt) u). }
  rewrite (strip_fix _ (trimmed_join _ Hs)), (split_join _ Hs).
  intros Hw. apply in_rev in Hw. now apply filter_loop_kept.
Qed.

Lemma filter_words_fallback_words_witness :
  In (py "Mom") (split (py "Set call Mom TOMORROW at 5"))
  /\ mem (lower (py "Mom")) TEMPORAL_WORDS = false
  /\ mem (lower (py "Mom")) COMMAND_VERBS = false.
Proof.
  apply (filter_words_fallback_words (py "Set call Mom TOMORROW at 5") (py "Mom")).
  vm_compute. tauto.
Defined.

(** What the rule for a unit of time adds for the word before it comes too
    late: the word is already kept. *)
Lemma filter_words_fallback_keeps_number_word :
  filter_words_fallback (py "call in two hours") = py "call two".
Proof. vm_compute. reflexivity. Qed.

Section ParseTitle.

Variable nlp : text -> Doc.
Variable dateparser_parse : text -> datetime -> option datetime.
Variable cal_parseDT : text -> datetime -> datetime * Z.
Variable clock : nat -> datetime.

(** X20: the title [parse] returns has no white space at either end. *)
Theorem parse_title_trimmed (txt : text) (ev : ParsedEvent) :
  parse nlp dateparser_parse cal_parseDT clock txt = Ok ev -> trimmed (title ev).
Proof.
  intros Hp. destruct (blank txt) eqn:Hb.
  - rewrite (parse_blank nlp dateparser_parse cal_parseDT clock txt Hb) in Hp.
    injection Hp as <-. exact trimmed_nil.
  - destruct (parse_title nlp dateparser_parse cal_parseDT clock txt ev Hb Hp)
      as (d & ->).
    apply extract_title_is_trimmed.
Qed.

(** X22: the title depends on the normalized text alone: two texts with the
    same normalized text, as [lunch @3pm] and [lunch at3pm], have the same
    title, whatever date and time are found in them. *)
Theorem parse_title_of_normalized (a b : text) (ea eb : ParsedEvent) :
  normalize_text a = normalize_text b ->
  parse nlp dateparser_parse cal_parseDT clock a = Ok ea ->
  parse nlp dateparser_parse cal_parseDT clock b = Ok eb ->
  title ea = title eb.
Proof.
  intros Hn Ha Hb.
  assert (Hblank : blank a = blank b).
  { destruct (blank a) eqn:Ba, (blank b) eqn:Bb; try reflexivity; exfalso.
    - apply (normalize_text_nonempty b Bb). rewrite <- Hn.
      now apply normalize_text_blank.
    - apply (normalize_text_nonempty a Ba). rewrite Hn.
      now apply normalize_text_blank. }
  destruct (blank a) eqn:Ba.
  - rewrite (parse_blank nlp dateparser_parse cal_parseDT clock a Ba) in Ha.
    rewrite (parse_blank nlp dateparser_parse cal_parseDT clock b
               (eq_sym Hblank)) in Hb.
    injection Ha as <-. injection Hb as <-. reflexivity.
  - destruct (parse_title nlp dateparser_parse cal_parseDT clock a ea Ba Ha)
      as (da & ->).
    destruct (parse_title nlp dateparser_parse cal_parseDT clock b eb
                (eq_sym Hblank) Hb) as (db & ->).
    rewrite Hn. reflexivity.
Qed.

End ParseTitle.

Lemma parse_title_trimmed_witness :
  trimmed (title (mkEvent (py "call mom") None None event)).
Proof.
  apply (parse_title_trimmed plain_nlp no_dateparser no_calendar fixed_clock
           (py "  Call   MOM  ")).
  vm_compute. reflexivity.
Defined.

Lemma parse_title_of_normalized_witness :
  title (mkEvent (py "lunch") (Some (py "2024-02-28T15:00:00")) None event)
  = title (mkEvent (py "lunch") None None event).
Proof.
  apply (parse_title_of_normalized plain_nlp no_dateparser no_calendar fixed_clock
           (py "lunch @3pm") (py "lunch at3pm"));
    vm_compute; reflexivity.
Defined.

(** ** The day number of a date *)

Local Open Scope Z_scope.

Lemma all_from_sound (f : Z -> bool) :
  forall fuel n, all_from f fuel n = true ->
    forall k, n <= k < n + Z.of_nat fuel -> f k = true.
Proof.
  induction fuel as [|fuel IH]; intros n H k Hk; [lia|].
  simpl in H. destruct (f n) eqn:E; [|discriminate].
  destruct (Z.eq_dec k n) as [->|Hne]; [exact E|].
  apply (IH (n + 1) H). lia.
Qed.

(** The months and days of a year, one by one. *)
Lemma month_day_checked (leap : bool) (r : Z) :
  0 <= r < 365 -> month_day_check leap r = true.
Proof.
  intros Hr. destruct leap.
  - assert (H : all_from (month_day_check true) 365%nat 0 = true)
      by (vm_compute; reflexivity).
    apply (all_from_sound _ _ _ H). lia.
  - assert (H : all_from (month_day_check false) 365%nat 0 = true)
      by (vm_compute; reflexivity).
    apply (all_from_sound _ _ _ H). lia.
Qed.

Lemma days_in_month_leap (y m : Z) :
  days_in_month y m = days_in_month (leap_proxy (is_leap y)) m.
Proof.
  unfold days_in_month. destruct (m =? 2); [|reflexivity].
  destruct (is_leap y); reflexivity.
Qed.

Lemma days_before_month_leap (y m : Z) :
  days_before_month y m = days_before_month (leap_proxy (is_leap y)) m.
Proof.
  unfold days_before_month. generalize 0. generalize (List.seq 1 (Z.to_nat (m - 1))).
  induction l as [|k l IH]; intros acc; simpl; [reflexivity|].
  now rewrite (days_in_month_leap y), IH.
Qed.

Lemma is_leap_true (y : Z) :
  y mod 4 = 0 -> (y mod 100 <> 0 \/ y mod 400 = 0) -> is_leap y = true.
Proof.
  intros H4 H. unfold is_leap. apply Z.eqb_eq in H4. rewrite H4. simpl.
  destruct H as [H|H].
  - apply Z.eqb_neq in H. now rewrite H.
  - apply Z.eqb_eq in H. rewrite H. apply orb_true_r.
Qed.

Lemma is_leap_false (y : Z) :
  (y mod 4 <> 0 \/ (y mod 100 = 0 /\ y mod 400 <> 0)) -> is_leap y = false.
Proof.
  unfold is_leap. intros [H|[H1 H2]].
  - apply Z.eqb_neq in H. now rewrite H.
  - apply Z.eqb_eq in H1. apply Z.eqb_neq in H2. rewrite H1, H2.
    apply andb_false_r.
Qed.

Lemma days_before_year_parts (a b c e : Z) :
  0 <= b <= 3 -> 0 <= c <= 24 -> 0 <= e <= 3 ->
  days_before_year (a * 400 + 1 + b * 100 + c * 4 + e)
  = 146097 * a + 36524 * b + 1461 * c + 365 * e.
Proof.
  intros Hb Hc He. unfold days_before_year. cbv zeta.
  replace (a * 400 + 1 + b * 100 + c * 4 + e - 1)
    with (a * 400 + b * 100 + c * 4 + e) by lia.
  assert (H4 : (a * 400 + b * 100 + c * 4 + e) / 4 = 100 * a + 25 * b + c).
  { symmetry. apply (Z.div_unique _ _ _ e); lia. }
  assert (H100 : (a * 400 + b * 100 + c * 4 + e) / 100 = 4 * a + b).
  { symmetry. apply (Z.div_unique _ _ _ (c * 4 + e)); lia. }
  assert (H400 : (a * 400 + b * 100 + c * 4 + e) / 400 = a).
  { symmetry. apply (Z.div_unique _ _ _ (b * 100 + c * 4 + e)); lia. }
  rewrite H4, H100, H400. lia.
Qed.

Lemma is_leap_parts (a b c e : Z) :
  0 <= b <= 3 -> 0 <= c <= 24 -> 0 <= e <= 3 ->
  is_leap (a * 400 + 1 + b * 100 + c * 4 + e)
  = (e =? 3) && (negb (c =? 24) || (b =? 3)).
Proof.
  intros Hb Hc He.
  set (y := a * 400 + 1 + b * 100 + c * 4 + e).
  assert (H4 : y mod 4 = (e + 1) mod 4).
  { subst y. replace (a * 400 + 1 + b * 100 + c * 4 + e)
      with (e + 1 + (a * 100 + b * 25 + c) * 4) by lia.
    apply Z.mod_add. lia. }
  destruct (Z.eqb_spec e 3) as [->|He3]; cbn [andb].
  2:{ apply is_leap_false. left. rewrite H4.
      rewrite Z.mod_small by lia. lia. }
  assert (H100 : y mod 100 = (c * 4 + 4) mod 100).
  { subst y. replace (a * 400 + 1 + b * 100 + c * 4 + 3)
      with (c * 4 + 4 + (a * 4 + b) * 100) by lia.
    apply Z.mod_add. lia. }
  destruct (Z.eqb_spec c 24) as [->|Hc24]; cbn [negb orb].
  2:{ apply is_leap_true; [rewrite H4; reflexivity|]. left. rewrite H100.
      rewrite Z.mod_small by lia. lia. }
  assert (H400 : y mod 400 = (b * 100 + 100) mod 400).
  { subst y. replace (a * 400 + 1 + b * 100 + 24 * 4 + 3)
      with (b * 100 + 100 + a * 400) by lia.
    apply Z.mod_add. lia. }
  destruct (Z.eqb_spec b 3) as [->|Hb3].
  - apply is_leap_true; [rewrite H4; reflexivity|]. right. rewrite H400. reflexivity.
  - apply is_leap_false. right. split; [rewrite H100; reflexivity|].
    rewrite H400. rewrite Z.mod_small by lia. lia.
Qed.

(** [fromordinal] splits the day number into 400, 100, 4 and single
    years; [days_before_year] puts them together again. *)
Lemma ordinal_check_all : forall n, 1 <= n -> ordinal_check n = true.
Proof.
  intros n Hn. unfold ordinal_check, fromordinal. cbv zeta.
  set (N := n - 1).
  set (n400 := N / 146097). set (r1 := N mod 146097).
  set (n100 := r1 / 36524). set (r2 := r1 mod 36524).
  set (n4 := r2 / 1461). set (r3 := r2 mod 1461).
  set (n1 := r3 / 365). set (r := r3 mod 365).
  assert (HN : n = N + 1) by (subst N; lia).
  pose proof (Z.div_mod N 146097 ltac:(lia)) as E1.
  pose proof (Z.mod_pos_bound N 146097 ltac:(lia)) as B1.
  pose proof (Z.div_mod r1 36524 ltac:(lia)) as E2.
  pose proof (Z.mod_pos_bound r1 36524 ltac:(lia)) as B2.
  pose proof (Z.div_mod r2 1461 ltac:(lia)) as E3.
  pose proof (Z.mod_pos_bound r2 1461 ltac:(lia)) as B3.
  pose proof (Z.div_mod r3 365 ltac:(lia)) as E4.
  pose proof (Z.mod_pos_bound r3 365 ltac:(lia)) as B4.
  fold n400 r1 in E1, B1. fold n100 r2 in E2, B2.
  fold n4 r3 in E3, B3. fold n1 r in E4, B4.
  clearbody n400 r1 n100 r2 n4 r3 n1 r. clearbody N.
  assert (H100 : 0 <= n100 <= 4) by lia.
  assert (H4 : 0 <= n4 <= 24) by lia.
  assert (H1 : 0 <= n1 <= 4) by lia.
  destruct ((n1 =? 4) || (n100 =? 4))%bool eqn:Ec.
  - unfold toordinal. cbn [year month day].
    apply Z.eqb_eq.
    apply orb_true_iff in Ec. destruct Ec as [Ec|Ec]; apply Z.eqb_eq in Ec.
    + (* the last day of a leap year that ends four years *)
      assert (Hn100 : n100 <= 3) by lia.
      assert (Hn4 : n4 <= 23) by lia.
      replace (n400 * 400 + 1 + n100 * 100 + n4 * 4 + n1 - 1)
        with (n400 * 400 + 1 + n100 * 100 + n4 * 4 + 3) by lia.
      rewrite days_before_month_leap, is_leap_parts by lia.
      rewrite days_before_year_parts by lia.
      replace (n4 =? 24) with false by (symmetry; apply Z.eqb_neq; lia).
      change (3 =? 3) with true. cbn [andb orb negb].
      change (days_before_month (leap_proxy true) 12) with 335. lia.
    + (* the last day of the 400 years *)
      replace (n400 * 400 + 1 + n100 * 100 + n4 * 4 + n1 - 1)
        with (n400 * 400 + 1 + 3 * 100 + 24 * 4 + 3) by lia.
      rewrite days_before_month_leap, is_leap_parts by lia.
      rewrite days_before_year_parts by lia.
      match goal with
      | |- context [days_before_month ?p 12] =>
          change (days_before_month p 12) with 335
      end.
      lia.
  - apply orb_false_iff in Ec. destruct Ec as [Ec1 Ec2].
    apply Z.eqb_neq in Ec1, Ec2.
    pose proof (month_day_checked
                  ((n1 =? 3) && (negb (n4 =? 24) || (n100 =? 3))) r B4) as Hm.
    unfold month_day_check, month_day in Hm. cbv zeta in Hm.
    unfold leap_proxy in Hm.
    match goal with
    | |- context [if ?b then _ else _] => destruct b
    end;
      unfold toordinal; cbn [year month day];
      rewrite days_before_month_leap, is_leap_parts by lia;
      rewrite days_before_year_parts by lia;
      unfold leap_proxy; apply Z.eqb_eq in Hm; apply Z.eqb_eq; lia.
Qed.

(** The day number of the date of a day number is the day number. *)
Lemma toordinal_fromordinal (n : Z) (h mi s us : Z) :
  1 <= n ->
  toordinal (let '(y, m, d) := fromordinal n in mkdt y m d h mi s us) = n.
Proof.
  intros Hn. pose proof (ordinal_check_all n Hn) as H. unfold ordinal_check in H.
  destruct (fromordinal n) as [[y m] d]. apply Z.eqb_eq in H. exact H.
Qed.

Lemma dt_add_seconds (d : datetime) (delta : Z * Z) (r : datetime) :
  dt_add d delta = Ok r ->
  seconds_of r = seconds_of d + fst delta * 86400 + snd delta.
Proof.
  unfold dt_add. cbv zeta.
  set (secs := hour d * 3600 + minute d * 60 + second d + snd delta).
  set (days := toordinal d + fst delta + secs / 86400).
  destruct ((0 <? days) && (days <=? MAXORDINAL))%bool eqn:E; [|discriminate].
  apply andb_true_iff in E. destruct E as [E _]. apply Z.ltb_lt in E.
  pose proof (toordinal_fromordinal days (secs mod 86400 / 3600)
                (secs mod 86400 mod 3600 / 60) (secs mod 86400 mod 60)
                (microsecond d) ltac:(lia)) as Ho.
  destruct (fromordinal days) as [[y m] dd]. intros [= <-].
  unfold seconds_of. rewrite Ho. cbn [hour minute second].
  unfold seconds_of in *. subst days secs.
  set (S0 := hour d * 3600 + minute d * 60 + second d + snd delta).
  pose proof (Z.div_mod S0 86400 ltac:(lia)) as H1.
  pose proof (Z.mod_pos_bound S0 86400 ltac:(lia)) as H2.
  set (s := S0 mod 86400) in *.
  pose proof (Z.div_mod s 3600 ltac:(lia)) as H3.
  pose proof (Z.div_mod (s mod 3600) 60 ltac:(lia)) as H4.
  assert (H5 : s mod 3600 mod 60 = s mod 60).
  { rewrite <- (Z.mod_mod_divide s 3600 60); [reflexivity|]. exists 60. lia. }
  lia.
Qed.

Lemma timedelta_seconds (seconds : Z) (delta : Z * Z) :
  timedelta seconds = Ok delta -> fst delta * 86400 + snd delta = seconds.
Proof.
  unfold timedelta. cbv zeta.
  destruct (Z.abs _ >? MAXDELTADAYS); [discriminate|]. intros [= <-]. simpl.
  pose proof (Z.div_mod seconds 86400 ltac:(lia)). lia.
Qed.

(** X23: the date and time [extract_relative_time] returns is a whole
    number of hours, minutes or days after the base, and never before it:
    the sum is right across the ends of days, months and years. *)
Theorem extract_relative_time_exact (now : datetime) (txt : text)
    (base : option datetime) (d : datetime) :
  extract_relative_time now txt base = Ok (Some d) ->
  exists n u,
    0 <= n
    /\ seconds_of d = seconds_of (default_now now base) + n * unit_seconds u.
Proof.
  unfold extract_relative_time. cbv zeta.
  destruct (relative_loop_result (default_now now base) (lower txt)
              RELATIVE_TIME_PATTERNS RELATIVE_TIME_PATTERNS_wf)
    as [->|[[_ ->]|(value & u & Hv & ->)]]; [discriminate|discriminate|].
  destruct (timedelta (value * unit_seconds u)) as [delta|e1] eqn:E1; cbn [bind];
    [|discriminate].
  destruct (dt_add (default_now now base) delta) as [r|e2] eqn:E2; cbn [bind];
    [|discriminate].
  intros [= <-]. exists value, u. split; [exact Hv|].
  rewrite (dt_add_seconds _ _ _ E2).
  pose proof (timedelta_seconds _ _ E1). lia.
Qed.

Lemma extract_relative_time_exact_witness :
  exists n u,
    0 <= n
    /\ seconds_of (mkdt 2024 3 1 10 30 5 7)
       = seconds_of (default_now (fixed_clock 0) None) + n * unit_seconds u.
Proof.
  apply (extract_relative_time_exact (fixed_clock 0) (py "call in 48 hours") None).
  vm_compute. reflexivity.
Defined.

Local Close Scope Z_scope.
